(** * Quantity parsing, formatting and conversion (conversions.py)

    A shallow embedding of the module [conversions.py] of the recipe
    application, and the properties of its six functions.

    Modelling conventions.
    - A Python [float] is an IEEE-754 binary64 number: the Standard Library's
      [spec_float] with [prec = 53] and [emax = 1024], rounding to nearest,
      ties to even.  Magnitudes are floats, as the callers supply them (the
      results of [parse_fraction], of [float(...)] on a form field, or a REAL
      column); the integers the source writes ([0], [1], [2], [int(...)])
      are [Z] and are converted where Python converts them.
    - A Python exception is an explicit outcome: a function returns
      [Ok v] or [Raise e].  [None] is [Datatypes.None].
    - A Python [str] is a [string] holding the UTF-8 encoding of the text.
      The character classes of [str.strip], [float], [int], [re] and
      [str.lower] are the ASCII ones: digits [0-9], the ten ASCII white-space
      characters, word characters [A-Za-z0-9_].  Other bytes (the encoding
      of non-ASCII characters) belong to no class; the nine fraction glyphs
      and the soft hyphen are recognised by their encoding.  On a text of
      ASCII characters these classes are Python's; where a statement
      depends on the class of other characters it is made for ASCII texts
      ([is_ascii]).
    - The regular expressions of the source are terms of a small regex
      language run by a backtracking matcher with Python's greedy
      semantics.

    The callers of the module are embedded after it: of [app.py] the
    helpers of the upload ([_allowed_file], [_save_image]), of the recipe
    form ([_parse_recipe_form], with the text [recipe_edit] shows for the
    steps) and of the ingredient forms ([_parse_float] and the guarded
    density), and the shopping list ([api_shopping_list]); of
    [seed_king_arthur.py] the body of the loop over the rows of the
    chart.  There the web framework, the file system and the
    database are parameters: a form is a record of its fields, the clock
    and the static folder are arguments, and the file system is a function
    that tells whether a call goes through or raises. *)

From Stdlib Require Import ZArith List String Ascii Bool Lia DecimalString.
From Stdlib Require Import SpecFloat DecimalPos Sorted Permutation.
Import ListNotations.

Local Open Scope string_scope.
Local Open Scope Z_scope.

(** ** Outcomes of a Python call *)

Module Py.

Inductive exn : Type :=
| ValueError
| ZeroDivisionError
| OverflowError.

Inductive result (A : Type) : Type :=
| Ok (a : A)
| Raise (e : exn).

Arguments Ok {A} a.
Arguments Raise {A} e.

Definition bind {A B : Type} (r : result A) (k : A -> result B) : result B :=
  match r with
  | Ok a => k a
  | Raise e => Raise e
  end.

Definition raises {A : Type} (r : result A) : bool :=
  match r with
  | Ok _ => false
  | Raise _ => true
  end.

End Py.

Import Py.

Declare Scope py_scope.
Delimit Scope py_scope with py.
Notation "x <- c1 ;; c2" := (Py.bind c1 (fun x => c2))
  (at level 61, c1 at next level, right associativity) : py_scope.
Local Open Scope py_scope.

(** ** Binary64 floating point *)

Module Float.

Definition prec : Z := 53.
Definition emax : Z := 1024.

Definition float : Type := spec_float.

Definition add : float -> float -> float := SFadd prec emax.
Definition sub : float -> float -> float := SFsub prec emax.
Definition mul : float -> float -> float := SFmul prec emax.
Definition div : float -> float -> float := SFdiv prec emax.
Definition opp : float -> float := SFopp.
Definition abs : float -> float := SFabs.
Definition compare : float -> float -> option comparison := SFcompare.
Definition eqb : float -> float -> bool := SFeqb.
Definition ltb : float -> float -> bool := SFltb.
Definition leb : float -> float -> bool := SFleb.

Definition is_nan (x : float) : bool :=
  match x with S754_nan => true | _ => false end.

Definition is_inf (x : float) : bool :=
  match x with S754_infinity _ => true | _ => false end.

Definition is_finite (x : float) : bool :=
  match x with
  | S754_zero _ | S754_finite _ _ _ => true
  | _ => false
  end.

(** [x == 0], true of both zeros. *)
Definition is_zero (x : float) : bool :=
  match x with S754_zero _ => true | _ => false end.

(** The nearest float to an integer (the conversion of [int] to [float],
    before its overflow check). *)
Definition of_Z (z : Z) : float := binary_normalize prec emax z 0 false.

(** An integer as an exact, unrounded operand of [SFdiv]. *)
Definition exact_Z (z : Z) : float :=
  match z with
  | Z0 => S754_zero false
  | Zpos p => S754_finite false p 0
  | Zneg p => S754_finite true p 0
  end.

(** The nearest float to the quotient of two integers, [b <> 0]. *)
Definition div_Z (a b : Z) : float := SFdiv prec emax (exact_Z a) (exact_Z b).

(** The nearest float to [m * 10^e], [0 <= m]: the value of a decimal
    literal.  Beyond [10^400] the result is infinite, and below
    [2^(-1080)] it is zero, whatever the digits. *)
Definition of_decimal (m e : Z) : float :=
  if m =? 0 then S754_zero false
  else if e >? 400 then S754_infinity false
  else if 0 <=? e then of_Z (m * 10 ^ e)
  else if 3 * e + Z.log2 m + 1 <? -1080 then S754_zero false
  else div_Z m (10 ^ (- e)).

(** The exact value of a finite float as a fraction [n / 2^k]. *)
Definition numerator (s : bool) (m : positive) (e : Z) : Z :=
  cond_Zopp s (Zpos m * 2 ^ Z.max e 0).

Definition denominator (e : Z) : Z := 2 ^ Z.max (- e) 0.

(** Truncation toward zero, [None] on infinities and NaN. *)
Definition trunc (x : float) : option Z :=
  match x with
  | S754_zero _ => Some 0
  | S754_finite s m e => Some (Z.quot (numerator s m e) (denominator e))
  | _ => None
  end.

(** The integer nearest to [n / d], ties to even; [0 < d]. *)
Definition round_half_even (n d : Z) : Z :=
  let q := n / d in
  let r := n mod d in
  match 2 * r ?= d with
  | Lt => q
  | Gt => q + 1
  | Eq => if Z.even q then q else q + 1
  end.

(** The nearest integer to a float, [None] on infinities and NaN. *)
Definition nearest (x : float) : option Z :=
  match x with
  | S754_zero _ => Some 0
  | S754_finite s m e =>
      Some (cond_Zopp s (round_half_even (numerator false m e) (denominator e)))
  | _ => None
  end.

(** [|x| * 10] rounded to an integer: the digits of [x] to one decimal. *)
Definition tenths (m : positive) (e : Z) : Z :=
  round_half_even (10 * numerator false m e) (denominator e).

(** [round(x, 1)]: the nearest float to [x] rounded to one decimal. *)
Definition round1 (x : float) : float :=
  match x with
  | S754_finite s m e =>
      if 0 <=? e then x
      else match tenths m e with
           | Z0 => S754_zero s
           | t => SFdiv prec emax (exact_Z (cond_Zopp s t)) (exact_Z 10)
           end
  | _ => x
  end.

(** Exact comparison of a float with an integer ([x == z]). *)
Definition eqb_Z (x : float) (z : Z) : bool :=
  match x with
  | S754_zero _ => z =? 0
  | S754_finite s m e => numerator s m e =? z * denominator e
  | _ => false
  end.

(** C's [fmod]: the exact remainder of [x / y] with the sign of [x]. *)
Definition fmod (x y : float) : float :=
  match x, y with
  | S754_nan, _ | _, S754_nan => S754_nan
  | S754_infinity _, _ => S754_nan
  | _, S754_zero _ => S754_nan
  | _, S754_infinity _ => x
  | S754_zero _, _ => x
  | S754_finite sx mx ex, S754_finite sy my ey =>
      let e := Z.min ex ey in
      let r := Z.rem (Zpos mx * 2 ^ (ex - e)) (Zpos my * 2 ^ (ey - e)) in
      match r with
      | Z0 => S754_zero sx
      | _ => binary_normalize prec emax (cond_Zopp sx r) e false
      end
  end.

Definition sign_bit (x : float) : bool :=
  match x with
  | S754_zero s | S754_infinity s | S754_finite s _ _ => s
  | S754_nan => false
  end.

End Float.

(** ** Python's numeric operations that can raise *)

Module Num.

(** [float(z)] for an [int] operand of a mixed operation: the nearest
    float, [OverflowError] when it is out of range. *)
Definition float_of_int (z : Z) : result Float.float :=
  let x := Float.of_Z z in
  if Float.is_inf x then Raise OverflowError else Ok x.

(** [a / b] on two [int]s. *)
Definition int_truediv (a b : Z) : result Float.float :=
  if b =? 0 then Raise ZeroDivisionError
  else
    let x := Float.div_Z a b in
    if Float.is_inf x then Raise OverflowError else Ok x.

(** [x / y] on two floats. *)
Definition float_truediv (x y : Float.float) : result Float.float :=
  if Float.is_zero y then Raise ZeroDivisionError else Ok (Float.div x y).

(** [int(x)] on a float. *)
Definition int_of_float (x : Float.float) : result Z :=
  match Float.trunc x with
  | Some z => Ok z
  | None => if Float.is_nan x then Raise ValueError else Raise OverflowError
  end.

(** [round(x)] on a float. *)
Definition round (x : Float.float) : result Z :=
  match Float.nearest x with
  | Some z => Ok z
  | None => if Float.is_nan x then Raise ValueError else Raise OverflowError
  end.

(** [x % y] on two floats. *)
Definition float_mod (x y : Float.float) : result Float.float :=
  if Float.is_zero y then Raise ZeroDivisionError
  else
    let m := Float.fmod x y in
    if Float.is_zero m then Ok (S754_zero (Float.sign_bit y))
    else if Bool.eqb (Float.ltb y (S754_zero false)) (Float.ltb m (S754_zero false))
         then Ok m
         else Ok (Float.add m y).

End Num.

(** ** Strings *)

Module Str.

Definition code (c : ascii) : N := N_of_ascii c.

Definition is_digit (c : ascii) : bool :=
  (48 <=? code c)%N && (code c <=? 57)%N.

(** White space as [str.strip] and the class [\s] see it. *)
Definition is_space (c : ascii) : bool :=
  ((9 <=? code c)%N && (code c <=? 13)%N)
  || ((28 <=? code c)%N && (code c <=? 32)%N).

Definition is_upper (c : ascii) : bool :=
  (65 <=? code c)%N && (code c <=? 90)%N.

Definition is_lower (c : ascii) : bool :=
  (97 <=? code c)%N && (code c <=? 122)%N.

(** The class [\w]. *)
Definition is_word (c : ascii) : bool :=
  is_digit c || is_upper c || is_lower c || (code c =? 95)%N.

Definition lower_char (c : ascii) : ascii :=
  if is_upper c then ascii_of_N (code c + 32) else c.

Fixpoint lower (s : string) : string :=
  match s with
  | EmptyString => EmptyString
  | String c s' => String (lower_char c) (lower s')
  end.

(** White space as [float] sees it in an ASCII text (C's [isspace]). *)
Definition is_c_space (c : ascii) : bool :=
  ((9 <=? code c)%N && (code c <=? 13)%N) || (code c =? 32)%N.

Fixpoint lstrip_with (p : ascii -> bool) (s : string) : string :=
  match s with
  | EmptyString => EmptyString
  | String c s' => if p c then lstrip_with p s' else s
  end.

Definition is_empty (s : string) : bool :=
  match s with EmptyString => true | _ => false end.

Fixpoint rstrip_with (p : ascii -> bool) (s : string) : string :=
  match s with
  | EmptyString => EmptyString
  | String c s' =>
      let r := rstrip_with p s' in
      if p c && is_empty r then EmptyString else String c r
  end.

Definition strip_with (p : ascii -> bool) (s : string) : string :=
  rstrip_with p (lstrip_with p s).

(** [s.strip()] *)
Definition strip (s : string) : string := strip_with is_space s.

Fixpoint startswith (p s : string) : bool :=
  match p, s with
  | EmptyString, _ => true
  | String a p', String b s' => Ascii.eqb a b && startswith p' s'
  | String _ _, EmptyString => false
  end.

(** [p in s]. *)
Fixpoint contains (p s : string) : bool :=
  startswith p s
  || match s with
     | EmptyString => false
     | String _ s' => contains p s'
     end.

(** [s.replace(old, "")] for a non-empty [old]: every occurrence, found
    from the left and not overlapping, is dropped.  [skip] counts the
    characters of the occurrence being dropped. *)
Fixpoint remove_from (old s : string) (skip : nat) : string :=
  match s with
  | EmptyString => EmptyString
  | String c s' =>
      match skip with
      | S k => remove_from old s' k
      | O =>
          if startswith old s then remove_from old s' (Nat.pred (String.length old))
          else String c (remove_from old s' 0)
      end
  end.

Definition remove (old s : string) : string := remove_from old s 0.

Definition digit_value (c : ascii) : Z := Z.of_N (code c) - 48.

(** The value of a run of digits, most significant first. *)
Fixpoint digits_value (acc : Z) (s : string) : Z :=
  match s with
  | EmptyString => acc
  | String c s' => digits_value (10 * acc + digit_value c) s'
  end.

(** Every character of [s] satisfies [p]. *)
Fixpoint all (p : ascii -> bool) (s : string) : bool :=
  match s with
  | EmptyString => true
  | String c s' => p c && all p s'
  end.

(** [str(z)] *)
Definition of_Z (z : Z) : string :=
  match z with
  | Z0 => "0"
  | Zpos p => NilEmpty.string_of_uint (Pos.to_uint p)
  | Zneg p => String "-" (NilEmpty.string_of_uint (Pos.to_uint p))
  end.

End Str.

(** ** [float(text)] and [int(text)] *)

Module Lit.

(** The longest prefix of [s] whose characters satisfy [p], and the rest. *)
Fixpoint span (p : ascii -> bool) (s : string) : string * string :=
  match s with
  | EmptyString => (EmptyString, EmptyString)
  | String c s' =>
      if p c then let '(a, b) := span p s' in (String c a, b)
      else (EmptyString, s)
  end.

(** Underscores may only stand between two digits.  [prev] is the
    previous character, if any. *)
Fixpoint underscores_ok (prev : option ascii) (s : string) : bool :=
  let after_digit :=
    match prev with Some d => Str.is_digit d | None => false end in
  match s with
  | EmptyString =>
      match prev with Some "_"%char => false | _ => true end
  | String "_"%char s' => after_digit && underscores_ok (Some "_"%char) s'
  | String c s' =>
      match prev with
      | Some "_"%char => Str.is_digit c
      | _ => true
      end && underscores_ok (Some c) s'
  end.

Definition sign (s : string) : bool * string :=
  match s with
  | String "-"%char s' => (true, s')
  | String "+"%char s' => (false, s')
  | _ => (false, s)
  end.

(** The exponent part: empty, or [e]/[E], an optional sign and digits up
    to the end of the text. *)
Definition exponent (s : string) : option Z :=
  match s with
  | EmptyString => Some 0
  | String c s' =>
      if Ascii.eqb (Str.lower_char c) "e"%char then
        let '(neg, s1) := sign s' in
        let '(ds, s2) := span Str.is_digit s1 in
        if Str.is_empty ds || negb (Str.is_empty s2) then None
        else Some (cond_Zopp neg (Str.digits_value 0 ds))
      else None
  end.

(** An unsigned decimal number: digits, an optional point and digits (one
    digit at least), an optional exponent. *)
Definition unsigned (s : string) : option Float.float :=
  let '(ip, s1) := span Str.is_digit s in
  let '(fp, s2) :=
    match s1 with
    | String "."%char s' => span Str.is_digit s'
    | _ => (EmptyString, s1)
    end in
  if Str.is_empty ip && Str.is_empty fp then None
  else
    match exponent s2 with
    | Some e =>
        Some (Float.of_decimal (Str.digits_value 0 (ip ++ fp))
                               (e - Z.of_nat (String.length fp)))
    | None => None
    end.

Definition magnitude (s : string) : option Float.float :=
  let l := Str.lower s in
  if String.eqb l "inf" || String.eqb l "infinity" then Some (S754_infinity false)
  else if String.eqb l "nan" then Some S754_nan
  else unsigned s.

Definition parse (s : string) : option Float.float :=
  let s := Str.strip_with Str.is_c_space s in
  if underscores_ok None s then
    let '(neg, body) := sign (Str.remove "_" s) in
    match magnitude body with
    | Some x => Some (if neg then Float.opp x else x)
    | None => None
    end
  else None.

(** [float(s)] *)
Definition float_of_str (s : string) : result Float.float :=
  match parse s with
  | Some x => Ok x
  | None => Raise ValueError
  end.

(** [int(s)] on a run of digits, as the groups [(\d+)] deliver it.
    Integers are unbounded; the interpreter's limit on the length of such
    a text (4300 digits by default) is not modelled. *)
Definition int_of_digits (s : string) : Z := Str.digits_value 0 s.

End Lit.

(** ** Regular expressions *)

Module Re.

Inductive item : Type :=
| Begin                                  (* ^ *)
| Finish                                 (* $ *)
| Chr (p : ascii -> bool)                (* one character of a class *)
| Rep (p : ascii -> bool) (min : nat)    (* greedy repetition, min or more *)
| Open (g : nat)                         (* ( of group g *)
| Close (g : nat).                       (* ) of group g *)

Definition regex : Type := list item.

(** Where the groups opened and closed so far start and end. *)
Record caps : Type := mkCaps {
  opened : list (nat * nat);
  closed : list (nat * (nat * nat))
}.

Definition no_caps : caps := mkCaps [] [].

Fixpoint lookup {A : Type} (g : nat) (l : list (nat * A)) : option A :=
  match l with
  | [] => None
  | (k, v) :: l' => if Nat.eqb k g then Some v else lookup g l'
  end.

Definition open_group (g pos : nat) (c : caps) : caps :=
  mkCaps ((g, pos) :: opened c) (closed c).

Definition close_group (g pos : nat) (c : caps) : caps :=
  match lookup g (opened c) with
  | Some start => mkCaps (opened c) ((g, (start, pos)) :: closed c)
  | None => c
  end.

(** [$]: the end of the text, or just before a final newline. *)
Definition at_end (s : string) : bool :=
  match s with
  | EmptyString => true
  | String c EmptyString => (Str.code c =? 10)%N
  | _ => false
  end.

(** Greedy repetition: take characters of [p] while they last, then give
    them back one at a time until the rest of the pattern [k] matches. *)
Fixpoint greedy (p : ascii -> bool) (min : nat)
    (k : string -> nat -> option caps)
    (s : string) (pos taken : nat) : option caps :=
  let stop := if Nat.leb min taken then k s pos else None in
  match s with
  | String a s' =>
      if p a then
        match greedy p min k s' (S pos) (S taken) with
        | Some c => Some c
        | None => stop
        end
      else stop
  | EmptyString => stop
  end.

(** Match [r] against [s], the suffix of the text that starts at [pos]. *)
Fixpoint run (r : regex) (s : string) (pos : nat) (c : caps) : option caps :=
  match r with
  | [] => Some c
  | Begin :: r' => if Nat.eqb pos 0 then run r' s pos c else None
  | Finish :: r' => if at_end s then run r' s pos c else None
  | Chr p :: r' =>
      match s with
      | String a s' => if p a then run r' s' (S pos) c else None
      | EmptyString => None
      end
  | Rep p min :: r' => greedy p min (fun s' pos' => run r' s' pos' c) s pos 0
  | Open g :: r' => run r' s pos (open_group g pos c)
  | Close g :: r' => run r' s pos (close_group g pos c)
  end.

(** [re.match(r, text)] *)
Definition match_ (r : regex) (text : string) : option caps :=
  run r text 0 no_caps.

Fixpoint search_from (r : regex) (s : string) (pos : nat) : option caps :=
  match run r s pos no_caps with
  | Some c => Some c
  | None =>
      match s with
      | String _ s' => search_from r s' (S pos)
      | EmptyString => None
      end
  end.

(** [re.search(r, text)] *)
Definition search (r : regex) (text : string) : option caps :=
  search_from r text 0.

(** [m.group(g)] *)
Definition group (text : string) (c : caps) (g : nat) : string :=
  match lookup g (closed c) with
  | Some (a, b) => String.substring a (b - a) text
  | None => EmptyString
  end.

Definition one (c : ascii) : ascii -> bool := fun a => Ascii.eqb a c.

(** A letter under [re.IGNORECASE]. *)
Definition ci (c : ascii) : ascii -> bool :=
  fun a => Ascii.eqb (Str.lower_char a) c.

Definition other (c : ascii) : ascii -> bool := fun a => negb (Ascii.eqb a c).

End Re.

(** ** conversions.py *)

(** [TO_CUPS]: volume units to cups.  The source writes the factor of a cup
    as the [int] 1, which a product with a float converts to 1.0. *)
Definition TO_CUPS : list (string * Float.float) :=
  [ ("cup", Float.of_Z 1); ("cups", Float.of_Z 1);
    ("tbsp", Float.div_Z 1 16); ("tablespoon", Float.div_Z 1 16);
    ("tablespoons", Float.div_Z 1 16);
    ("tsp", Float.div_Z 1 48); ("teaspoon", Float.div_Z 1 48);
    ("teaspoons", Float.div_Z 1 48) ].

(** [UNICODE_FRACTIONS], in the order of the dictionary. *)
Definition UNICODE_FRACTIONS : list (string * Float.float) :=
  [ ("¼", Float.of_decimal 25 (-2)); ("½", Float.of_decimal 5 (-1));
    ("¾", Float.of_decimal 75 (-2));
    ("⅓", Float.div_Z 1 3); ("⅔", Float.div_Z 2 3);
    ("⅛", Float.of_decimal 125 (-3)); ("⅜", Float.of_decimal 375 (-3));
    ("⅝", Float.of_decimal 625 (-3)); ("⅞", Float.of_decimal 875 (-3)) ].

(** [DISPLAY_FRACTIONS], in the order of the list. *)
Definition DISPLAY_FRACTIONS : list (Float.float * string) :=
  [ (Float.of_decimal 25 (-2), "¼"); (Float.div_Z 1 3, "⅓");
    (Float.of_decimal 5 (-1), "½");
    (Float.div_Z 2 3, "⅔"); (Float.of_decimal 75 (-2), "¾");
    (Float.of_decimal 125 (-3), "⅛"); (Float.of_decimal 375 (-3), "⅜");
    (Float.of_decimal 625 (-3), "⅝"); (Float.of_decimal 875 (-3), "⅞") ].

(** [dict.get] *)
Fixpoint get {A : Type} (d : list (string * A)) (k : string) : option A :=
  match d with
  | [] => None
  | (k', v) :: d' => if String.eqb k' k then Some v else get d' k
  end.

(** [^(\d+)\s+(\d+)/(\d+)$] *)
Definition rx_mixed : Re.regex :=
  [ Re.Begin; Re.Open 1; Re.Rep Str.is_digit 1; Re.Close 1;
    Re.Rep Str.is_space 1;
    Re.Open 2; Re.Rep Str.is_digit 1; Re.Close 2;
    Re.Chr (Re.one "/");
    Re.Open 3; Re.Rep Str.is_digit 1; Re.Close 3; Re.Finish ].

(** [^(\d+)/(\d+)$] *)
Definition rx_simple : Re.regex :=
  [ Re.Begin; Re.Open 1; Re.Rep Str.is_digit 1; Re.Close 1;
    Re.Chr (Re.one "/");
    Re.Open 2; Re.Rep Str.is_digit 1; Re.Close 2; Re.Finish ].

(** The loop over [UNICODE_FRACTIONS.items()]: [None] when it ends without
    returning, [Some r] when it returns or raises at the first glyph found
    in the text. *)
Fixpoint glyph_loop (items : list (string * Float.float)) (text : string)
    : option (result Float.float) :=
  match items with
  | [] => None
  | (uf, val) :: rest =>
      if Str.contains uf text then
        let text := Str.remove uf text in
        Some (base <- (if Str.is_empty (Str.strip text) then Num.float_of_int 0
                       else Lit.float_of_str (Str.strip text)) ;;
              Ok (Float.add base val))
      else glyph_loop rest text
  end.

(** [parse_fraction(text)], lines 28-53.  The trimmed text goes through
    the glyph loop, then [re.match] with the mixed and the simple form,
    each returning [int(..) + int(..) / int(..)] or [int(..) / int(..)];
    the quotient is computed before the sum.  Last comes
    [try: return float(text)  except ValueError: return None]. *)
Definition parse_fraction (text : string) : result (option Float.float) :=
  let text := Str.strip text in
  match glyph_loop UNICODE_FRACTIONS text with
  | Some r => x <- r ;; Ok (Some x)
  | None =>
      match Re.match_ rx_mixed text with
      | Some m =>
          q <- Num.int_truediv (Lit.int_of_digits (Re.group text m 2))
                               (Lit.int_of_digits (Re.group text m 3)) ;;
          w <- Num.float_of_int (Lit.int_of_digits (Re.group text m 1)) ;;
          Ok (Some (Float.add w q))
      | None =>
          match Re.match_ rx_simple text with
          | Some m =>
              q <- Num.int_truediv (Lit.int_of_digits (Re.group text m 1))
                                   (Lit.int_of_digits (Re.group text m 2)) ;;
              Ok (Some q)
          | None =>
              match Lit.float_of_str text with
              | Ok x => Ok (Some x)
              | Raise ValueError => Ok None
              | Raise e => Raise e
              end
          end
      end
  end.

Definition range_class (c : ascii) : bool :=
  Str.is_digit c || Re.one "." c || Re.one "/" c || Str.is_space c.

(** [^([\d./\s]+)\s+to\s+([\d./\s]+)$] *)
Definition rx_range : Re.regex :=
  [ Re.Begin; Re.Open 1; Re.Rep range_class 1; Re.Close 1;
    Re.Rep Str.is_space 1; Re.Chr (Re.one "t"); Re.Chr (Re.one "o");
    Re.Rep Str.is_space 1;
    Re.Open 2; Re.Rep range_class 1; Re.Close 2; Re.Finish ].

(** [parse_range(text)], lines 56-65: [(lo + hi) / 2] when the trimmed text
    matches the range form and [lo is not None and hi is not None],
    [parse_fraction(text)] otherwise. *)
Definition parse_range (text : string) : result (option Float.float) :=
  let text := Str.strip text in
  match Re.match_ rx_range text with
  | Some m =>
      lo <- parse_fraction (Re.group text m 1) ;;
      hi <- parse_fraction (Re.group text m 2) ;;
      match lo, hi with
      | Some lo, Some hi =>
          two <- Num.float_of_int 2 ;;
          mean <- Num.float_truediv (Float.add lo hi) two ;;
          Ok (Some mean)
      | _, _ => parse_fraction text
      end
  | None => parse_fraction text
  end.

(** [f"{x:.1f}"] *)
Definition format_1f (x : Float.float) : string :=
  let minus (s : bool) := if s then "-" else "" in
  match x with
  | S754_nan => "nan"
  | S754_infinity s => minus s ++ "inf"
  | S754_zero s => minus s ++ "0.0"
  | S754_finite s m e =>
      let t := Float.tenths m e in
      minus s ++ Str.of_Z (t / 10) ++ "." ++ Str.of_Z (t mod 10)
  end.

Definition tolerance : Float.float := Float.of_decimal 5 (-2).

(** [abs(frac - val) < 0.05] *)
Definition within_tolerance (frac val : Float.float) : bool :=
  Float.ltb (Float.abs (Float.sub frac val)) tolerance.

(** The loop over [DISPLAY_FRACTIONS]: the symbol of the first entry within
    tolerance of [frac], [None] when the loop ends without returning. *)
Fixpoint display_loop (items : list (Float.float * string)) (frac : Float.float)
    : option string :=
  match items with
  | [] => None
  | (val, symbol) :: rest =>
      if within_tolerance frac val then Some symbol
      else display_loop rest frac
  end.

(** [f"{base} {symbol}" if base else symbol] *)
Definition render (base : Z) (symbol : string) : string :=
  if base =? 0 then symbol else Str.of_Z base ++ " " ++ symbol.

(** [format_amount(n)], lines 68-82: [if n == int(n): return str(int(n))],
    then [base = int(n)], [frac = n - base], the loop over the display
    fractions, and the fallback
    [f"{n:.1f}" if n % 1 != 0 else str(int(n))]. *)
Definition format_amount (n : option Float.float) : result string :=
  match n with
  | None => Ok ""
  | Some n =>
      i <- Num.int_of_float n ;;
      if Float.eqb_Z n i then Ok (Str.of_Z i)
      else
        base <- Num.int_of_float n ;;
        b <- Num.float_of_int base ;;
        let frac := Float.sub n b in
        match display_loop DISPLAY_FRACTIONS frac with
        | Some symbol =>
            Ok (render base symbol)
        | None =>
            one <- Num.float_of_int 1 ;;
            r <- Num.float_mod n one ;;
            if negb (Float.eqb r (Float.of_Z 0)) then Ok (format_1f n)
            else i <- Num.int_of_float n ;; Ok (Str.of_Z i)
        end
  end.

(** [unit.lower() if unit else ""] *)
Definition unit_lower (unit : option string) : string :=
  match unit with
  | Some u => if Str.is_empty u then "" else Str.lower u
  | None => ""
  end.

(** [to_weight(amount, unit, grams_per_cup)], lines 85-93:
    [round(amount * factor * grams_per_cup)] with [factor =
    TO_CUPS.get(unit_lower)]. *)
Definition to_weight (amount : option Float.float) (unit : option string)
    (grams_per_cup : option Float.float) : result (option Z) :=
  match amount, grams_per_cup with
  | Some amount, Some grams_per_cup =>
      match get TO_CUPS (unit_lower unit) with
      | None => Ok None
      | Some factor =>
          g <- Num.round (Float.mul (Float.mul amount factor) grams_per_cup) ;;
          Ok (Some g)
      end
  | _, _ => Ok None
  end.

(** [normalize_to_grams_per_cup(volume_amount, volume_unit, grams)], lines
    96-107: [cups = volume_amount * factor], [None] when [cups == 0],
    [round(grams / cups, 1)] otherwise. *)
Definition normalize_to_grams_per_cup (volume_amount : option Float.float)
    (volume_unit : option string) (grams : option Float.float)
    : result (option Float.float) :=
  match volume_amount, grams with
  | Some volume_amount, Some grams =>
      match get TO_CUPS (unit_lower volume_unit) with
      | None => Ok None
      | Some factor =>
          let cups := Float.mul volume_amount factor in
          if Float.eqb_Z cups 0 then Ok None
          else
            q <- Num.float_truediv grams cups ;;
            Ok (Some (Float.round1 q))
      end
  | _, _ => Ok None
  end.

(** U+00AD, the soft hyphen. *)
Definition soft_hyphen : string :=
  String (ascii_of_N 194) (String (ascii_of_N 173) EmptyString).

(** The pattern [\( ( [^)]+ cup [^)]* ) \)] (written here with spaces) under [re.IGNORECASE]. *)
Definition rx_paren : Re.regex :=
  [ Re.Chr (Re.one "("); Re.Open 1; Re.Rep (Re.other ")") 1;
    Re.Chr (Re.ci "c"); Re.Chr (Re.ci "u"); Re.Chr (Re.ci "p");
    Re.Rep (Re.other ")") 0; Re.Close 1; Re.Chr (Re.one ")") ].

Definition amount_class (c : ascii) : bool :=
  Str.is_digit c || Str.is_space c || Re.one "/" c.

(** [^([\d\s/]+)\s*(cup)] with [re.IGNORECASE] *)
Definition rx_amount : Re.regex :=
  [ Re.Begin; Re.Open 1; Re.Rep amount_class 1; Re.Close 1;
    Re.Rep Str.is_space 0;
    Re.Open 2; Re.Chr (Re.ci "c"); Re.Chr (Re.ci "u"); Re.Chr (Re.ci "p");
    Re.Close 2 ].

Definition standard_class (c : ascii) : bool :=
  Str.is_digit c || Str.is_space c || Re.one "/" c || Re.one "." c.

(** [^([\d\s/.]+)\s+(\w+)] *)
Definition rx_standard : Re.regex :=
  [ Re.Begin; Re.Open 1; Re.Rep standard_class 1; Re.Close 1;
    Re.Rep Str.is_space 1;
    Re.Open 2; Re.Rep Str.is_word 1; Re.Close 2 ].

(** The chain [if unit in ("tablespoon", "tablespoons"): ... elif ...]. *)
Definition normalize_unit (unit : string) : string :=
  if String.eqb unit "tablespoon" || String.eqb unit "tablespoons" then "tablespoons"
  else if String.eqb unit "teaspoon" || String.eqb unit "teaspoons" then "teaspoons"
  else if String.eqb unit "cup" || String.eqb unit "cups" then "cup"
  else unit.

(** The second half of [parse_volume_text]: the standard form. *)
Definition parse_standard (text : string)
    : result (option Float.float * option string) :=
  match Re.match_ rx_standard text with
  | Some m =>
      amt <- parse_fraction (Re.group text m 1) ;;
      let unit := Str.lower (Re.group text m 2) in
      Ok (amt, Some (normalize_unit unit))
  | None => Ok (None, None)
  end.

(** [parse_volume_text(text)], lines 110-139: the soft hyphens are removed
    and the text trimmed; the parenthetical cup is returned when
    [re.search] finds it, its trimmed content matches the amount form and
    [amt is not None]; everything else falls through to the standard
    form. *)
Definition parse_volume_text (text : string)
    : result (option Float.float * option string) :=
  let text := Str.strip (Str.remove soft_hyphen text) in
  match Re.search rx_paren text with
  | Some paren_match =>
      let inner := Str.strip (Re.group text paren_match 1) in
      match Re.match_ rx_amount inner with
      | Some amount_match =>
          amt <- parse_fraction (Re.group inner amount_match 1) ;;
          match amt with
          | Some amt => Ok (Some amt, Some "cup")
          | None => parse_standard text
          end
      | None => parse_standard text
      end
  | None => parse_standard text
  end.


(** ** The tables as the specification words them *)

Definition member (k : string) (l : list string) : bool :=
  existsb (String.eqb k) l.

(** The volume-to-cups table of the specification: cup, cups: 1; tbsp,
    tablespoon, tablespoons: 1/16; tsp, teaspoon, teaspoons: 1/48. *)
Definition cups_per_unit (u : string) : option Float.float :=
  if member u ["cup"; "cups"] then Some (Float.of_Z 1)
  else if member u ["tbsp"; "tablespoon"; "tablespoons"] then Some (Float.div_Z 1 16)
  else if member u ["tsp"; "teaspoon"; "teaspoons"] then Some (Float.div_Z 1 48)
  else None.

(** The arithmetic mean [(lo + hi) / 2]. *)
Definition mean (lo hi : Float.float) : Float.float :=
  Float.div (Float.add lo hi) (Float.of_Z 2).

(** The first rule of [parse_fraction] as the specification words it: strip
    the glyph, parse the remaining text as an integer whole part (0 if
    empty), return whole + the glyph's value; a remainder that is no
    integer is unparsable. *)
Definition whole_part (r : string) : option Z :=
  if Str.is_empty r then Some 0
  else if Str.all Str.is_digit r then Some (Lit.int_of_digits r)
  else None.

Definition glyph_rule_spec (uf : string) (val : Float.float) (text : string)
    : option Float.float :=
  match whole_part (Str.strip (Str.remove uf (Str.strip text))) with
  | Some w => Some (Float.add (Float.of_Z w) val)
  | None => None
  end.

(** ** Predicates of the statements *)

(** A character other than the minus sign. *)
Definition not_minus (c : ascii) : bool := negb (Ascii.eqb c "-").

(** A float that is NaN or whose sign bit is clear. *)
Definition nonneg_or_nan (x : Float.float) : bool :=
  match x with
  | S754_nan => true
  | _ => negb (Float.sign_bit x)
  end.

(** The head of [s] is not in the class [p]: a greedy run stops there. *)
Definition stops (p : ascii -> bool) (s : string) : Prop :=
  match s with
  | EmptyString => True
  | String a _ => p a = false
  end.

(** The captures of [rx_paren] when it matches at [pos] a clause whose body
    has [n] characters. *)
Definition paren_caps (pos n : nat) : Re.caps :=
  Re.close_group 1 (S pos + n) (Re.open_group 1 (S pos) Re.no_caps).

(** A digit or a slash. *)
Definition plain (c : ascii) : bool := Str.is_digit c || Re.one "/" c.

(** The display fractions but for three and five eighths. *)
Definition sevenths : list (Float.float * string) :=
  [ (Float.of_decimal 25 (-2), "¼"); (Float.div_Z 1 3, "⅓");
    (Float.of_decimal 5 (-1), "½");
    (Float.div_Z 2 3, "⅔"); (Float.of_decimal 75 (-2), "¾");
    (Float.of_decimal 125 (-3), "⅛"); (Float.of_decimal 875 (-3), "⅞") ].

(** [format_amount(n + val)] renders the symbol of the entry after [n]. *)
Definition round_trips (n : Z) (entry : Float.float * string) : bool :=
  match format_amount (Some (Float.add (Float.of_Z n) (fst entry))) with
  | Ok s => String.eqb s (render n (snd entry))
  | Raise _ => false
  end.

(** ** More of Python's strings, for app.py *)

Module Text.

(** [s.replace(old, new)] for a non-empty [old]: every occurrence, found
    from the left and not overlapping, is replaced.  [skip] counts the
    characters of the occurrence being replaced. *)
Fixpoint replace_from (old new s : string) (skip : nat) : string :=
  match s with
  | EmptyString => EmptyString
  | String c s' =>
      match skip with
      | S k => replace_from old new s' k
      | O =>
          if Str.startswith old s
          then new ++ replace_from old new s' (Nat.pred (String.length old))
          else String c (replace_from old new s' 0)
      end
  end.

Definition replace (old new s : string) : string := replace_from old new s 0.

(** [s.split(sep)] for a non-empty [sep]: the pieces between the
    occurrences of [sep], found from the left and not overlapping; one
    piece at least. *)
Fixpoint split_from (sep s : string) (skip : nat) : list string :=
  match s with
  | EmptyString => [EmptyString]
  | String c s' =>
      match skip with
      | S k => split_from sep s' k
      | O =>
          if Str.startswith sep s
          then EmptyString :: split_from sep s' (Nat.pred (String.length sep))
          else
            match split_from sep s' 0 with
            | piece :: rest => String c piece :: rest
            | [] => [String c EmptyString]
            end
      end
  end.

Definition split (sep s : string) : list string := split_from sep s 0.

(** [sep.join(l)] *)
Definition join (sep : string) (l : list string) : string := String.concat sep l.

(** The text before and the text after the last [sep] of [s], if there is
    one. *)
Fixpoint rpartition (sep : ascii) (s : string) : option (string * string) :=
  match s with
  | EmptyString => None
  | String c s' =>
      match rpartition sep s' with
      | Some (a, b) => Some (String c a, b)
      | None => if Ascii.eqb c sep then Some (EmptyString, s') else None
      end
  end.

(** [s.rsplit(sep, 1)] for a separator of one character. *)
Definition rsplit1 (sep : ascii) (s : string) : list string :=
  match rpartition sep s with
  | Some (a, b) => [a; b]
  | None => [s]
  end.

(** [s.endswith(c)] for one character. *)
Fixpoint endswith_char (c : ascii) (s : string) : bool :=
  match s with
  | EmptyString => false
  | String a EmptyString => Ascii.eqb a c
  | String _ s' => endswith_char c s'
  end.

(** [int(s)] on a text: white space around, a sign, digits with single
    underscores between them.  As for [int_of_digits], the interpreter's
    limit on the number of digits is not modelled. *)
Definition int_of_str (s : string) : result Z :=
  let s := Str.strip_with Str.is_c_space s in
  if Lit.underscores_ok None s then
    let '(neg, body) := Lit.sign (Str.remove "_" s) in
    if negb (Str.is_empty body) && Str.all Str.is_digit body
    then Ok (cond_Zopp neg (Str.digits_value 0 body))
    else Raise ValueError
  else Raise ValueError.

End Text.

(** ** Indexing a list *)

Module Ix.

(** The outcome of code whose only exception is that of [l[i]]. *)
Inductive result (A : Type) : Type :=
| Ok (a : A)
| IndexError.

Arguments Ok {A} a.
Arguments IndexError {A}.

Definition bind {A B : Type} (r : result A) (k : A -> result B) : result B :=
  match r with
  | Ok a => k a
  | IndexError => IndexError
  end.

(** [l[i]] for [i >= 0]. *)
Definition item {A : Type} (l : list A) (i : nat) : result A :=
  match nth_error l i with
  | Some a => Ok a
  | None => IndexError
  end.

End Ix.

(** ** posixpath *)

Module Path.

(** One round of the loop of [os.path.join]. *)
Definition join_step (path b : string) : string :=
  if Str.startswith "/" b then b
  else if Str.is_empty path || Text.endswith_char "/" path then path ++ b
  else path ++ "/" ++ b.

(** [os.path.join(a, *p)] *)
Definition join (a : string) (p : list string) : string :=
  fold_left join_step p a.

(** [os.path.dirname(p)]: the head up to the last slash, without its
    trailing slashes unless it consists of slashes only. *)
Definition dirname (p : string) : string :=
  let head :=
    match Text.rpartition "/" p with
    | Some (a, _) => a ++ "/"
    | None => EmptyString
    end in
  if negb (Str.is_empty head) && negb (Str.all (Re.one "/") head)
  then Str.rstrip_with (Re.one "/") head
  else head.

End Path.

(** ** app.py *)

Definition ALLOWED_EXTENSIONS : list string :=
  ["png"; "jpg"; "jpeg"; "gif"; "webp"].

(** [_allowed_file(filename)], lines 187-188:
    ["." in filename and filename.rsplit(".", 1)[1].lower() in
    ALLOWED_EXTENSIONS]. *)
Definition _allowed_file (filename : string) : Ix.result bool :=
  if Str.contains "." filename then
    Ix.bind (Ix.item (Text.rsplit1 "." filename) 1)
            (fun ext => Ix.Ok (member (Str.lower ext) ALLOWED_EXTENSIONS))
  else Ix.Ok false.

(** An uploaded file: its name as the client sent it and its content. *)
Record upload : Type := mkUpload {
  upload_filename : string;
  upload_content : string
}.

(** What [_save_image] asks of the file system. *)
Inductive fs_call : Type :=
| MakeDirs (path : string)                 (* os.makedirs(path, exist_ok=True) *)
| Save (path : string) (content : string). (* file.save(path) *)

(** How a call of [_save_image] ends: it returns a path after the calls
    [done], it raises [IndexError], or the call [failed] raises (an
    [OSError], or whatever the file system raises) after the calls [done]
    and its exception leaves the function, which catches nothing. *)
Inductive save_outcome : Type :=
| Returned (done : list fs_call) (path : string)
| RaisedIndexError
| RaisedBy (done : list fs_call) (failed : fs_call).

(** [_save_image(file, recipe_id)], lines 191-198.  [static_folder] is
    [app.static_folder] and [now] the value of [int(time.time())].  The
    file system is the parameter [succeeds]: whether a call goes through
    after the calls made before it. *)
Definition _save_image (succeeds : list fs_call -> fs_call -> bool)
    (static_folder : string) (now : Z) (file : upload) (recipe_id : Z)
    : save_outcome :=
  match Ix.item (Text.rsplit1 "." (upload_filename file)) 1 with
  | Ix.IndexError => RaisedIndexError
  | Ix.Ok ext =>
      let ext := Str.lower ext in
      let filename := Str.of_Z recipe_id ++ "_" ++ Str.of_Z now ++ "." ++ ext in
      let filepath := Path.join static_folder ["images"; filename] in
      let makedirs := MakeDirs (Path.dirname filepath) in
      let save := Save filepath (upload_content file) in
      if succeeds [] makedirs then
        if succeeds [makedirs] save
        then Returned [makedirs; save] ("static/images/" ++ filename)
        else RaisedBy [makedirs] save
      else RaisedBy [] makedirs
  end.

(** A number of the form: the [int] 0 or a float. *)
Inductive number : Type :=
| Int (z : Z)
| Flt (x : Float.float).

(** An entry of the list [ingredients]. *)
Record ingredient : Type := mkIngredient {
  ing_name : string;
  ing_amount : number;
  ing_unit : string
}.

(** [request.form] as [_parse_recipe_form] reads it: [get] gives [None] for
    a field that was not sent, [getlist] the values sent in order. *)
Record recipe_form : Type := mkForm {
  form_title : option string;
  form_servings : option string;
  form_tags : option string;
  form_source_url : option string;
  form_instructions : option string;
  form_ing_names : list string;
  form_ing_amounts : list string;
  form_ing_units : list string
}.

(** The tuple that [_parse_recipe_form] returns. *)
Record recipe_fields : Type := mkFields {
  title : string;
  servings : Z;
  tags : string;
  source_url : option string;
  steps : list string;
  ingredients : list ingredient
}.

(** [request.form.get(key, default)] with the empty text as default. *)
Definition or_empty (v : option string) : string :=
  match v with
  | Some s => s
  | None => EmptyString
  end.

(** [instructions_text.replace("\r\n", "\n").replace("\r", "\n")] *)
Definition unix_newlines (s : string) : string :=
  Text.replace (String (ascii_of_N 13) EmptyString) (String (ascii_of_N 10) EmptyString)
    (Text.replace (String (ascii_of_N 13) (String (ascii_of_N 10) EmptyString))
                  (String (ascii_of_N 10) EmptyString) s).

(** The separator ["\n\n"]. *)
Definition blank_line : string :=
  String (ascii_of_N 10) (String (ascii_of_N 10) EmptyString).

(** [[s.strip() for s in text.split("\n\n") if s.strip()]] *)
Definition nonblank_pieces (text : string) : list string :=
  map Str.strip
      (filter (fun s => negb (Str.is_empty (Str.strip s)))
              (Text.split blank_line text)).

(** The steps of the field [instructions], lines 207-209. *)
Definition parse_steps (instructions : option string) : list string :=
  nonblank_pieces (unix_newlines (Str.strip (or_empty instructions))).

(** The loop over [zip(names, amounts, units)], lines 215-223:
    a row with a blank name is skipped, an amount that is empty or no
    number counts as 0. *)
Fixpoint ingredient_loop (rows : list (string * (string * string)))
    : result (list ingredient) :=
  match rows with
  | [] => Ok []
  | (name, (amount, unit)) :: rest =>
      let name := Str.strip name in
      if Str.is_empty name then ingredient_loop rest
      else
        amt <- (if Str.is_empty amount then Ok (Int 0)
                else match Lit.float_of_str amount with
                     | Ok x => Ok (Flt x)
                     | Raise ValueError => Ok (Int 0)
                     | Raise e => Raise e
                     end) ;;
        more <- ingredient_loop rest ;;
        Ok (mkIngredient name amt unit :: more)
  end.

(** [_parse_recipe_form()], lines 201-225. *)
Definition _parse_recipe_form (form : recipe_form) : result recipe_fields :=
  let title := Str.strip (or_empty (form_title form)) in
  servings <- match form_servings form with
              | Some s => if Str.is_empty s then Ok 4 else Text.int_of_str s
              | None => Ok 4
              end ;;
  let tags := Str.strip (or_empty (form_tags form)) in
  let source_url :=
    let u := Str.strip (or_empty (form_source_url form)) in
    if Str.is_empty u then None else Some u in
  let steps := parse_steps (form_instructions form) in
  ingredients <- ingredient_loop
                   (combine (form_ing_names form)
                            (combine (form_ing_amounts form) (form_ing_units form))) ;;
  Ok (mkFields title servings tags source_url steps ingredients).

(** [steps_text = "\n\n".join(...)], line 284 of [recipe_edit]: the text
    the edit form shows for the stored steps. *)
Definition steps_text (steps : list string) : string :=
  Text.join blank_line steps.

(** [_parse_float(val)], lines 400-406. *)
Definition _parse_float (val : option string) : result (option Float.float) :=
  match val with
  | None => Ok None
  | Some s =>
      if Str.is_empty s then Ok None
      else match Lit.float_of_str s with
           | Ok x => Ok (Some x)
           | Raise ValueError => Ok None
           | Raise e => Raise e
           end
  end.

(** The truth value of an optional float: [None] and both zeros are
    false, NaN is true. *)
Definition truthy (x : option Float.float) : bool :=
  match x with
  | Some x => negb (Float.is_zero x)
  | None => false
  end.

(** The density that [ingredients_page] (lines 350-358) and
    [edit_ingredient] (lines 383-391) store, from the fields
    [volume_amount], [volume_unit] and [grams] of the form:
    [if volume_amount and volume_unit and grams:
       grams_per_cup = normalize_to_grams_per_cup(...)]. *)
Definition form_grams_per_cup (volume_amount volume_unit grams : option string)
    : result (option Float.float) :=
  volume_amount <- _parse_float volume_amount ;;
  let volume_unit := match volume_unit with Some u => u | None => "cup" end in
  grams <- _parse_float grams ;;
  if truthy volume_amount && negb (Str.is_empty volume_unit) && truthy grams
  then normalize_to_grams_per_cup volume_amount (Some volume_unit) grams
  else Ok None.

(** *** The shopping list *)

(** A row of [get_recipe_ingredients]: the columns the shopping list reads.
    The name is a text and the amount a float, as the column types REAL and
    TEXT deliver them; the other columns may be NULL. *)
Record recipe_ingredient : Type := mkRecipeIngredient {
  ri_name : string;
  ri_amount : Float.float;
  ri_unit : option string;
  ri_grams_per_cup : option Float.float;
  ri_unit_type : option string;
  ri_avg_weight_grams : option Float.float
}.

(** An entry of the dictionary [merged], after the [+=] that follows its
    creation. *)
Record merged_item : Type := mkMerged {
  m_name : string;
  m_amount : Float.float;
  m_unit : option string;
  m_grams_per_cup : option Float.float;
  m_unit_type : option string;
  m_avg_weight_grams : option Float.float
}.

(** [d[k] = v]: the value of a key is replaced where it stands, a new key
    comes last. *)
Fixpoint put {A : Type} (d : list (string * A)) (k : string) (v : A)
    : list (string * A) :=
  match d with
  | [] => [(k, v)]
  | (k', v') :: d' =>
      if String.eqb k' k then (k', v) :: d' else (k', v') :: put d' k v
  end.

(** The body of the inner loop, lines 149-159: the entry of the lowercased
    name is created from the row if it is missing, then
    [merged[key]["amount"] += ing["amount"] * qty]. *)
Definition merge_row (qty : Z) (merged : list (string * merged_item))
    (ing : recipe_ingredient) : result (list (string * merged_item)) :=
  let key := Str.lower (ri_name ing) in
  let entry :=
    match get merged key with
    | Some e => Ok e
    | None =>
        zero <- Num.float_of_int 0 ;;
        Ok (mkMerged (ri_name ing) zero (ri_unit ing) (ri_grams_per_cup ing)
                     (ri_unit_type ing) (ri_avg_weight_grams ing))
    end in
  e <- entry ;;
  q <- Num.float_of_int qty ;;
  Ok (put merged key
          (mkMerged (m_name e) (Float.add (m_amount e) (Float.mul (ri_amount ing) q))
                    (m_unit e) (m_grams_per_cup e) (m_unit_type e)
                    (m_avg_weight_grams e))).

Fixpoint merge_rows (qty : Z) (rows : list recipe_ingredient)
    (merged : list (string * merged_item)) : result (list (string * merged_item)) :=
  match rows with
  | [] => Ok merged
  | ing :: rest =>
      merged <- merge_row qty merged ing ;;
      merge_rows qty rest merged
  end.

(** The loop over [plan.items()], lines 143-159.  [db] gives the rows of a
    recipe ([get_recipe_ingredients]); the quantities of the plan are
    integers. *)
Fixpoint merge_plan (db : Z -> list recipe_ingredient) (plan : list (string * Z))
    (merged : list (string * merged_item)) : result (list (string * merged_item)) :=
  match plan with
  | [] => Ok merged
  | (recipe_id_str, qty) :: rest =>
      if qty <=? 0 then merge_plan db rest merged
      else
        recipe_id <- Text.int_of_str recipe_id_str ;;
        merged <- merge_rows qty (db recipe_id) merged ;;
        merge_plan db rest merged
  end.

(** [sorted(l, key=key)]: a stable sort by insertion. *)
Fixpoint insert_by {A : Type} (key : A -> string) (x : A) (l : list A) : list A :=
  match l with
  | [] => [x]
  | y :: l' =>
      if String.leb (key x) (key y) then x :: l else y :: insert_by key x l'
  end.

Definition sorted_by {A : Type} (key : A -> string) (l : list A) : list A :=
  fold_right (insert_by key) [] l.

(** [f"{x}"] for a text or [None]. *)
Definition str_of (x : option string) : string :=
  match x with
  | Some s => s
  | None => "None"
  end.

(** [f"{format_amount(amount)} {unit}"] *)
Definition volume_display (amount : Float.float) (unit : option string)
    : result string :=
  s <- format_amount (Some amount) ;;
  Ok (s ++ " " ++ str_of unit).

(** The display of an item, lines 165-177. *)
Definition item_display (unit_mode : string) (item : merged_item) : result string :=
  let is_count :=
    match m_unit_type item with
    | Some t => String.eqb t "count"
    | None => false
    end in
  if String.eqb unit_mode "weight" then
    if is_count && truthy (m_avg_weight_grams item) then
      match m_avg_weight_grams item with
      | Some w =>
          g <- Num.round (Float.mul (m_amount item) w) ;;
          Ok (Str.of_Z g ++ " g")
      | None => volume_display (m_amount item) (m_unit item)
      end
    else if truthy (m_grams_per_cup item) then
      grams <- to_weight (Some (m_amount item)) (m_unit item)
                         (m_grams_per_cup item) ;;
      match grams with
      | Some g => Ok (Str.of_Z g ++ " g")
      | None => volume_display (m_amount item) (m_unit item)
      end
    else volume_display (m_amount item) (m_unit item)
  else volume_display (m_amount item) (m_unit item).

Fixpoint display_items (unit_mode : string) (items : list merged_item)
    : result (list (string * string)) :=
  match items with
  | [] => Ok []
  | item :: rest =>
      display <- item_display unit_mode item ;;
      more <- display_items unit_mode rest ;;
      Ok ((m_name item, display) :: more)
  end.

(** [api_shopping_list()], lines 135-181, on the [plan] and the [unit] of
    the request: the items of the answer, each with its name and display. *)
Definition api_shopping_list (db : Z -> list recipe_ingredient)
    (plan : list (string * Z)) (unit_mode : string)
    : result (list (string * string)) :=
  merged <- merge_plan db plan [] ;;
  display_items unit_mode
    (sorted_by (fun item => Str.lower (m_name item)) (map snd merged)).

(** ** seed_king_arthur.py *)

(** The dictionary that [parse_html] yields for a row. *)
Record chart_row : Type := mkRow {
  row_name : string;
  row_volume_amount : option Float.float;
  row_volume_unit : option string;
  row_ounces : option Float.float;
  row_grams : option Float.float;
  row_grams_per_cup : option Float.float
}.

(** The body of the loop of [parse_html], lines 34-64, on the texts of the
    four cells of a row. *)
Definition parse_row (name volume_text ounces_text grams_text : string)
    : result chart_row :=
  let name := Str.remove soft_hyphen name in
  let volume_text := Str.remove soft_hyphen volume_text in
  volume <- parse_volume_text volume_text ;;
  let '(volume_amount, volume_unit) := volume in
  ounces <- parse_range ounces_text ;;
  grams <- parse_range grams_text ;;
  grams_per_cup <-
    (if truthy volume_amount
        && match volume_unit with Some u => negb (Str.is_empty u) | None => false end
        && truthy grams
     then normalize_to_grams_per_cup volume_amount volume_unit grams
     else Ok None) ;;
  Ok (mkRow name volume_amount volume_unit ounces grams grams_per_cup).

(** ** More predicates of the statements *)

(** [to_weight] gives back the grams that [normalize_to_grams_per_cup]
    turned into a density, for [k] quarters of the unit [u]. *)
Definition density_round_trips (u : string) (k g : Z) : bool :=
  let v := Float.div_Z k 4 in
  match normalize_to_grams_per_cup (Some v) (Some u) (Some (Float.of_Z g)) with
  | Ok (Some d) =>
      match to_weight (Some v) (Some u) (Some d) with
      | Ok (Some z) => z =? g
      | _ => false
      end
  | _ => false
  end.

(** The integers from 1 to [n]. *)
Definition zrange (n : nat) : list Z := map (fun i => Z.of_nat (S i)) (seq 0 n).

(** [format_amount] renders the float of the integer [n] as [str(n)]. *)
Definition whole_rendered (n : Z) : bool :=
  match format_amount (Some (Float.of_Z n)) with
  | Ok s => String.eqb s (Str.of_Z n)
  | Raise _ => false
  end.

(** A digit or white space. *)
Definition digit_or_space (c : ascii) : bool := Str.is_digit c || Str.is_space c.

(** A character of a mixed number: a digit, a slash or white space. *)
Definition mixed_class (c : ascii) : bool := plain c || Str.is_space c.

(** An ASCII letter. *)
Definition is_alpha (c : ascii) : bool := Str.is_upper c || Str.is_lower c.

(** The characters of an amount in digits and slashes, a space and a unit
    in letters. *)
Definition label (c : ascii) : bool := plain c || Str.is_space c || is_alpha c.

(** The characters of the name [_save_image] gives a file. *)
Definition name_class (c : ascii) : bool :=
  Str.is_digit c || Str.is_lower c || Re.one "-" c || Re.one "_" c || Re.one "." c.

(** The character [\r]. *)
Definition carriage_return : ascii := ascii_of_N 13.

(** What [parse_steps] makes of a text. *)
Definition valid_step (s : string) : Prop :=
  s <> EmptyString
  /\ Str.strip s = s
  /\ Str.all (Re.other carriage_return) s = true
  /\ Str.contains blank_line s = false.

(** What the loop makes of a row. *)
Definition valid_ingredient (i : ingredient) : Prop :=
  ing_name i <> EmptyString
  /\ Str.strip (ing_name i) = ing_name i
  /\ (ing_amount i = Int 0 \/ exists x, ing_amount i = Flt x).

(** The field [servings] as [_parse_recipe_form] reads it. *)
Definition servings_of (form : recipe_form) : result Z :=
  match form_servings form with
  | Some s => if Str.is_empty s then Ok 4 else Text.int_of_str s
  | None => Ok 4
  end.






(** Two recipes, for the instances of the statements. *)
Definition two_recipes (recipe_id : Z) : list recipe_ingredient :=
  if recipe_id =? 1 then
    [ mkRecipeIngredient "Flour" (Float.of_Z 2) (Some "cup")
                         (Some (Float.of_Z 120)) (Some "volume") None;
      mkRecipeIngredient "butter" (Float.div_Z 1 2) (Some "cup")
                         (Some (Float.of_Z 226)) (Some "volume") None ]
  else if recipe_id =? 2 then
    [ mkRecipeIngredient "egg" (Float.of_Z 3) None None (Some "count")
                         (Some (Float.of_Z 50));
      mkRecipeIngredient "flour" (Float.of_Z 3) (Some "tbsp")
                         (Some (Float.of_Z 120)) (Some "volume") None ]
  else [].

(** The text after an opening parenthesis has its closing parenthesis, and
    no "cup", in any case, before it. *)
Definition clause_without_cup (s : string) : bool :=
  let '(body, after) := Lit.span (Re.other ")") s in
  negb (Str.is_empty after) && negb (Str.contains "cup" (Str.lower body)).

(** No parenthetical clause of [s] mentions a cup: each opening
    parenthesis of [s] is closed in [s] with no "cup" in between. *)
Fixpoint no_cup_clause (s : string) : bool :=
  match s with
  | EmptyString => true
  | String c s' =>
      (if Ascii.eqb c "(" then clause_without_cup s' else true) && no_cup_clause s'
  end.

(** The float nearest to [t / 10], with the sign [s]: the value of a text
    with one decimal. *)
Definition nearest_tenth (s : bool) (t : Z) : Float.float :=
  if t =? 0 then S754_zero s else Float.div_Z (cond_Zopp s t) 10.

(** A character of the ASCII range.  On a text made of such characters the
    classes of this file are those of Python. *)
Definition is_ascii (c : ascii) : bool := (Str.code c <? 128)%N.

(** A text that [int] reads as [Text.int_of_str] does: in ASCII, and within
    the interpreter's limit of 4300 digits for an integer literal. *)
Definition int_text (s : string) : bool :=
  Str.all is_ascii s && (String.length s <=? 4300)%nat.

(** The field [servings] of the form, when it is sent, is such a text. *)
Definition plain_servings (form : recipe_form) : bool :=
  match form_servings form with
  | Some s => int_text s
  | None => true
  end.


(** * Properties *)

(** ** Floats *)

Lemma numerator_nonzero (s : bool) (m : positive) (e : Z) :
  Float.numerator s m e <> 0.
Proof.
  unfold Float.numerator.
  assert (H : 0 < Z.pos m * 2 ^ Z.max e 0)
    by (apply Z.mul_pos_pos; [lia | apply Z.pow_pos_nonneg; lia]).
  unfold cond_Zopp. destruct s; lia.
Qed.

Lemma eqb_Z_zero (x : Float.float) : Float.eqb_Z x 0 = Float.is_zero x.
Proof.
  destruct x as [s | s | | s m e]; simpl; try reflexivity.
  apply Z.eqb_neq, numerator_nonzero.
Qed.

Lemma float_truediv_nonzero (x y : Float.float) :
  Float.is_zero y = false -> Num.float_truediv x y = Ok (Float.div x y).
Proof. unfold Num.float_truediv. intros ->. reflexivity. Qed.

Lemma round_finite (x : Float.float) :
  Float.is_finite x = true -> exists z, Float.nearest x = Some z /\ Num.round x = Ok z.
Proof.
  unfold Num.round.
  destruct x as [s | s | | s m e]; simpl; intros H; try discriminate; eauto.
Qed.

Lemma binary_round_aux_nonneg (m e : Z) (l : location) :
  nonneg_or_nan (binary_round_aux Float.prec Float.emax false m e l) = true.
Proof.
  unfold binary_round_aux.
  destruct (shr_fexp Float.prec Float.emax m e l) as [mrs e'].
  destruct (shr_fexp Float.prec Float.emax _ e' loc_Exact) as [mrs' e''].
  destruct (shr_m mrs') as [| q | q]; try reflexivity.
  destruct (e'' <=? Float.emax - Float.prec); reflexivity.
Qed.

Lemma binary_round_nonneg (m : positive) (e : Z) :
  nonneg_or_nan (binary_round Float.prec Float.emax false m e) = true.
Proof.
  unfold binary_round.
  destruct (shl_align m e _) as [mz ez].
  apply binary_round_aux_nonneg.
Qed.

Lemma of_Z_nonneg (z : Z) : 0 <= z -> nonneg_or_nan (Float.of_Z z) = true.
Proof.
  unfold Float.of_Z, binary_normalize.
  destruct z as [| q | q]; intros H; [reflexivity | apply binary_round_nonneg | lia].
Qed.

Lemma div_Z_nonneg (a b : Z) :
  0 <= a -> 0 <= b -> nonneg_or_nan (Float.div_Z a b) = true.
Proof.
  unfold Float.div_Z.
  destruct a as [| a | a], b as [| b | b]; intros Ha Hb; try lia; try reflexivity.
  unfold Float.exact_Z, SFdiv.
  destruct (SFdiv_core_binary Float.prec Float.emax _ _ _ _) as [[mz ez] lz].
  apply binary_round_aux_nonneg.
Qed.

Lemma add_nonneg (x y : Float.float) :
  nonneg_or_nan x = true -> nonneg_or_nan y = true ->
  nonneg_or_nan (Float.add x y) = true.
Proof.
  destruct x as [sx | sx | | sx mx ex], y as [sy | sy | | sy my ey];
    try (destruct sx); try (destruct sy); try discriminate; try reflexivity.
  intros _ _. unfold Float.add, SFadd, cond_Zopp.
  apply binary_round_nonneg.
Qed.

Lemma div_nonneg (x y : Float.float) :
  nonneg_or_nan x = true -> nonneg_or_nan y = true ->
  nonneg_or_nan (Float.div x y) = true.
Proof.
  destruct x as [sx | sx | | sx mx ex], y as [sy | sy | | sy my ey];
    try (destruct sx); try (destruct sy); try discriminate; try reflexivity.
  intros _ _. unfold Float.div, SFdiv.
  destruct (SFdiv_core_binary Float.prec Float.emax _ _ _ _) as [[mz ez] lz].
  apply binary_round_aux_nonneg.
Qed.

Lemma of_decimal_nonneg (m e : Z) :
  0 <= m -> nonneg_or_nan (Float.of_decimal m e) = true.
Proof.
  intros Hm. unfold Float.of_decimal.
  destruct (m =? 0); [reflexivity |].
  destruct (e >? 400); [reflexivity |].
  destruct (0 <=? e) eqn:He.
  - apply of_Z_nonneg. apply Z.mul_nonneg_nonneg; [exact Hm |].
    apply Z.pow_nonneg. lia.
  - destruct (_ <? _); [reflexivity |].
    apply div_Z_nonneg; [exact Hm | apply Z.pow_nonneg; lia].
Qed.

Lemma nonneg_or_nan_ge_zero (x : Float.float) :
  nonneg_or_nan x = true ->
  Float.is_nan x = true \/ Float.leb (Float.of_Z 0) x = true.
Proof.
  destruct x as [s | s | | s m e]; simpl; intros H.
  - right. reflexivity.
  - right. apply negb_true_iff in H. subst s. reflexivity.
  - left. reflexivity.
  - right. apply negb_true_iff in H. subst s. reflexivity.
Qed.

(** ** Strings *)

Section StringFacts.

Variable p : ascii -> bool.

Lemma all_app (a b : string) :
  Str.all p (a ++ b) = Str.all p a && Str.all p b.
Proof.
  induction a as [| c a IH]; simpl; [reflexivity |].
  rewrite IH, andb_assoc. reflexivity.
Qed.

Lemma all_lstrip (q : ascii -> bool) (s : string) :
  Str.all p s = true -> Str.all p (Str.lstrip_with q s) = true.
Proof.
  induction s as [| c s IH]; simpl; intros H; [reflexivity |].
  apply andb_prop in H as [Hc Hs].
  destruct (q c); [apply IH; exact Hs |].
  simpl. rewrite Hc, Hs. reflexivity.
Qed.

Lemma all_rstrip (q : ascii -> bool) (s : string) :
  Str.all p s = true -> Str.all p (Str.rstrip_with q s) = true.
Proof.
  induction s as [| c s IH]; simpl; intros H; [reflexivity |].
  apply andb_prop in H as [Hc Hs].
  destruct (q c && Str.is_empty (Str.rstrip_with q s)); [reflexivity |].
  simpl. rewrite Hc, (IH Hs). reflexivity.
Qed.

Lemma all_strip_with (q : ascii -> bool) (s : string) :
  Str.all p s = true -> Str.all p (Str.strip_with q s) = true.
Proof. intros H. apply all_rstrip, all_lstrip, H. Qed.

Lemma all_strip (s : string) :
  Str.all p s = true -> Str.all p (Str.strip s) = true.
Proof. apply all_strip_with. Qed.

Lemma all_remove_from (old s : string) (skip : nat) :
  Str.all p s = true -> Str.all p (Str.remove_from old s skip) = true.
Proof.
  revert skip. induction s as [| c s IH]; intros skip H; [reflexivity |].
  apply andb_prop in H as [Hc Hs]. cbn [Str.remove_from].
  destruct skip as [| k]; [| apply IH; exact Hs].
  destruct (Str.startswith old (String c s)); [apply IH; exact Hs |].
  cbn [Str.all]. rewrite Hc, (IH 0%nat Hs). reflexivity.
Qed.

Lemma all_remove (old s : string) :
  Str.all p s = true -> Str.all p (Str.remove old s) = true.
Proof. apply all_remove_from. Qed.

Lemma all_substring (s : string) (a n : nat) :
  Str.all p s = true -> Str.all p (String.substring a n s) = true.
Proof.
  revert a n. induction s as [| c s IH]; intros a n H.
  - destruct a, n; reflexivity.
  - apply andb_prop in H as [Hc Hs].
    destruct a as [| a]; simpl.
    + destruct n as [| n]; [reflexivity |].
      simpl. rewrite Hc, (IH 0%nat n Hs). reflexivity.
    + apply IH; exact Hs.
Qed.

Lemma span_spec (s a b : string) :
  Lit.span p s = (a, b) -> s = a ++ b /\ Str.all p a = true.
Proof.
  revert a b. induction s as [| c s IH]; simpl; intros a b H.
  - injection H as <- <-. split; reflexivity.
  - destruct (p c) eqn:Hc.
    + destruct (Lit.span p s) as [a' b'].
      injection H as <- <-.
      destruct (IH a' b' eq_refl) as [-> Ha].
      split; [reflexivity | simpl; rewrite Hc, Ha; reflexivity].
    + injection H as <- <-. split; reflexivity.
Qed.

End StringFacts.

Lemma all_impl (p q : ascii -> bool) (s : string) :
  (forall c, p c = true -> q c = true) ->
  Str.all p s = true -> Str.all q s = true.
Proof.
  intros Hpq. induction s as [| c s IH]; simpl; intros H; [reflexivity |].
  apply andb_prop in H as [Hc Hs]. rewrite (Hpq c Hc), (IH Hs). reflexivity.
Qed.

Lemma contains_minus (s : string) :
  Str.contains "-" s = false -> Str.all not_minus s = true.
Proof.
  induction s as [| c s IH]; intros H; [reflexivity |].
  cbn [Str.contains Str.startswith] in H.
  apply orb_false_elim in H as [Hc Hs].
  rewrite andb_true_r in Hc.
  cbn [Str.all]. unfold not_minus at 1.
  rewrite Ascii.eqb_sym, Hc, (IH Hs). reflexivity.
Qed.

Lemma substring_app_left (a r : string) :
  String.substring 0 (String.length a) (a ++ r) = a.
Proof.
  induction a as [| c a IH]; simpl.
  - destruct r; reflexivity.
  - rewrite IH. reflexivity.
Qed.

Lemma substring_app_skip (a r : string) (k n : nat) :
  String.substring (String.length a + k) n (a ++ r) = String.substring k n r.
Proof. induction a as [| c a IH]; simpl; [reflexivity | exact IH]. Qed.

Lemma length_app (a b : string) :
  String.length (a ++ b) = (String.length a + String.length b)%nat.
Proof. induction a as [| c a IH]; simpl; [reflexivity | rewrite IH; reflexivity]. Qed.

(** ** Decimal literals *)

Lemma digit_value_nonneg (c : ascii) : Str.is_digit c = true -> 0 <= Str.digit_value c.
Proof.
  unfold Str.is_digit, Str.digit_value.
  intros H. apply andb_prop in H as [H _]. apply N.leb_le in H.
  generalize dependent (Str.code c). intros n H. lia.
Qed.

Lemma digits_value_nonneg (s : string) (acc : Z) :
  0 <= acc -> Str.all Str.is_digit s = true -> 0 <= Str.digits_value acc s.
Proof.
  revert acc.
  induction s as [| c s IH]; cbn [Str.digits_value Str.all]; intros acc Hacc H;
    [exact Hacc |].
  apply andb_prop in H as [Hc Hs].
  apply IH; [| exact Hs].
  pose proof (digit_value_nonneg c Hc). lia.
Qed.

Lemma int_of_digits_nonneg (s : string) :
  Str.all Str.is_digit s = true -> 0 <= Lit.int_of_digits s.
Proof. apply digits_value_nonneg. lia. Qed.

Lemma sign_no_minus (s : string) :
  Str.all not_minus s = true -> fst (Lit.sign s) = false.
Proof.
  destruct s as [| c s]; [reflexivity |].
  cbn [Str.all]. intros H. apply andb_prop in H as [Hc _].
  unfold Lit.sign.
  destruct c as [[] [] [] [] [] [] [] []]; try reflexivity; discriminate.
Qed.

Lemma unsigned_nonneg (s : string) (x : Float.float) :
  Lit.unsigned s = Some x -> nonneg_or_nan x = true.
Proof.
  unfold Lit.unsigned.
  destruct (Lit.span Str.is_digit s) as [ip s1] eqn:Hip.
  destruct (match s1 with
            | String "."%char s' => Lit.span Str.is_digit s'
            | _ => (EmptyString, s1)
            end) as [fp s2] eqn:Hfp.
  destruct (Str.is_empty ip && Str.is_empty fp); [discriminate |].
  destruct (Lit.exponent s2) as [e |]; [| discriminate].
  intros H. injection H as <-.
  apply of_decimal_nonneg, digits_value_nonneg; [lia |].
  rewrite all_app.
  apply span_spec in Hip as [_ ->]. simpl.
  destruct s1 as [| c s1].
  - injection Hfp as <- _. reflexivity.
  - destruct (Ascii.eqb c ".") eqn:Hc.
    + apply Ascii.eqb_eq in Hc. subst c.
      apply span_spec in Hfp as [_ ->]. reflexivity.
    + assert (Hfp' : (EmptyString, String c s1) = (fp, s2)).
      { rewrite <- Hfp.
        destruct c as [[] [] [] [] [] [] [] []]; try reflexivity; discriminate. }
      injection Hfp' as <- _. reflexivity.
Qed.

Lemma magnitude_nonneg (s : string) (x : Float.float) :
  Lit.magnitude s = Some x -> nonneg_or_nan x = true.
Proof.
  unfold Lit.magnitude.
  destruct (_ || _); [intros H; injection H as <-; reflexivity |].
  destruct (String.eqb _ _); [intros H; injection H as <-; reflexivity |].
  apply unsigned_nonneg.
Qed.

(** [float] gives no negative number on a text without a minus sign. *)
Lemma parse_nonneg (s : string) (x : Float.float) :
  Str.all not_minus s = true -> Lit.parse s = Some x -> nonneg_or_nan x = true.
Proof.
  intros Hs. unfold Lit.parse.
  destruct (Lit.underscores_ok None _); [| discriminate].
  pose proof (sign_no_minus (Str.remove "_" (Str.strip_with Str.is_c_space s))
                (all_remove _ _ _ (all_strip_with _ _ _ Hs))) as Hsign.
  destruct (Lit.sign _) as [neg body]. simpl in Hsign. subst neg.
  destruct (Lit.magnitude body) as [y |] eqn:Hy; [| discriminate].
  intros H. injection H as <-. apply (magnitude_nonneg _ _ Hy).
Qed.

Lemma digit_classes (c : ascii) :
  Str.is_digit c = true ->
  Str.is_c_space c = false /\ Str.is_upper c = false
  /\ Ascii.eqb "_" c = false /\ Ascii.eqb c "i" = false /\ Ascii.eqb c "n" = false
  /\ Lit.sign (String c EmptyString) = (false, String c EmptyString).
Proof.
  destruct c as [[] [] [] [] [] [] [] []]; intros H; try discriminate H;
    repeat apply conj; reflexivity.
Qed.

Lemma sign_digit (c : ascii) (s : string) :
  Str.is_digit c = true -> Lit.sign (String c s) = (false, String c s).
Proof.
  destruct c as [[] [] [] [] [] [] [] []]; intros H; try discriminate H; reflexivity.
Qed.

Lemma lstrip_all_not (p q : ascii -> bool) (s : string) :
  (forall c, p c = true -> q c = false) ->
  Str.all p s = true -> Str.lstrip_with q s = s.
Proof.
  intros Hpq. destruct s as [| c s]; cbn [Str.all Str.lstrip_with]; [reflexivity |].
  intros H. apply andb_prop in H as [Hc _]. rewrite (Hpq c Hc). reflexivity.
Qed.

Lemma rstrip_all_not (p q : ascii -> bool) (s : string) :
  (forall c, p c = true -> q c = false) ->
  Str.all p s = true -> Str.rstrip_with q s = s.
Proof.
  intros Hpq. induction s as [| c s IH]; cbn [Str.all Str.rstrip_with]; [reflexivity |].
  intros H. apply andb_prop in H as [Hc Hs].
  rewrite (Hpq c Hc), (IH Hs). reflexivity.
Qed.

Lemma remove_from_all_not (p : ascii -> bool) (c0 : ascii) (s : string) :
  (forall c, p c = true -> Ascii.eqb c0 c = false) ->
  Str.all p s = true -> Str.remove_from (String c0 EmptyString) s 0 = s.
Proof.
  intros Hp. induction s as [| c s IH];
    cbn [Str.all Str.remove_from Str.startswith]; [reflexivity |].
  intros H. apply andb_prop in H as [Hc Hs].
  rewrite (Hp c Hc), (IH Hs). reflexivity.
Qed.

Lemma underscores_ok_digits (s : string) (prev : option ascii) :
  prev <> Some "_"%char ->
  Str.all Str.is_digit s = true -> Lit.underscores_ok prev s = true.
Proof.
  revert prev. induction s as [| c s IH]; intros prev Hprev H.
  - cbn [Lit.underscores_ok].
    destruct prev as [d |]; [| reflexivity].
    destruct d as [[] [] [] [] [] [] [] []]; try reflexivity. contradiction Hprev; reflexivity.
  - cbn [Str.all] in H. apply andb_prop in H as [Hc Hs].
    assert (Hrec : Lit.underscores_ok (Some c) s = true).
    { apply IH; [| exact Hs]. intros E. injection E as ->. discriminate Hc. }
    assert (Hstep : Lit.underscores_ok prev (String c s)
                    = (match prev with
                       | Some "_"%char => Str.is_digit c
                       | _ => true
                       end && Lit.underscores_ok (Some c) s)).
    { destruct c as [[] [] [] [] [] [] [] []]; try discriminate Hc; reflexivity. }
    rewrite Hstep, Hrec, Hc.
    destruct prev as [d |]; [| reflexivity].
    destruct d as [[] [] [] [] [] [] [] []]; reflexivity.
Qed.

Lemma span_all (p : ascii -> bool) (s : string) :
  Str.all p s = true -> Lit.span p s = (s, EmptyString).
Proof.
  induction s as [| c s IH]; cbn [Str.all Lit.span]; [reflexivity |].
  intros H. apply andb_prop in H as [Hc Hs]. rewrite Hc, (IH Hs). reflexivity.
Qed.

Lemma lower_digits (s : string) :
  Str.all Str.is_digit s = true -> Str.lower s = s.
Proof.
  induction s as [| c s IH]; cbn [Str.all Str.lower]; [reflexivity |].
  intros H. apply andb_prop in H as [Hc Hs].
  unfold Str.lower_char.
  destruct (digit_classes c Hc) as (_ & -> & _). rewrite (IH Hs). reflexivity.
Qed.

Lemma append_empty (s : string) : s ++ "" = s.
Proof. induction s as [| c s IH]; cbn [append]; [| rewrite IH]; reflexivity. Qed.

Lemma of_decimal_integer (n : Z) : Float.of_decimal n 0 = Float.of_Z n.
Proof.
  unfold Float.of_decimal.
  destruct (n =? 0) eqn:Hn.
  - apply Z.eqb_eq in Hn. subst n. reflexivity.
  - cbn [Z.gtb Z.compare Z.leb]. rewrite Z.pow_0_r, Z.mul_1_r. reflexivity.
Qed.

Lemma magnitude_digits (s : string) :
  s <> EmptyString -> Str.all Str.is_digit s = true ->
  Lit.magnitude s = Some (Float.of_Z (Lit.int_of_digits s)).
Proof.
  intros Hne Hs. unfold Lit.magnitude.
  rewrite (lower_digits s Hs).
  destruct s as [| c s]; [contradiction Hne; reflexivity |].
  pose proof Hs as Hs'. cbn [Str.all] in Hs'. apply andb_prop in Hs' as [Hc _].
  destruct (digit_classes c Hc) as (_ & _ & _ & Hi & Hn & _).
  cbn [String.eqb]. rewrite Hi, Hn. cbn [orb].
  unfold Lit.unsigned. rewrite (span_all _ _ Hs).
  cbn [Str.is_empty andb Lit.exponent String.length].
  rewrite append_empty. cbn [Z.of_nat Z.sub Z.opp Z.add].
  rewrite of_decimal_integer. reflexivity.
Qed.

(** [float] on a non-empty run of digits is the float of the integer they
    write. *)
Lemma parse_digits (s : string) :
  s <> EmptyString -> Str.all Str.is_digit s = true ->
  Lit.parse s = Some (Float.of_Z (Lit.int_of_digits s)).
Proof.
  intros Hne Hs. unfold Lit.parse, Str.strip_with.
  assert (Hsp : forall c, Str.is_digit c = true -> Str.is_c_space c = false)
    by (intros c Hc; apply (digit_classes c Hc)).
  assert (Hus : forall c, Str.is_digit c = true -> Ascii.eqb "_" c = false)
    by (intros c Hc; apply (digit_classes c Hc)).
  rewrite (lstrip_all_not _ _ s Hsp Hs), (rstrip_all_not _ _ s Hsp Hs).
  rewrite (underscores_ok_digits s None) by (discriminate || exact Hs).
  unfold Str.remove. rewrite (remove_from_all_not _ _ s Hus Hs).
  destruct s as [| c s]; [contradiction Hne; reflexivity |].
  pose proof Hs as Hs'. cbn [Str.all] in Hs'. apply andb_prop in Hs' as [Hc _].
  rewrite (sign_digit c s Hc), (magnitude_digits _ Hne Hs). reflexivity.
Qed.

(** ** The matcher *)

Lemma greedy_inv (p : ascii -> bool) (min : nat)
    (k : string -> nat -> option Re.caps) (s : string) (pos taken : nat)
    (c : Re.caps) :
  Re.greedy p min k s pos taken = Some c ->
  exists w s',
    s = w ++ s' /\ Str.all p w = true
    /\ (min <= taken + String.length w)%nat
    /\ k s' (pos + String.length w)%nat = Some c.
Proof.
  revert pos taken.
  assert (Hstop : forall s pos taken,
             (if Nat.leb min taken then k s pos else None) = Some c ->
             exists w s',
               s = w ++ s' /\ Str.all p w = true
               /\ (min <= taken + String.length w)%nat
               /\ k s' (pos + String.length w)%nat = Some c).
  { intros s0 pos taken H. exists EmptyString, s0.
    destruct (Nat.leb min taken) eqn:Hmin; [| discriminate].
    apply Nat.leb_le in Hmin. cbn [String.length append].
    rewrite !Nat.add_0_r. repeat split; [exact Hmin | exact H]. }
  induction s as [| a s IH]; intros pos taken H; cbn [Re.greedy] in H.
  - apply Hstop, H.
  - destruct (p a) eqn:Hpa; [| apply Hstop, H].
    destruct (Re.greedy p min k s (S pos) (S taken)) as [c' |] eqn:Hrec;
      [| apply Hstop, H].
    injection H as ->.
    destruct (IH _ _ Hrec) as (w & s' & -> & Hw & Hmin & Hk).
    exists (String a w), s'. cbn [String.length append Str.all].
    rewrite Hpa, Hw, !Nat.add_succ_r.
    repeat split; [exact Hmin | exact Hk].
Qed.

Lemma substring_prefix (a r : string) (n : nat) :
  n = String.length a -> String.substring 0 n (a ++ r) = a.
Proof. intros ->. apply substring_app_left. Qed.

Lemma substring_after (a w r : string) (c : ascii) (i n : nat) :
  i = S (String.length a) -> n = String.length w ->
  String.substring i n (a ++ String c (w ++ r)) = w.
Proof.
  intros -> ->.
  rewrite <- (Nat.add_1_r (String.length a)), substring_app_skip.
  cbn [String.substring]. apply substring_app_left.
Qed.

Ltac caps_compute :=
  cbn [Re.group Re.close_group Re.open_group Re.lookup Re.opened Re.closed
       Re.no_caps Nat.eqb].

Lemma rx_simple_groups (t : string) (m : Re.caps) :
  Re.match_ rx_simple t = Some m ->
  Str.all Str.is_digit (Re.group t m 1) = true
  /\ Str.all Str.is_digit (Re.group t m 2) = true.
Proof.
  unfold Re.match_, rx_simple. cbn [Re.run Nat.eqb].
  intros H.
  apply greedy_inv in H as (w1 & s1 & -> & Hw1 & _ & H).
  cbn [Re.run] in H.
  destruct s1 as [| c s1]; [discriminate |].
  destruct (Re.one "/" c); [| discriminate].
  apply greedy_inv in H as (w2 & s2 & -> & Hw2 & _ & H).
  cbn [Re.run] in H.
  destruct (Re.at_end s2); [| discriminate].
  injection H as <-. caps_compute.
  rewrite substring_prefix by lia.
  rewrite substring_after by lia.
  split; assumption.
Qed.

Lemma rx_mixed_groups (t : string) (m : Re.caps) :
  Re.match_ rx_mixed t = Some m ->
  Str.all Str.is_digit (Re.group t m 1) = true
  /\ Str.all Str.is_digit (Re.group t m 2) = true
  /\ Str.all Str.is_digit (Re.group t m 3) = true.
Proof.
  unfold Re.match_, rx_mixed. cbn [Re.run Nat.eqb].
  intros H.
  apply greedy_inv in H as (w1 & s1 & -> & Hw1 & _ & H).
  cbn [Re.run] in H.
  apply greedy_inv in H as (sp & s2 & -> & _ & Hsp & H).
  cbn [Re.run] in H.
  apply greedy_inv in H as (w2 & s3 & -> & Hw2 & _ & H).
  cbn [Re.run] in H.
  destruct s3 as [| c s3]; [discriminate |].
  destruct (Re.one "/" c); [| discriminate].
  apply greedy_inv in H as (w3 & s4 & -> & Hw3 & _ & H).
  cbn [Re.run] in H.
  destruct (Re.at_end s4); [| discriminate].
  injection H as <-. caps_compute.
  rewrite substring_prefix by lia.
  replace (String.length w1 + String.length sp)%nat
    with (String.length w1 + (String.length sp + 0))%nat at 1 by lia.
  rewrite !substring_app_skip, substring_prefix by lia.
  replace (S (String.length w1 + String.length sp + String.length w2))
    with (String.length w1 + (String.length sp + (String.length w2 + 1)))%nat
    at 1 by lia.
  rewrite !substring_app_skip. cbn [String.substring].
  rewrite substring_prefix by lia.
  repeat split; assumption.
Qed.

Lemma all_group (p : ascii -> bool) (t : string) (m : Re.caps) (g : nat) :
  Str.all p t = true -> Str.all p (Re.group t m g) = true.
Proof.
  intros H. unfold Re.group.
  destruct (Re.lookup g (Re.closed m)) as [[a b] |]; [| reflexivity].
  apply all_substring, H.
Qed.

Lemma greedy_stop (p : ascii -> bool) (min : nat)
    (k : string -> nat -> option Re.caps) (s : string) (pos taken : nat) :
  stops p s ->
  Re.greedy p min k s pos taken = if Nat.leb min taken then k s pos else None.
Proof.
  destruct s as [| a s]; cbn [stops Re.greedy]; [reflexivity |].
  intros ->. reflexivity.
Qed.

(** The longest run is tried first. *)
Lemma greedy_longest (p : ascii -> bool) (min : nat)
    (k : string -> nat -> option Re.caps) (w s : string) (pos taken : nat)
    (c : Re.caps) :
  Str.all p w = true -> stops p s ->
  (min <= taken + String.length w)%nat ->
  k s (pos + String.length w)%nat = Some c ->
  Re.greedy p min k (w ++ s) pos taken = Some c.
Proof.
  revert pos taken.
  induction w as [| a w IH]; intros pos taken Hw Hs Hmin Hk.
  - cbn [append String.length] in *. rewrite Nat.add_0_r in *.
    rewrite (greedy_stop _ _ _ _ _ _ Hs).
    apply Nat.leb_le in Hmin. rewrite Hmin. exact Hk.
  - cbn [Str.all] in Hw. apply andb_prop in Hw as [Ha Hw].
    cbn [append Re.greedy String.length] in *. rewrite Ha.
    rewrite Nat.add_succ_r in Hmin, Hk.
    rewrite (IH (S pos) (S taken) Hw Hs Hmin Hk). reflexivity.
Qed.

(** When the rest of the pattern gives the same captures wherever it
    matches, the repetition gives them as soon as one split matches. *)
Lemma greedy_some_const (p : ascii -> bool) (min : nat)
    (k : string -> nat -> option Re.caps) (c : Re.caps)
    (s : string) (pos taken : nat) :
  (forall w s' c',
      s = w ++ s' -> Str.all p w = true ->
      k s' (pos + String.length w)%nat = Some c' -> c' = c) ->
  (exists w s', s = w ++ s' /\ Str.all p w = true
                /\ (min <= taken + String.length w)%nat
                /\ k s' (pos + String.length w)%nat = Some c) ->
  Re.greedy p min k s pos taken = Some c.
Proof.
  intros Hconst (w & s' & Hs & Hw & Hmin & Hk).
  destruct (Re.greedy p min k s pos taken) as [c' |] eqn:Hg.
  - apply greedy_inv in Hg as (w1 & s1 & Hs1 & Hw1 & _ & Hk1).
    rewrite (Hconst w1 s1 c' Hs1 Hw1 Hk1). reflexivity.
  - exfalso. clear Hconst. revert pos taken w Hs Hw Hmin Hk Hg.
    induction s as [| a s IH]; intros pos taken w Hs Hw Hmin Hk Hg.
    + destruct w; [| discriminate Hs]. cbn [append] in Hs. subst s'.
      cbn [Re.greedy String.length] in *. rewrite Nat.add_0_r in *.
      apply Nat.leb_le in Hmin. rewrite Hmin, Hk in Hg. discriminate.
    + destruct w as [| b w].
      * cbn [append] in Hs. subst s'.
        cbn [String.length] in *. rewrite Nat.add_0_r in *.
        apply Nat.leb_le in Hmin.
        cbn [Re.greedy] in Hg. rewrite Hmin, Hk in Hg.
        destruct (p a); [| discriminate Hg].
        destruct (Re.greedy p min k s (S pos) (S taken)); discriminate Hg.
      * cbn [append] in Hs. injection Hs as <- ->.
        cbn [Str.all] in Hw. apply andb_prop in Hw as [Ha Hw].
        cbn [String.length] in *. rewrite Nat.add_succ_r in Hmin, Hk.
        cbn [Re.greedy] in Hg. rewrite Ha in Hg.
        destruct (Re.greedy p min k (w ++ s') (S pos) (S taken)) eqn:Hrec;
          [discriminate Hg |].
        apply (IH (S pos) (S taken) w eq_refl Hw Hmin Hk Hrec).
Qed.

(** The repetition fails when the rest of the pattern fails at every split. *)
Lemma greedy_none (p : ascii -> bool) (min : nat)
    (k : string -> nat -> option Re.caps) (s : string) (pos taken : nat) :
  (forall w s', s = w ++ s' -> Str.all p w = true ->
                k s' (pos + String.length w)%nat = None) ->
  Re.greedy p min k s pos taken = None.
Proof.
  intros Hk.
  destruct (Re.greedy p min k s pos taken) as [c |] eqn:Hg; [| reflexivity].
  apply greedy_inv in Hg as (w & s' & Hs & Hw & _ & Hc).
  rewrite (Hk w s' Hs Hw) in Hc. discriminate Hc.
Qed.

(** The longest run fails and the next one matches: one character is given
    back. *)
Lemma greedy_give_back (p : ascii -> bool) (min : nat)
    (k : string -> nat -> option Re.caps) (w s : string) (x : ascii)
    (pos taken : nat) (c : Re.caps) :
  Str.all p w = true -> p x = true -> stops p s ->
  (min <= taken + String.length w)%nat ->
  k s (S (pos + String.length w)) = None ->
  k (String x s) (pos + String.length w)%nat = Some c ->
  Re.greedy p min k (w ++ String x s) pos taken = Some c.
Proof.
  revert pos taken.
  induction w as [| a w IH]; intros pos taken Hw Hx Hs Hmin Hnone Hk.
  - cbn [append String.length] in *. rewrite Nat.add_0_r in *.
    cbn [Re.greedy]. rewrite Hx, (greedy_stop _ _ _ _ _ _ Hs).
    rewrite Hnone.
    destruct (Nat.leb min (S taken)); apply Nat.leb_le in Hmin; rewrite Hmin; exact Hk.
  - cbn [Str.all] in Hw. apply andb_prop in Hw as [Ha Hw].
    cbn [append Re.greedy String.length] in *. rewrite Ha.
    rewrite Nat.add_succ_r in Hmin, Hnone, Hk.
    rewrite (IH (S pos) (S taken) Hw Hx Hs Hmin Hnone Hk). reflexivity.
Qed.

(** A suffix of a text of the class [p] stops every class disjoint from [p]. *)
Lemma stops_suffix (p q : ascii -> bool) (s w s' : string) :
  (forall c, p c = true -> q c = false) ->
  Str.all p s = true -> s = w ++ s' -> stops q s'.
Proof.
  intros Hpq Hs ->. rewrite all_app in Hs. apply andb_prop in Hs as [_ Hs'].
  destruct s' as [| c s']; cbn [stops]; [exact I |].
  cbn [Str.all] in Hs'. apply andb_prop in Hs' as [Hc _]. apply (Hpq c Hc).
Qed.

Lemma lstrip_split (q : ascii -> bool) (s : string) :
  exists lead, s = lead ++ Str.lstrip_with q s.
Proof.
  induction s as [| c s [lead IH]]; cbn [Str.lstrip_with].
  - exists EmptyString. reflexivity.
  - destruct (q c).
    + exists (String c lead). cbn [append]. rewrite <- IH. reflexivity.
    + exists EmptyString. reflexivity.
Qed.

Lemma rstrip_split (q : ascii -> bool) (s : string) :
  exists trail, s = Str.rstrip_with q s ++ trail.
Proof.
  induction s as [| c s [trail IH]]; cbn [Str.rstrip_with].
  - exists EmptyString. reflexivity.
  - destruct (q c && Str.is_empty (Str.rstrip_with q s)).
    + exists (String c s). reflexivity.
    + exists trail. cbn [append]. rewrite <- IH. reflexivity.
Qed.

Lemma strip_split (s : string) :
  exists lead trail, s = lead ++ Str.strip s ++ trail.
Proof.
  destruct (lstrip_split Str.is_space s) as [lead Hl].
  destruct (rstrip_split Str.is_space (Str.lstrip_with Str.is_space s)) as [trail Hr].
  exists lead, trail. unfold Str.strip, Str.strip_with.
  rewrite <- Hr. exact Hl.
Qed.

Lemma append_assoc (a b c : string) : (a ++ b) ++ c = a ++ b ++ c.
Proof. induction a as [| x a IH]; cbn [append]; [| rewrite IH]; reflexivity. Qed.

(** ** Operations that can raise, when they do not *)

Lemma float_of_int_ok (z : Z) (x : Float.float) :
  Num.float_of_int z = Ok x -> x = Float.of_Z z.
Proof.
  unfold Num.float_of_int.
  destruct (Float.is_inf (Float.of_Z z)); [discriminate |].
  intros H. injection H as <-. reflexivity.
Qed.

Lemma int_truediv_ok (a b : Z) (x : Float.float) :
  Num.int_truediv a b = Ok x -> x = Float.div_Z a b /\ b <> 0.
Proof.
  unfold Num.int_truediv.
  destruct (b =? 0) eqn:Hb; [discriminate |].
  destruct (Float.is_inf (Float.div_Z a b)); [discriminate |].
  intros H. injection H as <-. apply Z.eqb_neq in Hb. split; [reflexivity | exact Hb].
Qed.

Lemma float_truediv_ok (x y q : Float.float) :
  Num.float_truediv x y = Ok q -> q = Float.div x y.
Proof.
  unfold Num.float_truediv.
  destruct (Float.is_zero y); [discriminate |].
  intros H. injection H as <-. reflexivity.
Qed.

Lemma float_of_str_ok (s : string) (x : Float.float) :
  Lit.float_of_str s = Ok x -> Lit.parse s = Some x.
Proof.
  unfold Lit.float_of_str.
  destruct (Lit.parse s); [| discriminate].
  intros H. injection H as <-. reflexivity.
Qed.

Lemma bind_ok {A B : Type} (r : result A) (k : A -> result B) (b : B) :
  Py.bind r k = Ok b -> exists a, r = Ok a /\ k a = Ok b.
Proof. destruct r as [a | e]; [intros H; exists a; auto | discriminate]. Qed.

(** ** The table of volume units *)

Lemma TO_CUPS_table (k : string) : get TO_CUPS k = cups_per_unit k.
Proof.
  unfold cups_per_unit, TO_CUPS, get, member, existsb.
  rewrite !(String.eqb_sym k).
  repeat match goal with
         | |- context [String.eqb ?a k] => destruct (String.eqb a k) eqn:?
         end; simpl; reflexivity.
Qed.

(** ** parse_fraction *)

Lemma parse_fraction_examples :
  parse_fraction "4 1/4" = Ok (Some (Float.of_decimal 425 (-2)))
  /\ parse_fraction "1/2" = Ok (Some (Float.of_decimal 5 (-1)))
  /\ parse_fraction "3 3/8" = Ok (Some (Float.of_decimal 3375 (-3)))
  /\ parse_fraction "2.5" = Ok (Some (Float.of_decimal 25 (-1)))
  /\ parse_fraction "3" = Ok (Some (Float.of_Z 3))
  /\ parse_fraction "abc" = Ok None.
Proof. repeat apply conj; vm_compute; reflexivity. Qed.

Lemma startswith_head (c0 : ascii) (rest s : string) (p : ascii -> bool) :
  p c0 = false -> Str.all p s = true -> Str.startswith (String c0 rest) s = false.
Proof.
  destruct s as [| c s]; cbn [Str.startswith Str.all]; [reflexivity |].
  intros Hc0 H. apply andb_prop in H as [Hc _].
  destruct (Ascii.eqb c0 c) eqn:E; [| reflexivity].
  apply Ascii.eqb_eq in E. subst c. rewrite Hc in Hc0. discriminate Hc0.
Qed.

Lemma contains_head (c0 : ascii) (rest s : string) (p : ascii -> bool) :
  p c0 = false -> Str.all p s = true -> Str.contains (String c0 rest) s = false.
Proof.
  intros Hc0. induction s as [| c s IH]; intros H.
  - reflexivity.
  - cbn [Str.contains]. rewrite (startswith_head _ _ _ _ Hc0 H).
    cbn [Str.all] in H. apply andb_prop in H as [_ Hs]. apply (IH Hs).
Qed.


Lemma glyph_loop_plain (s : string) :
  Str.all plain s = true -> glyph_loop UNICODE_FRACTIONS s = None.
Proof.
  intros H. unfold UNICODE_FRACTIONS. cbn [glyph_loop].
  rewrite !(contains_head _ _ s plain) by (reflexivity || exact H).
  reflexivity.
Qed.

Lemma digit_plain (s : string) :
  Str.all Str.is_digit s = true -> Str.all plain s = true.
Proof.
  apply all_impl. intros c Hc. unfold plain. rewrite Hc. reflexivity.
Qed.

Lemma plain_not_space (c : ascii) : plain c = true -> Str.is_space c = false.
Proof.
  destruct c as [[] [] [] [] [] [] [] []]; intros H; try discriminate H; reflexivity.
Qed.

Lemma digit_not_space (c : ascii) : Str.is_digit c = true -> Str.is_space c = false.
Proof. intros H. apply plain_not_space. unfold plain. rewrite H. reflexivity. Qed.

Lemma digit_not_slash (c : ascii) : Str.is_digit c = true -> Re.one "/" c = false.
Proof.
  destruct c as [[] [] [] [] [] [] [] []]; intros H; try discriminate H; reflexivity.
Qed.

Lemma strip_plain (s : string) : Str.all plain s = true -> Str.strip s = s.
Proof.
  intros H. unfold Str.strip, Str.strip_with.
  rewrite (lstrip_all_not _ _ s plain_not_space H).
  apply (rstrip_all_not _ _ s plain_not_space H).
Qed.

(** No white space, so no mixed number. *)
Lemma match_mixed_plain (s : string) :
  Str.all plain s = true -> Re.match_ rx_mixed s = None.
Proof.
  intros H. unfold Re.match_, rx_mixed. cbn [Re.run Nat.eqb].
  apply greedy_none. intros w s' Hs Hw. cbn [Re.run].
  rewrite greedy_stop; [reflexivity |].
  apply (stops_suffix plain _ s w s' plain_not_space H Hs).
Qed.

(** No slash, so no simple fraction. *)
Lemma match_simple_digits (s : string) :
  Str.all Str.is_digit s = true -> Re.match_ rx_simple s = None.
Proof.
  intros H. unfold Re.match_, rx_simple. cbn [Re.run Nat.eqb].
  apply greedy_none. intros w s' Hs Hw. cbn [Re.run].
  pose proof (stops_suffix Str.is_digit (Re.one "/") s w s' digit_not_slash H Hs) as Hstop.
  destruct s' as [| c s']; [reflexivity |].
  cbn [stops] in Hstop. rewrite Hstop. reflexivity.
Qed.

(** The fourth rule on an integer text. *)
Lemma parse_fraction_digits (s : string) :
  s <> EmptyString -> Str.all Str.is_digit s = true ->
  parse_fraction s = Ok (Some (Float.of_Z (Lit.int_of_digits s))).
Proof.
  intros Hne Hs. pose proof (digit_plain s Hs) as Hp.
  unfold parse_fraction.
  rewrite (strip_plain s Hp), (glyph_loop_plain s Hp),
    (match_mixed_plain s Hp), (match_simple_digits s Hs).
  unfold Lit.float_of_str. rewrite (parse_digits s Hne Hs). reflexivity.
Qed.

(** The third rule on a fraction whose parts are runs of digits. *)
Lemma match_simple_fraction (n d : string) :
  n <> EmptyString -> d <> EmptyString ->
  Str.all Str.is_digit n = true -> Str.all Str.is_digit d = true ->
  exists m,
    Re.match_ rx_simple (n ++ String "/" d) = Some m
    /\ Re.group (n ++ String "/" d) m 1 = n
    /\ Re.group (n ++ String "/" d) m 2 = d.
Proof.
  intros Hn Hd Hnd Hdd.
  exists (Re.close_group 2 (S (String.length n + String.length d))
            (Re.open_group 2 (S (String.length n))
               (Re.close_group 1 (String.length n) (Re.open_group 1 0 Re.no_caps)))).
  split; [| split].
  - unfold Re.match_, rx_simple. cbn [Re.run Nat.eqb].
    apply greedy_longest; [exact Hnd | reflexivity | |].
    + destruct n; [contradiction Hn; reflexivity | cbn [String.length]; lia].
    + cbn [Re.run Nat.add]. change (Re.one "/" "/") with true. cbv iota.
      rewrite <- (append_empty d) at 1.
      apply greedy_longest; [exact Hdd | exact I | |].
      * destruct d; [contradiction Hd; reflexivity | cbn [String.length]; lia].
      * reflexivity.
  - caps_compute. apply substring_prefix. lia.
  - caps_compute. rewrite <- (append_empty d) at 2.
    apply substring_after; lia.
Qed.

Lemma plain_fraction (n d : string) :
  Str.all Str.is_digit n = true -> Str.all Str.is_digit d = true ->
  Str.all plain (n ++ String "/" d) = true.
Proof.
  intros Hn Hd. rewrite all_app. cbn [Str.all].
  rewrite (digit_plain n Hn), (digit_plain d Hd). reflexivity.
Qed.

(** Whatever the numerator, a zero denominator is divided by. *)
Lemma parse_fraction_over_zero (n : string) :
  n <> EmptyString -> Str.all Str.is_digit n = true ->
  parse_fraction (n ++ "/0") = Raise ZeroDivisionError.
Proof.
  intros Hne Hn.
  assert (Hp : Str.all plain (n ++ "/0") = true) by (apply plain_fraction; auto).
  destruct (match_simple_fraction n "0" Hne ltac:(discriminate) Hn eq_refl)
    as (m & Hm & H1 & H2).
  unfold parse_fraction.
  rewrite (strip_plain _ Hp), (glyph_loop_plain _ Hp), (match_mixed_plain _ Hp).
  rewrite Hm, H1, H2. reflexivity.
Qed.

(** C1.  [parse_fraction] does raise: on a fraction whose denominator is
    zero, whatever the numerator, the division [int / int] runs unguarded
    and the call ends in [ZeroDivisionError], for the simple and for the
    mixed form, where the claim has it return undefined.  Only
    [ValueError], and only that of the last rule, is caught: the [float]
    of the glyph rule raises it on a remainder that is no number. *)
Theorem parse_fraction_zero_denominator_raises (n : string) :
  n <> EmptyString -> Str.all Str.is_digit n = true ->
  parse_fraction (n ++ "/0") = Raise ZeroDivisionError
  /\ parse_fraction "1/0" = Raise ZeroDivisionError
  /\ parse_fraction "4 1/0" = Raise ZeroDivisionError
  /\ parse_fraction "about ½" = Raise ValueError.
Proof.
  intros Hne Hn. split; [apply parse_fraction_over_zero; assumption |].
  repeat apply conj; vm_compute; reflexivity.
Qed.

Lemma parse_fraction_zero_denominator_raises_witness :
  parse_fraction "12/0" = Raise ZeroDivisionError.
Proof.
  apply (proj1 (parse_fraction_zero_denominator_raises "12"
                  ltac:(discriminate) ltac:(vm_compute; reflexivity))).
Defined.

Lemma glyph_loop_first (pre post : list (string * Float.float)) (uf : string)
    (val : Float.float) (text : string) :
  (forall uf' val', In (uf', val') pre -> Str.contains uf' text = false) ->
  Str.contains uf text = true ->
  glyph_loop (pre ++ (uf, val) :: post)%list text =
    Some (base <- (if Str.is_empty (Str.strip (Str.remove uf text))
                   then Num.float_of_int 0
                   else Lit.float_of_str (Str.strip (Str.remove uf text))) ;;
          Ok (Float.add base val)).
Proof.
  intros Hpre Huf.
  induction pre as [| [uf' val'] pre IH]; cbn [glyph_loop app].
  - rewrite Huf. reflexivity.
  - rewrite (Hpre uf' val') by (left; reflexivity).
    apply IH. intros u v Hin. apply (Hpre u v). right. exact Hin.
Qed.

Lemma UNICODE_FRACTIONS_add_zero (uf : string) (val : Float.float) :
  In (uf, val) UNICODE_FRACTIONS -> Float.add (Float.of_Z 0) val = val.
Proof.
  unfold UNICODE_FRACTIONS. cbn [In].
  intros H.
  repeat (destruct H as [H | H]; [injection H as <- <-; vm_compute; reflexivity |]).
  contradiction.
Qed.

Lemma is_empty_true (s : string) : Str.is_empty s = true <-> s = EmptyString.
Proof. destruct s; split; intros H; (reflexivity || discriminate). Qed.

Lemma is_empty_false (s : string) : s <> EmptyString -> Str.is_empty s = false.
Proof. destruct s; intros H; [contradiction H |]; reflexivity. Qed.

(** C10, counterexample.  After the glyph is stripped from ["1.5½"] the
    remaining text ["1.5"] is no integer, so the rule of the claim has no
    whole part to return; [parse_fraction] reads the remainder with
    [float] and returns 2.0.  On ["about ½"] it returns nothing. *)
Lemma parse_fraction_glyph_decimal_remainder :
  glyph_rule_spec "½" (Float.of_decimal 5 (-1)) "1.5½" = None
  /\ parse_fraction "1.5½" = Ok (Some (Float.of_Z 2))
  /\ parse_fraction "about ½" = Raise ValueError.
Proof. repeat apply conj; vm_compute; reflexivity. Qed.

(** C10, amended.  When the trimmed text contains a fraction glyph,
    [parse_fraction] applies the glyph rule and no other: it takes the
    first glyph of the table, in the order ¼ ½ ¾ ⅓ ⅔ ⅛ ⅜ ⅝ ⅞, that occurs
    in the text, removes its occurrences and trims the rest.  An empty
    remainder gives the glyph's value; a remainder that [float] reads as
    [w] gives [w] + the glyph's value, so a run of digits gives that
    integer + the value, and a decimal remainder is accepted as well:
    [parse_fraction("¾") = 0.75], [parse_fraction("1 ¾") = 1.75] and
    [parse_fraction("1.5½") = 2.0]. *)
Theorem parse_fraction_glyph_rule (text : string)
    (pre post : list (string * Float.float)) (uf : string) (val : Float.float) :
  UNICODE_FRACTIONS = (pre ++ (uf, val) :: post)%list ->
  (forall uf' val', In (uf', val') pre -> Str.contains uf' (Str.strip text) = false) ->
  Str.contains uf (Str.strip text) = true ->
  (Str.strip (Str.remove uf (Str.strip text)) = EmptyString ->
   parse_fraction text = Ok (Some val))
  /\ (forall w,
        Str.strip (Str.remove uf (Str.strip text)) <> EmptyString ->
        Lit.parse (Str.strip (Str.remove uf (Str.strip text))) = Some w ->
        parse_fraction text = Ok (Some (Float.add w val)))
  /\ (Str.strip (Str.remove uf (Str.strip text)) <> EmptyString ->
      Str.all Str.is_digit (Str.strip (Str.remove uf (Str.strip text))) = true ->
      parse_fraction text =
        Ok (Some (Float.add
                    (Float.of_Z (Lit.int_of_digits
                                   (Str.strip (Str.remove uf (Str.strip text)))))
                    val)))
  /\ parse_fraction "¾" = Ok (Some (Float.of_decimal 75 (-2)))
  /\ parse_fraction "1 ¾" = Ok (Some (Float.of_decimal 175 (-2)))
  /\ parse_fraction "1.5½" = Ok (Some (Float.of_Z 2)).
Proof.
  intros Htable Hpre Huf.
  assert (Hin : In (uf, val) UNICODE_FRACTIONS)
    by (rewrite Htable; apply in_or_app; right; left; reflexivity).
  assert (Hfloat : forall w,
             Str.strip (Str.remove uf (Str.strip text)) <> EmptyString ->
             Lit.parse (Str.strip (Str.remove uf (Str.strip text))) = Some w ->
             parse_fraction text = Ok (Some (Float.add w val))).
  { intros w Hne Hw. unfold parse_fraction.
    rewrite Htable, (glyph_loop_first _ _ _ _ _ Hpre Huf).
    rewrite (is_empty_false _ Hne). unfold Lit.float_of_str. rewrite Hw.
    reflexivity. }
  split; [| split; [| split]].
  - intros Hempty. unfold parse_fraction.
    rewrite Htable, (glyph_loop_first _ _ _ _ _ Hpre Huf), Hempty.
    cbn [Str.is_empty].
    change (Num.float_of_int 0) with (Ok (Float.of_Z 0)). cbn [Py.bind].
    rewrite (UNICODE_FRACTIONS_add_zero uf val Hin). reflexivity.
  - exact Hfloat.
  - intros Hne Hdigits. apply (Hfloat _ Hne). apply parse_digits; assumption.
  - repeat apply conj; vm_compute; reflexivity.
Qed.

Lemma parse_fraction_glyph_rule_witness :
  parse_fraction " 12 ⅓ " =
    Ok (Some (Float.add (Float.of_Z (Lit.int_of_digits "12")) (Float.div_Z 1 3))).
Proof.
  apply (proj1 (proj2 (proj2
    (parse_fraction_glyph_rule " 12 ⅓ "
       [ ("¼", Float.of_decimal 25 (-2)); ("½", Float.of_decimal 5 (-1));
         ("¾", Float.of_decimal 75 (-2)) ]
       [ ("⅔", Float.div_Z 2 3);
         ("⅛", Float.of_decimal 125 (-3)); ("⅜", Float.of_decimal 375 (-3));
         ("⅝", Float.of_decimal 625 (-3)); ("⅞", Float.of_decimal 875 (-3)) ]
       "⅓" (Float.div_Z 1 3) eq_refl
       ltac:(intros u v [H | [H | [H | []]]]; injection H as <- <-;
             vm_compute; reflexivity)
       ltac:(vm_compute; reflexivity))))).
  - vm_compute; discriminate.
  - vm_compute; reflexivity.
Defined.

Lemma UNICODE_FRACTIONS_nonneg (uf : string) (val : Float.float) :
  In (uf, val) UNICODE_FRACTIONS -> nonneg_or_nan val = true.
Proof.
  unfold UNICODE_FRACTIONS. cbn [In].
  intros H.
  repeat (destruct H as [H | H]; [injection H as <- <-; vm_compute; reflexivity |]).
  contradiction.
Qed.

Lemma glyph_loop_nonneg (items : list (string * Float.float)) (text : string)
    (x : Float.float) :
  (forall uf val, In (uf, val) items -> nonneg_or_nan val = true) ->
  Str.all not_minus text = true ->
  glyph_loop items text = Some (Ok x) ->
  nonneg_or_nan x = true.
Proof.
  intros Hitems Htext.
  induction items as [| [uf val] items IH]; cbn [glyph_loop]; [discriminate |].
  destruct (Str.contains uf text).
  - intros H. injection H as H.
    apply bind_ok in H as (base & Hbase & H). injection H as <-.
    apply add_nonneg; [| apply (Hitems uf val); left; reflexivity].
    destruct (Str.is_empty _).
    + apply float_of_int_ok in Hbase. subst base. reflexivity.
    + apply float_of_str_ok in Hbase.
      apply (parse_nonneg _ _ (all_strip _ _ (all_remove _ uf _ Htext)) Hbase).
  - apply IH. intros uf' val' Hin. apply (Hitems uf' val'). right. exact Hin.
Qed.

Lemma parse_fraction_nonneg (text : string) (x : Float.float) :
  Str.all not_minus text = true ->
  parse_fraction text = Ok (Some x) ->
  nonneg_or_nan x = true.
Proof.
  intros Htext. unfold parse_fraction.
  pose proof (all_strip _ _ Htext) as Ht.
  set (t := Str.strip text) in *.
  destruct (glyph_loop UNICODE_FRACTIONS t) as [r |] eqn:Hglyph.
  { intros H. apply bind_ok in H as (y & -> & H). injection H as <-.
    apply (glyph_loop_nonneg _ _ _ UNICODE_FRACTIONS_nonneg Ht Hglyph). }
  destruct (Re.match_ rx_mixed t) as [m |] eqn:Hmixed.
  { apply rx_mixed_groups in Hmixed as (H1 & H2 & H3).
    intros H. apply bind_ok in H as (q & Hq & H).
    apply bind_ok in H as (w & Hw & H). injection H as <-.
    apply int_truediv_ok in Hq as [-> _]. apply float_of_int_ok in Hw as ->.
    apply add_nonneg.
    - apply of_Z_nonneg, int_of_digits_nonneg, H1.
    - apply div_Z_nonneg; apply int_of_digits_nonneg; assumption. }
  destruct (Re.match_ rx_simple t) as [m |] eqn:Hsimple.
  { apply rx_simple_groups in Hsimple as (H1 & H2).
    intros H. apply bind_ok in H as (q & Hq & H). injection H as <-.
    apply int_truediv_ok in Hq as [-> _].
    apply div_Z_nonneg; apply int_of_digits_nonneg; assumption. }
  destruct (Lit.float_of_str t) as [y | e] eqn:Hfloat.
  - intros H. injection H as <-.
    apply float_of_str_ok in Hfloat. apply (parse_nonneg _ _ Ht Hfloat).
  - destruct e; discriminate.
Qed.

Lemma parse_range_nonneg (text : string) (x : Float.float) :
  Str.all not_minus text = true ->
  parse_range text = Ok (Some x) ->
  nonneg_or_nan x = true.
Proof.
  intros Htext. unfold parse_range.
  pose proof (all_strip _ _ Htext) as Ht.
  set (t := Str.strip text) in *.
  destruct (Re.match_ rx_range t) as [m |]; [| apply parse_fraction_nonneg, Ht].
  intros H. apply bind_ok in H as (lo & Hlo & H).
  apply bind_ok in H as (hi & Hhi & H).
  destruct lo as [lo |]; [| apply (parse_fraction_nonneg _ _ Ht H)].
  destruct hi as [hi |]; [| apply (parse_fraction_nonneg _ _ Ht H)].
  apply bind_ok in H as (two & Htwo & H).
  apply bind_ok in H as (q & Hq & H). injection H as <-.
  apply float_of_int_ok in Htwo as ->. apply float_truediv_ok in Hq as ->.
  apply div_nonneg; [| reflexivity].
  apply add_nonneg.
  - apply (parse_fraction_nonneg _ _ (all_group _ _ m 1 Ht) Hlo).
  - apply (parse_fraction_nonneg _ _ (all_group _ _ m 2 Ht) Hhi).
Qed.

(** C4, counterexample.  A text with a leading minus sign reaches
    [float(text)], and the magnitude returned is negative. *)
Lemma parse_fraction_negative :
  parse_fraction "-1" = Ok (Some (Float.of_Z (-1)))
  /\ parse_range "-1" = Ok (Some (Float.of_Z (-1)))
  /\ Float.ltb (Float.of_Z (-1)) (Float.of_Z 0) = true.
Proof. repeat apply conj; vm_compute; reflexivity. Qed.

(** C4, amended.  For every input string that contains no minus sign, a
    magnitude returned by [parse_fraction], and hence by [parse_range], is
    NaN (as [float] returns it on the text "nan") or is [>= 0].  A text
    with a minus sign goes to [float] as it is:
    [parse_fraction("-1") = -1.0]. *)
Theorem parse_fraction_nonnegative (text : string) (x : Float.float) :
  Str.contains "-" text = false ->
  (parse_fraction text = Ok (Some x) ->
   Float.is_nan x = true \/ Float.leb (Float.of_Z 0) x = true)
  /\ (parse_range text = Ok (Some x) ->
      Float.is_nan x = true \/ Float.leb (Float.of_Z 0) x = true)
  /\ parse_fraction "nan" = Ok (Some S754_nan)
  /\ parse_fraction "-1" = Ok (Some (Float.of_Z (-1))).
Proof.
  intros H. apply contains_minus in H.
  split; [| split; [| split; vm_compute; reflexivity]];
    intros Hx; apply nonneg_or_nan_ge_zero.
  - apply (parse_fraction_nonneg _ _ H Hx).
  - apply (parse_range_nonneg _ _ H Hx).
Qed.

Lemma parse_fraction_nonnegative_witness :
  Float.is_nan (Float.of_decimal 375 (-2)) = true
  \/ Float.leb (Float.of_Z 0) (Float.of_decimal 375 (-2)) = true.
Proof.
  apply (proj1 (parse_fraction_nonnegative "3 ¾" (Float.of_decimal 375 (-2))
                  ltac:(vm_compute; reflexivity))).
  vm_compute; reflexivity.
Defined.

(** ** parse_range *)

Lemma mean_total (lo hi : Float.float) :
  (two <- Num.float_of_int 2 ;;
   m <- Num.float_truediv (Float.add lo hi) two ;;
   Ok (Some m)) = Ok (Some (mean lo hi)).
Proof. reflexivity. Qed.

Lemma digit_range_class (s : string) :
  Str.all Str.is_digit s = true -> Str.all range_class s = true.
Proof.
  apply all_impl. intros c Hc. unfold range_class. rewrite Hc. reflexivity.
Qed.

Lemma stops_digits (s : string) :
  Str.all Str.is_digit s = true -> stops Str.is_space s.
Proof.
  destruct s as [| c s]; cbn [stops Str.all]; [trivial |].
  intros H. apply andb_prop in H as [Hc _]. apply digit_not_space, Hc.
Qed.

Lemma match_range_integers (l r : string) :
  l <> EmptyString -> r <> EmptyString ->
  Str.all Str.is_digit l = true -> Str.all Str.is_digit r = true ->
  exists m,
    Re.match_ rx_range (l ++ " to " ++ r) = Some m
    /\ Re.group (l ++ " to " ++ r) m 1 = l
    /\ Re.group (l ++ " to " ++ r) m 2 = r.
Proof.
  intros Hl Hr Hld Hrd.
  assert (Hlen : forall s, s <> EmptyString -> (1 <= String.length s)%nat)
    by (intros [| c s] H; [contradiction H; reflexivity | cbn [String.length]; lia]).
  set (n := String.length l).
  exists (Re.close_group 2 (n + 4 + String.length r)
            (Re.open_group 2 (n + 4)
               (Re.close_group 1 n (Re.open_group 1 0 Re.no_caps)))).
  split; [| split].
  - unfold Re.match_, rx_range. cbn [Re.run Nat.eqb append].
    apply greedy_give_back;
      [apply digit_range_class, Hld | reflexivity | reflexivity
      | specialize (Hlen l Hl); lia | reflexivity |].
    cbn [Re.run Nat.add].
    apply (greedy_longest Str.is_space 1 _ " " (String "t" (String "o" (String " " r))));
      [reflexivity | reflexivity | cbn [String.length]; lia |].
    cbn [Re.run String.length]. change (Re.one "t" "t") with true.
    change (Re.one "o" "o") with true. cbv iota.
    apply (greedy_longest Str.is_space 1 _ " " r);
      [reflexivity | apply stops_digits, Hrd | cbn [String.length]; lia |].
    cbn [Re.run String.length].
    rewrite <- (append_empty r) at 1.
    apply greedy_longest;
      [apply digit_range_class, Hrd | exact I | specialize (Hlen r Hr); lia |].
    cbn [Re.run Re.at_end]. fold n.
    replace (S (S (n + 1)) + 1)%nat with (n + 4)%nat by lia. reflexivity.
  - caps_compute. apply substring_prefix. unfold n. lia.
  - caps_compute.
    replace (n + 4)%nat with (String.length l + 4)%nat at 1 by reflexivity.
    rewrite substring_app_skip. cbn [append String.substring].
    rewrite <- (append_empty r) at 2. apply substring_prefix. lia.
Qed.

Lemma rstrip_before_digits (a r : string) :
  r <> EmptyString -> Str.all Str.is_digit r = true ->
  Str.rstrip_with Str.is_space (a ++ r) = a ++ r.
Proof.
  intros Hr Hrd. induction a as [| c a IH]; cbn [append Str.rstrip_with].
  - apply (rstrip_all_not _ _ r digit_not_space Hrd).
  - rewrite IH.
    replace (Str.is_empty (a ++ r)) with false; [rewrite andb_false_r; reflexivity |].
    destruct a; [destruct r; [contradiction Hr |]|]; reflexivity.
Qed.

Lemma strip_between_digits (l a r : string) :
  l <> EmptyString -> r <> EmptyString ->
  Str.all Str.is_digit l = true -> Str.all Str.is_digit r = true ->
  Str.strip (l ++ a ++ r) = l ++ a ++ r.
Proof.
  intros Hl Hr Hld Hrd. unfold Str.strip, Str.strip_with.
  assert (Hlead : Str.lstrip_with Str.is_space (l ++ a ++ r) = l ++ a ++ r).
  { destruct l as [| c l]; [contradiction Hl; reflexivity |].
    cbn [Str.all] in Hld. apply andb_prop in Hld as [Hc _].
    cbn [append Str.lstrip_with]. rewrite (digit_not_space c Hc). reflexivity. }
  rewrite Hlead, <- append_assoc. apply rstrip_before_digits; assumption.
Qed.

(** The range of two integer texts: their mean. *)
Lemma parse_range_of_integers (l r : string) :
  l <> EmptyString -> r <> EmptyString ->
  Str.all Str.is_digit l = true -> Str.all Str.is_digit r = true ->
  parse_range (l ++ " to " ++ r)
  = Ok (Some (mean (Float.of_Z (Lit.int_of_digits l))
                   (Float.of_Z (Lit.int_of_digits r)))).
Proof.
  intros Hl Hr Hld Hrd.
  destruct (match_range_integers l r Hl Hr Hld Hrd) as (m & Hm & H1 & H2).
  unfold parse_range.
  rewrite (strip_between_digits l " to " r Hl Hr Hld Hrd), Hm, H1, H2.
  rewrite (parse_fraction_digits l Hl Hld), (parse_fraction_digits r Hr Hrd).
  reflexivity.
Qed.

(** C8.  A side of a range that fails to parse does not always send the
    text to one [parse_fraction]: when [parse_fraction] raises on a side,
    [parse_range] raises too.  [parse_range("1/0 to 2")] and
    [parse_range("2 to 1/0")] end in [ZeroDivisionError], where
    [parse_fraction] of the whole text is undefined; this is the unguarded
    division of C1 seen through [parse_range].  The rest of the claim
    holds.  With [t] the trimmed text: when [t] has the form of a range and
    both sides parse, [parse_range] returns their arithmetic mean; when it
    has that form and a side is undefined, or when [t], a text of ASCII
    characters, has not that form, [parse_range] returns what
    [parse_fraction] returns on [t] as a whole.  Two integers joined by
    " to " have that form and both parse.
    [parse_range("121 to 150") = 135.5], [parse_range("140") = 140.0] and
    [parse_range("abc to 10")] is undefined. *)
Theorem parse_range_spec (text : string) :
  (forall m lo hi,
      Re.match_ rx_range (Str.strip text) = Some m ->
      parse_fraction (Re.group (Str.strip text) m 1) = Ok (Some lo) ->
      parse_fraction (Re.group (Str.strip text) m 2) = Ok (Some hi) ->
      parse_range text = Ok (Some (mean lo hi)))
  /\ (forall m lo hi,
        Re.match_ rx_range (Str.strip text) = Some m ->
        parse_fraction (Re.group (Str.strip text) m 1) = Ok lo ->
        parse_fraction (Re.group (Str.strip text) m 2) = Ok hi ->
        lo = None \/ hi = None ->
        parse_range text = parse_fraction (Str.strip text))
  /\ (Str.all is_ascii text = true ->
      Re.match_ rx_range (Str.strip text) = None ->
      parse_range text = parse_fraction (Str.strip text))
  /\ (forall m e,
        Re.match_ rx_range (Str.strip text) = Some m ->
        parse_fraction (Re.group (Str.strip text) m 1) = Raise e ->
        parse_range text = Raise e)
  /\ (forall m lo e,
        Re.match_ rx_range (Str.strip text) = Some m ->
        parse_fraction (Re.group (Str.strip text) m 1) = Ok lo ->
        parse_fraction (Re.group (Str.strip text) m 2) = Raise e ->
        parse_range text = Raise e)
  /\ (forall l r,
        l <> EmptyString -> r <> EmptyString ->
        Str.all Str.is_digit l = true -> Str.all Str.is_digit r = true ->
        parse_range (l ++ " to " ++ r)
        = Ok (Some (mean (Float.of_Z (Lit.int_of_digits l))
                         (Float.of_Z (Lit.int_of_digits r)))))
  /\ parse_range "121 to 150" = Ok (Some (Float.of_decimal 1355 (-1)))
  /\ parse_range "140" = Ok (Some (Float.of_Z 140))
  /\ parse_range "abc to 10" = Ok None
  /\ parse_range "1/0 to 2" = Raise ZeroDivisionError
  /\ parse_range "2 to 1/0" = Raise ZeroDivisionError
  /\ parse_fraction "1/0 to 2" = Ok None.
Proof.
  split; [| split; [| split; [| split; [| split;
    [| split; [exact parse_range_of_integers |]]]]]].
  - intros m lo hi Hm Hlo Hhi. unfold parse_range.
    rewrite Hm, Hlo. simpl. rewrite Hhi. reflexivity.
  - intros m lo hi Hm Hlo Hhi Hnone. unfold parse_range.
    rewrite Hm, Hlo. simpl. rewrite Hhi. simpl.
    destruct Hnone as [-> | ->]; [reflexivity | destruct lo; reflexivity].
  - intros _ Hm. unfold parse_range. rewrite Hm. reflexivity.
  - intros m e Hm Hlo. unfold parse_range. rewrite Hm, Hlo. reflexivity.
  - intros m lo e Hm Hlo Hhi. unfold parse_range.
    rewrite Hm, Hlo. cbn [Py.bind]. rewrite Hhi. reflexivity.
  - repeat apply conj; vm_compute; reflexivity.
Qed.

Lemma parse_range_spec_witness :
  parse_range " 1/2 to 1 " = Ok (Some (mean (Float.of_decimal 5 (-1)) (Float.of_Z 1))).
Proof.
  apply (proj1 (parse_range_spec " 1/2 to 1 ")
               (Re.mkCaps [(2%nat, 7%nat); (1%nat, 0%nat)]
                          [(2%nat, (7%nat, 8%nat)); (1%nat, (0%nat, 3%nat))])
               (Float.of_decimal 5 (-1)) (Float.of_Z 1));
    vm_compute; reflexivity.
Defined.

(** ** format_amount *)

(** The entries of a table are rendered, each by its glyph, after every
    whole part below 512. *)
Lemma round_trips_upto (table : list (Float.float * string)) :
  forallb (fun n => forallb (round_trips (Z.of_nat n)) table) (seq 0 512) = true ->
  forall n val symbol,
    0 <= n < 512 -> In (val, symbol) table ->
    format_amount (Some (Float.add (Float.of_Z n) val)) = Ok (render n symbol).
Proof.
  intros H n val symbol Hn Hin.
  rewrite forallb_forall in H.
  specialize (H (Z.to_nat n)). rewrite Z2Nat.id in H by lia.
  assert (Hseq : In (Z.to_nat n) (seq 0 512)) by (apply in_seq; lia).
  apply H in Hseq. rewrite forallb_forall in Hseq.
  apply Hseq in Hin. unfold round_trips in Hin. cbn [fst snd] in Hin.
  destruct (format_amount _) as [s | e]; [| discriminate Hin].
  apply String.eqb_eq in Hin. subst s. reflexivity.
Qed.

(** Seven of the nine display fractions are rendered by their own glyph. *)
Lemma format_amount_round_trip (n : Z) (val : Float.float) (symbol : string) :
  0 <= n < 512 -> In (val, symbol) sevenths ->
  format_amount (Some (Float.add (Float.of_Z n) val)) = Ok (render n symbol).
Proof. apply round_trips_upto. vm_compute. reflexivity. Qed.

(** C2.  The value of the glyph [⅜] is rendered as [⅓], and that of [⅝] as
    [⅔], alone and after a whole part: the entry of the third comes first in
    [DISPLAY_FRACTIONS] and lies within 0.05 of the eighth. *)
Theorem format_amount_eighths_render_as_thirds (n : Z) :
  0 <= n < 512 ->
  format_amount (Some (Float.add (Float.of_Z n) (Float.of_decimal 375 (-3))))
  = Ok (render n "⅓")
  /\ format_amount (Some (Float.add (Float.of_Z n) (Float.of_decimal 625 (-3))))
     = Ok (render n "⅔")
  /\ format_amount (Some (Float.of_decimal 375 (-3))) = Ok "⅓"
  /\ format_amount (Some (Float.of_decimal 625 (-3))) = Ok "⅔".
Proof.
  intros Hn.
  assert (H : forall val symbol,
             In (val, symbol) [ (Float.of_decimal 375 (-3), "⅓");
                                (Float.of_decimal 625 (-3), "⅔") ] ->
             format_amount (Some (Float.add (Float.of_Z n) val))
             = Ok (render n symbol)).
  { intros val symbol. apply round_trips_upto; [vm_compute; reflexivity | exact Hn]. }
  split; [apply H; left; reflexivity |].
  split; [apply H; right; left; reflexivity |].
  split; vm_compute; reflexivity.
Qed.

Lemma format_amount_eighths_render_as_thirds_witness :
  format_amount (Some (Float.add (Float.of_Z 2) (Float.of_decimal 375 (-3))))
  = Ok "2 ⅓".
Proof.
  apply (proj1 (format_amount_eighths_render_as_thirds 2 ltac:(lia))).
Defined.

Lemma display_loop_first_match (pre post : list (Float.float * string))
    (val : Float.float) (symbol : string) (frac : Float.float) :
  (forall v s, In (v, s) pre -> within_tolerance frac v = false) ->
  within_tolerance frac val = true ->
  display_loop (pre ++ (val, symbol) :: post)%list frac = Some symbol.
Proof.
  induction pre as [| [v s] pre IH]; simpl; intros Hpre Hval.
  - rewrite Hval. reflexivity.
  - rewrite (Hpre v s) by (left; reflexivity).
    apply IH; [| exact Hval].
    intros v' s' Hin. apply (Hpre v' s'). right. exact Hin.
Qed.

(** C3, counterexample.  The remainder of 1.52 is within 0.05 of one half,
    so [format_amount(1.52)] is ["1 ½"] and not ["1.5"]. *)
Lemma format_amount_1_52_is_not_decimal :
  format_amount (Some (Float.of_decimal 152 (-2))) = Ok "1 ½"
  /\ format_amount (Some (Float.of_decimal 152 (-2))) <> Ok "1.5".
Proof. split; [vm_compute; reflexivity | vm_compute; discriminate]. Qed.

(** C3, amended.  On a magnitude [n] that is not integral, with whole part
    [base] ([b] as a float), [format_amount] goes through the display fractions in the order
    of the table (a quarter, a third, a half, two thirds, three quarters,
    then the eighths) and renders the first whose value is within 0.05 of
    the remainder [n - base], whether or not a later one is closer: 0.38
    renders as a third.  [format_amount(1.5) = "1 ½"],
    [format_amount(0.25) = "¼"], [format_amount(2.0) = "2"], and
    [format_amount(1.52) = "1 ½"], a half being within tolerance of 0.52;
    the decimal form appears when no fraction is, as in
    [format_amount(1.95) = "1.9"]. *)
Theorem format_amount_first_match (n b : Float.float) (base : Z)
    (pre post : list (Float.float * string)) (val : Float.float) (symbol : string) :
  Num.int_of_float n = Ok base ->
  Float.eqb_Z n base = false ->
  Num.float_of_int base = Ok b ->
  DISPLAY_FRACTIONS = (pre ++ (val, symbol) :: post)%list ->
  (forall v s, In (v, s) pre -> within_tolerance (Float.sub n b) v = false) ->
  within_tolerance (Float.sub n b) val = true ->
  format_amount (Some n) = Ok (render base symbol)
  /\ map snd DISPLAY_FRACTIONS = ["¼"; "⅓"; "½"; "⅔"; "¾"; "⅛"; "⅜"; "⅝"; "⅞"]
  /\ format_amount (Some (Float.of_decimal 38 (-2))) = Ok "⅓"
  /\ format_amount (Some (Float.of_decimal 15 (-1))) = Ok "1 ½"
  /\ format_amount (Some (Float.of_decimal 25 (-2))) = Ok "¼"
  /\ format_amount (Some (Float.of_decimal 20 (-1))) = Ok "2"
  /\ format_amount (Some (Float.of_decimal 152 (-2))) = Ok "1 ½"
  /\ format_amount (Some (Float.of_decimal 195 (-2))) = Ok "1.9".
Proof.
  intros Hint Hneq Hb Htable Hpre Hval.
  split.
  - unfold format_amount. rewrite Hint. cbn [Py.bind].
    rewrite Hneq, Hb. cbn [Py.bind].
    rewrite Htable, (display_loop_first_match _ _ _ _ _ Hpre Hval).
    reflexivity.
  - repeat apply conj; vm_compute; reflexivity.
Qed.

Lemma format_amount_first_match_witness :
  format_amount (Some (Float.of_decimal 2375 (-3))) = Ok "2 ⅓".
Proof.
  apply (format_amount_first_match
           (Float.of_decimal 2375 (-3)) (Float.of_Z 2) 2
           [(Float.of_decimal 25 (-2), "¼")]
           [ (Float.of_decimal 5 (-1), "½");
             (Float.div_Z 2 3, "⅔"); (Float.of_decimal 75 (-2), "¾");
             (Float.of_decimal 125 (-3), "⅛"); (Float.of_decimal 375 (-3), "⅜");
             (Float.of_decimal 625 (-3), "⅝"); (Float.of_decimal 875 (-3), "⅞") ]
           (Float.div_Z 1 3) "⅓").
  - vm_compute; reflexivity.
  - vm_compute; reflexivity.
  - vm_compute; reflexivity.
  - reflexivity.
  - intros v s [H | []]. injection H as <- <-. vm_compute; reflexivity.
  - vm_compute; reflexivity.
Defined.

(** ** to_weight *)

(** C6, counterexample.  The claim that [to_weight] never raises fails on
    two finite magnitudes whose product overflows: [round] raises
    [OverflowError] on the infinite product. *)
Lemma to_weight_overflow_raises :
  Float.is_finite (Float.of_decimal 1 308) = true
  /\ to_weight (Some (Float.of_decimal 1 308)) (Some "cup")
               (Some (Float.of_decimal 1 308)) = Raise OverflowError.
Proof. split; vm_compute; reflexivity. Qed.

(** C6, amended.  [to_weight] returns undefined when the magnitude or the
    density is absent, or when the unit, lowercased, is not in the table of
    volume units; otherwise, when the product magnitude x cups per unit x
    density is finite, it does not raise and returns that product rounded
    to the nearest integer.  So [to_weight(2, "tbsp", 120) = 15], and an
    unknown unit gives undefined for every magnitude.  On a product that
    is not finite [round] raises: [to_weight(1e308, "cup", 1e308)] ends in
    [OverflowError]. *)
Theorem to_weight_spec (m : option Float.float) (u : option string)
    (d : option Float.float) :
  (m = None \/ d = None -> to_weight m u d = Ok None)
  /\ (cups_per_unit (unit_lower u) = None -> to_weight m u d = Ok None)
  /\ (forall a g c,
        m = Some a -> d = Some g -> cups_per_unit (unit_lower u) = Some c ->
        Float.is_finite (Float.mul (Float.mul a c) g) = true ->
        exists z, Float.nearest (Float.mul (Float.mul a c) g) = Some z
                  /\ to_weight m u d = Ok (Some z))
  /\ to_weight (Some (Float.of_Z 2)) (Some "tbsp") (Some (Float.of_Z 120))
     = Ok (Some 15)
  /\ to_weight m (Some "unknown_unit") (Some (Float.of_Z 100)) = Ok None
  /\ to_weight (Some (Float.of_decimal 1 308)) (Some "cup")
               (Some (Float.of_decimal 1 308)) = Raise OverflowError.
Proof.
  split; [| split; [| split; [| split; [| split]]]].
  - intros [-> | ->]; [reflexivity | destruct m; reflexivity].
  - intros H. unfold to_weight. rewrite TO_CUPS_table, H.
    destruct m, d; reflexivity.
  - intros a g c -> -> Hc Hfin.
    destruct (round_finite _ Hfin) as (z & Hz & Hr).
    exists z. split; [exact Hz |].
    unfold to_weight. rewrite TO_CUPS_table, Hc, Hr. reflexivity.
  - vm_compute; reflexivity.
  - destruct m; reflexivity.
  - vm_compute; reflexivity.
Qed.

Lemma to_weight_spec_witness :
  Float.is_finite (Float.mul (Float.mul (Float.of_decimal 15 (-1)) (Float.of_Z 1))
                             (Float.of_Z 125)) = true
  /\ exists z, Float.nearest (Float.mul (Float.mul (Float.of_decimal 15 (-1)) (Float.of_Z 1))
                                        (Float.of_Z 125)) = Some z
               /\ to_weight (Some (Float.of_decimal 15 (-1))) (Some "Cups")
                            (Some (Float.of_Z 125)) = Ok (Some z).
Proof.
  split; [vm_compute; reflexivity |].
  apply (proj1 (proj2 (proj2 (to_weight_spec (Some (Float.of_decimal 15 (-1)))
                                              (Some "Cups") (Some (Float.of_Z 125)))))
               (Float.of_decimal 15 (-1)) (Float.of_Z 125) (Float.of_Z 1));
    vm_compute; reflexivity.
Defined.

(** ** normalize_to_grams_per_cup *)

(** [round(n / d)] to the nearest integer: within a half of the quotient,
    and even when the quotient lies halfway. *)
Lemma round_half_even_nearest (n d : Z) :
  0 <= n -> 0 < d ->
  0 <= Float.round_half_even n d
  /\ Z.abs (2 * (n - Float.round_half_even n d * d)) <= d
  /\ (Z.abs (2 * (n - Float.round_half_even n d * d)) = d ->
      Z.even (Float.round_half_even n d) = true).
Proof.
  intros Hn Hd. unfold Float.round_half_even.
  pose proof (Z.div_mod n d ltac:(lia)) as Hdiv.
  pose proof (Z.mod_pos_bound n d Hd) as Hmod.
  pose proof (Z.div_pos n d Hn Hd) as Hq.
  set (q := n / d) in *. set (r := n mod d) in *.
  assert (Hr : n - q * d = r) by lia.
  assert (Hr1 : n - (q + 1) * d = r - d) by lia.
  destruct (Z.compare_spec (2 * r) d) as [E | E | E].
  - destruct (Z.even q) eqn:Heven.
    + rewrite Hr. repeat split; [lia | lia | intros _; exact Heven].
    + rewrite Hr1. repeat split; [lia | lia |].
      intros _. rewrite Z.even_add, Heven. reflexivity.
  - rewrite Hr. repeat split; lia.
  - rewrite Hr1. repeat split; lia.
Qed.

Lemma denominator_pos (e : Z) : 0 < Float.denominator e.
Proof. unfold Float.denominator. apply Z.pow_pos_nonneg; lia. Qed.

(** [round(x, 1)] on a float [x = +-N/D] that is no integer: with [t] the
    integer nearest to [10 N / D], the even one of the two at a tie, the
    result is the float nearest to [+-t / 10]. *)
Lemma round1_nearest_tenth (s : bool) (m : positive) (e : Z) :
  e < 0 ->
  exists t,
    0 <= t
    /\ Z.abs (2 * (10 * Float.numerator false m e - t * Float.denominator e))
       <= Float.denominator e
    /\ (Z.abs (2 * (10 * Float.numerator false m e - t * Float.denominator e))
        = Float.denominator e -> Z.even t = true)
    /\ Float.round1 (S754_finite s m e) = nearest_tenth s t.
Proof.
  intros He. exists (Float.tenths m e).
  assert (Hnum : 0 <= 10 * Float.numerator false m e).
  { unfold Float.numerator. cbn [cond_Zopp].
    pose proof (Z.pow_pos_nonneg 2 (Z.max e 0) ltac:(lia) ltac:(lia)). nia. }
  destruct (round_half_even_nearest _ _ Hnum (denominator_pos e)) as (H0 & Hnear & Htie).
  fold (Float.tenths m e) in H0, Hnear, Htie.
  repeat split; [exact H0 | exact Hnear | exact Htie |].
  unfold Float.round1, nearest_tenth.
  replace (0 <=? e) with false by (symmetry; apply Z.leb_gt; exact He).
  destruct (Float.tenths m e); reflexivity.
Qed.

(** C7.  [normalize_to_grams_per_cup] never raises, so never divides by
    zero: it returns undefined when the volume or the grams are absent,
    when the unit is not in the table, and when volume x cups per unit
    equals zero; otherwise it returns grams / (volume x cups per unit)
    rounded to one decimal.  Rounded to one decimal means: when the
    quotient is the float [+-N/D] with a fractional part, the result is the
    float nearest to [+-t/10], where [t] is the integer nearest to
    [10 N / D], the even one at a tie.
    [normalize_to_grams_per_cup(2, "tablespoons", 14) = 112.0];
    10 g for 3 cups give 3.3, 100 g for 3 tablespoons 533.3, and the ties
    0.25 and 0.75 g for a cup give 0.2 and 0.8. *)
Theorem normalize_to_grams_per_cup_spec (v : option Float.float)
    (u : option string) (g : option Float.float) :
  Py.raises (normalize_to_grams_per_cup v u g) = false
  /\ (v = None \/ g = None -> normalize_to_grams_per_cup v u g = Ok None)
  /\ (cups_per_unit (unit_lower u) = None ->
      normalize_to_grams_per_cup v u g = Ok None)
  /\ (forall a b c,
        v = Some a -> g = Some b -> cups_per_unit (unit_lower u) = Some c ->
        normalize_to_grams_per_cup v u g =
          if Float.is_zero (Float.mul a c) then Ok None
          else Ok (Some (Float.round1 (Float.div b (Float.mul a c)))))
  /\ normalize_to_grams_per_cup (Some (Float.of_Z 2)) (Some "tablespoons")
                                (Some (Float.of_Z 14))
     = Ok (Some (Float.of_Z 112))
  /\ (forall a b c s m e,
        v = Some a -> g = Some b -> cups_per_unit (unit_lower u) = Some c ->
        Float.is_zero (Float.mul a c) = false ->
        Float.div b (Float.mul a c) = S754_finite s m e -> e < 0 ->
        exists t,
          0 <= t
          /\ Z.abs (2 * (10 * Float.numerator false m e - t * Float.denominator e))
             <= Float.denominator e
          /\ (Z.abs (2 * (10 * Float.numerator false m e - t * Float.denominator e))
              = Float.denominator e -> Z.even t = true)
          /\ normalize_to_grams_per_cup v u g = Ok (Some (nearest_tenth s t)))
  /\ normalize_to_grams_per_cup (Some (Float.of_Z 3)) (Some "cup")
                                (Some (Float.of_Z 10))
     = Ok (Some (Float.of_decimal 33 (-1)))
  /\ normalize_to_grams_per_cup (Some (Float.of_Z 3)) (Some "tbsp")
                                (Some (Float.of_Z 100))
     = Ok (Some (Float.of_decimal 5333 (-1)))
  /\ normalize_to_grams_per_cup (Some (Float.of_Z 1)) (Some "cup")
                                (Some (Float.of_decimal 25 (-2)))
     = Ok (Some (Float.of_decimal 2 (-1)))
  /\ normalize_to_grams_per_cup (Some (Float.of_Z 1)) (Some "cup")
                                (Some (Float.of_decimal 75 (-2)))
     = Ok (Some (Float.of_decimal 8 (-1))).
Proof.
  assert (Hmain : forall a b c,
             v = Some a -> g = Some b -> cups_per_unit (unit_lower u) = Some c ->
             normalize_to_grams_per_cup v u g =
               if Float.is_zero (Float.mul a c) then Ok None
               else Ok (Some (Float.round1 (Float.div b (Float.mul a c))))).
  { intros a b c -> -> Hc. unfold normalize_to_grams_per_cup.
    rewrite TO_CUPS_table, Hc, eqb_Z_zero.
    destruct (Float.is_zero (Float.mul a c)) eqn:Hz; [reflexivity |].
    rewrite (float_truediv_nonzero _ _ Hz). reflexivity. }
  split; [| split; [| split; [| split; [| split; [| split]]]]].
  - destruct v as [a |], g as [b |]; try reflexivity.
    destruct (cups_per_unit (unit_lower u)) as [c |] eqn:Hc.
    + rewrite (Hmain a b c eq_refl eq_refl eq_refl).
      destruct (Float.is_zero (Float.mul a c)); reflexivity.
    + unfold normalize_to_grams_per_cup. rewrite TO_CUPS_table, Hc. reflexivity.
  - intros [-> | ->]; [reflexivity | destruct v; reflexivity].
  - intros H. unfold normalize_to_grams_per_cup. rewrite TO_CUPS_table, H.
    destruct v, g; reflexivity.
  - exact Hmain.
  - vm_compute; reflexivity.
  - intros a b c s m e Hv Hg Hc Hz Hq He.
    rewrite (Hmain a b c Hv Hg Hc), Hz, Hq.
    destruct (round1_nearest_tenth s m e He) as (t & H0 & Hnear & Htie & ->).
    exists t. repeat split; assumption.
  - repeat apply conj; vm_compute; reflexivity.
Qed.

Lemma normalize_to_grams_per_cup_spec_witness :
  normalize_to_grams_per_cup (Some (Float.of_Z 0)) (Some "Tsp") (Some (Float.of_Z 5))
  = Ok None
  /\ normalize_to_grams_per_cup (Some (Float.of_Z 3)) (Some "Tsp") (Some (Float.of_Z 5))
     = Ok (Some (Float.of_Z 80))
  /\ exists t,
       0 <= t
       /\ Z.abs (2 * (10 * Float.numerator false 7881299347898368%positive (-52)
                      - t * Float.denominator (-52)))
          <= Float.denominator (-52)
       /\ (Z.abs (2 * (10 * Float.numerator false 7881299347898368%positive (-52)
                       - t * Float.denominator (-52)))
           = Float.denominator (-52) -> Z.even t = true)
       /\ normalize_to_grams_per_cup (Some (Float.of_Z 4)) (Some "Cups")
                                     (Some (Float.of_Z 7))
          = Ok (Some (nearest_tenth false t)).
Proof.
  split; [| split].
  - apply (proj1 (proj2 (proj2 (proj2
      (normalize_to_grams_per_cup_spec (Some (Float.of_Z 0)) (Some "Tsp")
                                       (Some (Float.of_Z 5))))))
      (Float.of_Z 0) (Float.of_Z 5) (Float.div_Z 1 48));
      vm_compute; reflexivity.
  - apply (proj1 (proj2 (proj2 (proj2
      (normalize_to_grams_per_cup_spec (Some (Float.of_Z 3)) (Some "Tsp")
                                       (Some (Float.of_Z 5))))))
      (Float.of_Z 3) (Float.of_Z 5) (Float.div_Z 1 48));
      vm_compute; reflexivity.
  - apply (proj1 (proj2 (proj2 (proj2 (proj2 (proj2
      (normalize_to_grams_per_cup_spec (Some (Float.of_Z 4)) (Some "Cups")
                                       (Some (Float.of_Z 7))))))))
      (Float.of_Z 4) (Float.of_Z 7) (Float.of_Z 1) false 7881299347898368%positive (-52));
      (vm_compute; reflexivity) || lia.
Defined.

(** ** parse_volume_text *)

Lemma startswith_app (p a b : string) :
  Str.startswith p a = true -> Str.startswith p (a ++ b) = true.
Proof.
  revert a. induction p as [| c p IH]; intros a; [reflexivity |].
  destruct a as [| x a]; cbn [Str.startswith append]; [discriminate |].
  intros H. apply andb_prop in H as [Hc Hp]. rewrite Hc, (IH a Hp). reflexivity.
Qed.

Lemma contains_app_l (p a b : string) :
  Str.contains p a = true -> Str.contains p (a ++ b) = true.
Proof.
  induction a as [| x a IH].
  - cbn [Str.contains]. rewrite orb_false_r. intros H.
    destruct p; [destruct b; reflexivity | discriminate H].
  - cbn [Str.contains append]. intros H. apply orb_prop in H as [H | H].
    + pose proof (startswith_app p (String x a) b H) as H'.
      cbn [append] in H'. rewrite H'. reflexivity.
    + rewrite (IH H). apply orb_true_r.
Qed.

Lemma contains_app_r (p a b : string) :
  Str.contains p b = true -> Str.contains p (a ++ b) = true.
Proof.
  intros H. induction a as [| x a IH]; [exact H |].
  cbn [Str.contains append]. rewrite IH. apply orb_true_r.
Qed.

Lemma lower_cup (w : string) :
  Str.lower w = "cup" ->
  exists c1 c2 c3,
    w = String c1 (String c2 (String c3 EmptyString))
    /\ Re.ci "c" c1 = true /\ Re.ci "u" c2 = true /\ Re.ci "p" c3 = true.
Proof.
  destruct w as [| c1 [| c2 [| c3 [| c4 w]]]]; cbn [Str.lower]; intros H;
    try discriminate H.
  injection H as H1 H2 H3.
  exists c1, c2, c3. unfold Re.ci. rewrite H1, H2, H3.
  repeat split; reflexivity.
Qed.

Lemma ci_c_classes (c : ascii) :
  Re.ci "c" c = true ->
  amount_class c = false /\ Str.is_space c = false /\ Re.other ")" c = true.
Proof.
  destruct c as [[] [] [] [] [] [] [] []]; intros H; try discriminate H;
    repeat split; reflexivity.
Qed.

Lemma ci_not_paren (x c : ascii) :
  Re.ci x c = true -> Str.is_lower x = true -> Ascii.eqb c ")" = false.
Proof.
  unfold Re.ci. intros H Hx.
  destruct (Ascii.eqb c ")") eqn:Hc; [| reflexivity].
  apply Ascii.eqb_eq in Hc. subst c.
  apply Ascii.eqb_eq in H. subst x. discriminate Hx.
Qed.

(** A prefix made of characters other than [x] ends before the first [x]. *)
Lemma prefix_before (x : ascii) (a r w s : string) :
  a ++ String x r = w ++ s ->
  Str.all (Re.other x) w = true ->
  exists b, a = w ++ b /\ s = b ++ String x r.
Proof.
  revert a. induction w as [| c w IH]; intros a H Hw.
  - exists a. split; [reflexivity | symmetry; exact H].
  - cbn [Str.all] in Hw. apply andb_prop in Hw as [Hc Hw].
    destruct a as [| c' a]; cbn [append] in H; injection H as -> H.
    + unfold Re.other in Hc. rewrite Ascii.eqb_refl in Hc. discriminate Hc.
    + destruct (IH a H Hw) as (b & -> & ->). exists b. split; reflexivity.
Qed.

Lemma stops_paren (r : string) : stops (Re.other ")") (String ")" r).
Proof. reflexivity. Qed.

(** The tail of [rx_paren] after [cup]: the rest of the body and the closing
    parenthesis. *)
Lemma paren_tail (b post : string) (pos : nat) (c : Re.caps) :
  Str.all (Re.other ")") b = true ->
  Re.greedy (Re.other ")") 0
    (fun s' pos' => Re.run [Re.Close 1; Re.Chr (Re.one ")")] s' pos' c)
    (b ++ String ")" post) pos 0
  = Some (Re.close_group 1 (pos + String.length b) c).
Proof.
  intros Hb.
  apply greedy_longest; [exact Hb | apply stops_paren | lia |].
  reflexivity.
Qed.

(** After the opening parenthesis: the body and what follows it. *)
Lemma paren_body (body post : string) (pos : nat) :
  Str.all (Re.other ")") body = true ->
  (exists w c1 c2 c3 b,
      body = w ++ String c1 (String c2 (String c3 b))
      /\ w <> EmptyString
      /\ Re.ci "c" c1 = true /\ Re.ci "u" c2 = true /\ Re.ci "p" c3 = true) ->
  Re.run rx_paren (String "(" (body ++ String ")" post)) pos Re.no_caps
  = Some (paren_caps pos (String.length body)).
Proof.
  intros Hbody (w & c1 & c2 & c3 & b & Hsplit & Hw & H1 & H2 & H3).
  unfold rx_paren. cbn [Re.run].
  change (Re.one "(" "(") with true. cbv iota.
  match goal with
  | |- Re.greedy _ _ ?f _ _ _ = _ => set (k := f)
  end.
  assert (Hk : forall u v,
             body = u ++ v ->
             k (v ++ String ")" post) (S pos + String.length u)%nat = None
             \/ k (v ++ String ")" post) (S pos + String.length u)%nat
                = Some (paren_caps pos (String.length body))).
  { intros u v Huv. unfold k. cbn [Re.run].
    assert (Hv : Str.all (Re.other ")") v = true).
    { rewrite Huv, all_app in Hbody. apply andb_prop in Hbody as [_ Hv]. exact Hv. }
    destruct v as [| x1 v]; cbn [append]; [left; reflexivity |].
    destruct (Re.ci "c" x1); [| left; reflexivity].
    destruct v as [| x2 v]; cbn [append]; [left; reflexivity |].
    destruct (Re.ci "u" x2); [| left; reflexivity].
    destruct v as [| x3 v]; cbn [append]; [left; reflexivity |].
    destruct (Re.ci "p" x3); [| left; reflexivity].
    right. cbn [Str.all] in Hv.
    apply andb_prop in Hv as [_ Hv]. apply andb_prop in Hv as [_ Hv].
    apply andb_prop in Hv as [_ Hv].
    etransitivity; [exact (paren_tail v post _ _ Hv) |].
    unfold paren_caps.
    rewrite Huv, !length_app. cbn [String.length].
    do 2 f_equal. lia. }
  apply greedy_some_const.
  - intros u s' c' Hs Hu Hc'.
    destruct (prefix_before _ _ _ _ _ Hs Hu) as (v & Huv & ->).
    destruct (Hk u v Huv) as [Hnone | Hsome]; congruence.
  - exists w, (String c1 (String c2 (String c3 b)) ++ String ")" post).
    assert (Hall := Hbody). rewrite Hsplit, all_app in Hall.
    apply andb_prop in Hall as [Hwall Hrest].
    split; [rewrite Hsplit, append_assoc; reflexivity |].
    split; [exact Hwall |].
    split; [destruct w; [contradiction Hw; reflexivity | cbn [String.length]; lia] |].
    destruct (Hk w _ Hsplit) as [Hnone | Hsome]; [| exact Hsome].
    exfalso. unfold k in Hnone. cbn [Re.run append] in Hnone.
    rewrite H1, H2, H3 in Hnone.
    cbn [Str.all] in Hrest.
    apply andb_prop in Hrest as [_ Hrest]. apply andb_prop in Hrest as [_ Hrest].
    apply andb_prop in Hrest as [_ Hrest].
    pose proof (paren_tail b post (S (S (S (S pos + String.length w))))
                  (Re.open_group 1 (S pos) Re.no_caps) Hrest) as Htail.
    cbn [Re.run] in Htail. rewrite Htail in Hnone. discriminate Hnone.
Qed.

Lemma search_from_skip (pre s : string) (pos : nat) :
  Str.all (Re.other "(") pre = true ->
  Re.search_from rx_paren (pre ++ s) pos
  = Re.search_from rx_paren s (pos + String.length pre)%nat.
Proof.
  revert pos. induction pre as [| c pre IH]; intros pos H.
  - cbn [append String.length]. rewrite Nat.add_0_r. reflexivity.
  - cbn [Str.all] in H. apply andb_prop in H as [Hc Hpre].
    cbn [append String.length Re.search_from].
    assert (Hrun : Re.run rx_paren (String c (pre ++ s)) pos Re.no_caps = None).
    { unfold rx_paren. cbn [Re.run].
      unfold Re.other in Hc. apply negb_true_iff in Hc.
      unfold Re.one. rewrite Hc. reflexivity. }
    rewrite Hrun, (IH (S pos) Hpre), Nat.add_succ_r. reflexivity.
Qed.

Lemma lower_app (a b : string) : Str.lower (a ++ b) = Str.lower a ++ Str.lower b.
Proof.
  induction a as [| c a IH]; cbn [append Str.lower]; [| rewrite IH]; reflexivity.
Qed.

Lemma span_rest (p : ascii -> bool) (s a b : string) :
  Lit.span p s = (a, b) -> stops p b.
Proof.
  revert a b. induction s as [| c s IH]; cbn [Lit.span]; intros a b H.
  - injection H as <- <-. exact I.
  - destruct (p c) eqn:Hc.
    + destruct (Lit.span p s) as [a' b'] eqn:E. injection H as <- <-.
      apply (IH a' b' eq_refl).
    + injection H as <- <-. exact Hc.
Qed.

(** The clause pattern fails at an opening parenthesis whose clause does not
    mention a cup. *)
Lemma run_paren_none (s rest : string) (pos : nat) (c : Re.caps) :
  clause_without_cup s = true ->
  Re.run rx_paren (String "(" (s ++ rest)) pos c = None.
Proof.
  unfold clause_without_cup.
  destruct (Lit.span (Re.other ")") s) as [body after] eqn:Hspan.
  intros H. apply andb_prop in H as [Hafter Hcup].
  apply negb_true_iff in Hafter, Hcup.
  destruct (span_spec _ _ _ _ Hspan) as [-> Hbody].
  pose proof (span_rest _ _ _ _ Hspan) as Hstop.
  destruct after as [| x after]; [discriminate Hafter |].
  cbn [stops] in Hstop. unfold Re.other in Hstop. apply negb_false_iff in Hstop.
  apply Ascii.eqb_eq in Hstop. subst x.
  unfold rx_paren. cbn [Re.run]. change (Re.one "(" "(") with true. cbv iota.
  apply greedy_none. intros w s1 Hsplit Hw.
  rewrite append_assoc in Hsplit. cbn [append] in Hsplit.
  destruct (prefix_before ")" body (after ++ rest) w s1 Hsplit Hw) as (b & -> & ->).
  cbn [Re.run].
  destruct b as [| c1 b]; [reflexivity |]. cbn [append].
  destruct (Re.ci "c" c1) eqn:H1; [| reflexivity].
  destruct b as [| c2 b]; [reflexivity |]. cbn [append].
  destruct (Re.ci "u" c2) eqn:H2; [| reflexivity].
  destruct b as [| c3 b]; [reflexivity |]. cbn [append].
  destruct (Re.ci "p" c3) eqn:H3; [| reflexivity].
  exfalso. rewrite lower_app in Hcup. cbn [Str.lower] in Hcup.
  unfold Re.ci in H1, H2, H3.
  apply Ascii.eqb_eq in H1, H2, H3. rewrite H1, H2, H3 in Hcup.
  rewrite contains_app_r in Hcup by reflexivity. discriminate Hcup.
Qed.

(** [re.search] passes over the clauses that do not mention a cup. *)
Lemma search_from_clauses (pre s : string) (pos : nat) :
  no_cup_clause pre = true ->
  Re.search_from rx_paren (pre ++ s) pos
  = Re.search_from rx_paren s (pos + String.length pre)%nat.
Proof.
  revert pos. induction pre as [| c pre IH]; intros pos H.
  - cbn [append String.length]. rewrite Nat.add_0_r. reflexivity.
  - cbn [no_cup_clause] in H. apply andb_prop in H as [Hc Hpre].
    cbn [append String.length Re.search_from].
    assert (Hrun : Re.run rx_paren (String c (pre ++ s)) pos Re.no_caps = None).
    { destruct (Ascii.eqb c "(") eqn:E.
      - apply Ascii.eqb_eq in E. subst c. apply run_paren_none, Hc.
      - unfold rx_paren. cbn [Re.run]. unfold Re.one. rewrite E. reflexivity. }
    rewrite Hrun, (IH (S pos) Hpre), Nat.add_succ_r. reflexivity.
Qed.

(** [re.search] finds the first parenthetical clause that mentions a cup. *)
Lemma search_cup_clause (pre body post : string) :
  no_cup_clause pre = true ->
  Str.all (Re.other ")") body = true ->
  (exists w c1 c2 c3 b,
      body = w ++ String c1 (String c2 (String c3 b))
      /\ w <> EmptyString
      /\ Re.ci "c" c1 = true /\ Re.ci "u" c2 = true /\ Re.ci "p" c3 = true) ->
  exists m,
    Re.search rx_paren (pre ++ String "(" (body ++ String ")" post)) = Some m
    /\ Re.group (pre ++ String "(" (body ++ String ")" post)) m 1 = body.
Proof.
  intros Hpre Hbody Hcup.
  exists (paren_caps (String.length pre) (String.length body)).
  split.
  - unfold Re.search. rewrite (search_from_clauses _ _ _ Hpre).
    cbn [Re.search_from Nat.add].
    rewrite (paren_body body post _ Hbody Hcup). reflexivity.
  - unfold paren_caps. caps_compute.
    replace (S (String.length pre)) with (String.length pre + 1)%nat at 1 by lia.
    rewrite substring_app_skip. cbn [String.substring].
    apply substring_prefix. lia.
Qed.

Lemma no_paren_no_clause (s : string) :
  Str.all (Re.other "(") s = true -> no_cup_clause s = true.
Proof.
  induction s as [| c s IH]; cbn [Str.all no_cup_clause]; [reflexivity |].
  intros H. apply andb_prop in H as [Hc Hs].
  unfold Re.other in Hc. apply negb_true_iff in Hc. rewrite Hc, (IH Hs). reflexivity.
Qed.

(** [rx_amount] on a run of digits, white space and slashes followed by
    [cup]: the first group is the run. *)
Lemma match_amount (amt rest : string) (c1 c2 c3 : ascii) :
  amt <> EmptyString -> Str.all amount_class amt = true ->
  Re.ci "c" c1 = true -> Re.ci "u" c2 = true -> Re.ci "p" c3 = true ->
  exists m,
    Re.match_ rx_amount (amt ++ String c1 (String c2 (String c3 rest))) = Some m
    /\ Re.group (amt ++ String c1 (String c2 (String c3 rest))) m 1 = amt.
Proof.
  intros Hne Hamt H1 H2 H3.
  destruct (ci_c_classes c1 H1) as (Hclass & Hspace & _).
  set (n := String.length amt).
  exists (Re.close_group 2 (S (S (S n)))
            (Re.open_group 2 n
               (Re.close_group 1 n (Re.open_group 1 0 Re.no_caps)))).
  split.
  - unfold Re.match_, rx_amount. cbn [Re.run Nat.eqb].
    apply greedy_longest; [exact Hamt | exact Hclass | |].
    + destruct amt; [contradiction Hne; reflexivity | cbn [String.length]; lia].
    + cbn [Nat.add Re.greedy]. rewrite Hspace, H1, H2, H3. reflexivity.
  - caps_compute. apply substring_prefix. unfold n. lia.
Qed.

(** C5.  The parenthetical cup is not always preferred.  The amount of the
    clause is matched by a pattern of digits, white space and slashes that
    lacks the decimal point which the pattern of the standard form accepts:
    a clause that begins with an amount written with a point, or with a
    glyph, is passed over although [parse_fraction] parses the amount, and
    the primary clause is returned.
    [parse_volume_text("8 tablespoons (0.5 cup)") = (8.0, "tablespoons")],
    where the docstring has the cup of the parentheses preferred.
    Elsewhere the claim holds.  Take the text without soft hyphens,
    trimmed, and the first of its parenthetical clauses that mentions a
    cup: when the clause, trimmed, begins with a non-empty run of digits,
    white space and slashes that [parse_fraction] parses, immediately
    followed by "cup" in any case, [parse_volume_text] returns the amount of
    the run with the unit "cup", whatever the primary clause says.
    [parse_volume_text("8 tablespoons (1/2 cup)") = (0.5, "cup")],
    [parse_volume_text("1 stick (softened) (1/2 cup)") = (0.5, "cup")] and
    [parse_volume_text("1/4 cup") = (0.25, "cup")]. *)
Theorem parse_volume_text_parenthetical_cup
    (text pre body post amt cup rest : string) (a : Float.float) :
  Str.strip (Str.remove soft_hyphen text) = pre ++ "(" ++ body ++ ")" ++ post ->
  no_cup_clause pre = true ->
  Str.all (Re.other ")") body = true ->
  Str.strip body = amt ++ cup ++ rest ->
  amt <> EmptyString ->
  Str.all amount_class amt = true ->
  Str.lower cup = "cup" ->
  parse_fraction amt = Ok (Some a) ->
  parse_volume_text text = Ok (Some a, Some "cup")
  /\ parse_volume_text "8 tablespoons (1/2 cup)"
     = Ok (Some (Float.of_decimal 5 (-1)), Some "cup")
  /\ parse_volume_text "1 stick (softened) (1/2 cup)"
     = Ok (Some (Float.of_decimal 5 (-1)), Some "cup")
  /\ parse_volume_text "1/4 cup" = Ok (Some (Float.of_decimal 25 (-2)), Some "cup")
  /\ parse_fraction "0.5" = Ok (Some (Float.of_decimal 5 (-1)))
  /\ parse_volume_text "8 tablespoons (0.5 cup)"
     = Ok (Some (Float.of_Z 8), Some "tablespoons")
  /\ parse_fraction "½" = Ok (Some (Float.of_decimal 5 (-1)))
  /\ parse_volume_text "8 tablespoons (½ cup)"
     = Ok (Some (Float.of_Z 8), Some "tablespoons").
Proof.
  intros Htext Hpre Hbody Hinner Hne Hamt Hcup Ha.
  split; [| repeat apply conj; vm_compute; reflexivity].
  destruct (lower_cup cup Hcup) as (c1 & c2 & c3 & -> & H1 & H2 & H3).
  cbn [append] in Hinner.
  assert (Hclause : exists w x1 x2 x3 b,
             body = w ++ String x1 (String x2 (String x3 b))
             /\ w <> EmptyString
             /\ Re.ci "c" x1 = true /\ Re.ci "u" x2 = true /\ Re.ci "p" x3 = true).
  { destruct (strip_split body) as (lead & trail & Hsplit).
    exists (lead ++ amt), c1, c2, c3, (rest ++ trail).
    split; [| split; [| auto]].
    - rewrite Hsplit at 1. rewrite Hinner, !append_assoc. reflexivity.
    - destruct lead; [exact Hne | discriminate]. }
  destruct (search_cup_clause pre body post Hpre Hbody Hclause) as (m & Hm & Hgroup).
  destruct (match_amount amt rest c1 c2 c3 Hne Hamt H1 H2 H3) as (m' & Hm' & Hgroup').
  unfold parse_volume_text. rewrite Htext. cbn [append].
  rewrite Hm, Hgroup, Hinner, Hm', Hgroup', Ha. reflexivity.
Qed.

Lemma parse_volume_text_parenthetical_cup_witness :
  parse_volume_text "1 stick (softened) ( 1/2 Cup butter) " =
    Ok (Some (Float.of_decimal 5 (-1)), Some "cup").
Proof.
  apply (proj1 (parse_volume_text_parenthetical_cup
                  "1 stick (softened) ( 1/2 Cup butter) "
                  "1 stick (softened) " " 1/2 Cup butter" EmptyString
                  "1/2 " "Cup" " butter"
                  (Float.of_decimal 5 (-1))
                  ltac:(vm_compute; reflexivity) ltac:(vm_compute; reflexivity)
                  ltac:(vm_compute; reflexivity) ltac:(vm_compute; reflexivity)
                  ltac:(discriminate) ltac:(vm_compute; reflexivity)
                  ltac:(vm_compute; reflexivity) ltac:(vm_compute; reflexivity))).
Defined.

Lemma parse_standard_unit (text : string) (a : option Float.float)
    (u : option string) :
  parse_standard text = Ok (a, u) -> u = None -> a = None.
Proof.
  unfold parse_standard.
  destruct (Re.match_ rx_standard text) as [m |].
  - intros H. apply bind_ok in H as (amt & _ & H). injection H as <- <-.
    discriminate.
  - intros H. injection H as <- <-. reflexivity.
Qed.

(** C9.  The standard form returns the unit it found together with an
    undefined magnitude when the numeric lead does not parse: the check
    [amt is not None] of the parenthetical branch is missing here.  The
    other half of the claim holds: a defined magnitude always comes with a
    defined unit. *)
Theorem parse_volume_text_unit_without_magnitude (text : string)
    (a : option Float.float) (u : option string) :
  parse_volume_text text = Ok (a, u) ->
  (u = None -> a = None)
  /\ parse_volume_text "1.2.3 cup" = Ok (None, Some "cup")
  /\ parse_volume_text "1/2/3 tablespoons" = Ok (None, Some "tablespoons").
Proof.
  intros H. split; [| split; vm_compute; reflexivity].
  unfold parse_volume_text in H.
  destruct (Re.search rx_paren _) as [pm |]; [| apply (parse_standard_unit _ _ _ H)].
  destruct (Re.match_ rx_amount _) as [am |]; [| apply (parse_standard_unit _ _ _ H)].
  apply bind_ok in H as ([amt |] & _ & H); [| apply (parse_standard_unit _ _ _ H)].
  injection H as <- <-. discriminate.
Qed.

Lemma parse_volume_text_unit_without_magnitude_witness :
  (@None string = None -> @None Float.float = None)
  /\ parse_volume_text "1.2.3 cup" = Ok (None, Some "cup")
  /\ parse_volume_text "1/2/3 tablespoons" = Ok (None, Some "tablespoons").
Proof.
  apply (parse_volume_text_unit_without_magnitude "a pinch" None None).
  vm_compute; reflexivity.
Defined.

(** ** Decimal text of an integer *)

Lemma digits_value_uint_acc (d : Decimal.uint) (acc : positive) :
  Str.digits_value (Zpos acc) (NilEmpty.string_of_uint d)
  = Zpos (Pos.of_uint_acc d acc).
Proof.
  revert acc. induction d; intros acc;
    cbn [NilEmpty.string_of_uint Str.digits_value Pos.of_uint_acc];
    [reflexivity | rewrite <- IHd; f_equal; vm_compute Str.digit_value; lia ..].
Qed.

Lemma digits_value_uint (d : Decimal.uint) :
  Str.digits_value 0 (NilEmpty.string_of_uint d) = Z.of_N (Pos.of_uint d).
Proof.
  induction d; cbn [NilEmpty.string_of_uint Str.digits_value Pos.of_uint];
    [reflexivity | exact IHd
    | cbn [Z.of_N]; rewrite <- digits_value_uint_acc; reflexivity ..].
Qed.

Lemma uint_all_digits (d : Decimal.uint) :
  Str.all Str.is_digit (NilEmpty.string_of_uint d) = true.
Proof.
  induction d; cbn [NilEmpty.string_of_uint Str.all]; [reflexivity | exact IHd ..].
Qed.

(** [int(str(n)) = n], and [str(n)] is a non-empty run of digits, for
    [n >= 0]. *)
Lemma of_Z_digits (n : Z) :
  0 <= n ->
  Str.of_Z n <> EmptyString
  /\ Str.all Str.is_digit (Str.of_Z n) = true
  /\ Lit.int_of_digits (Str.of_Z n) = n.
Proof.
  intros Hn. destruct n as [| p | p]; [| | lia].
  - repeat split. discriminate.
  - assert (Hval : Lit.int_of_digits (Str.of_Z (Zpos p)) = Zpos p).
    { unfold Lit.int_of_digits, Str.of_Z.
      rewrite digits_value_uint, DecimalPos.Unsigned.of_to. reflexivity. }
    split; [| split; [apply uint_all_digits | exact Hval]].
    intros E. rewrite E in Hval. discriminate Hval.
Qed.

(** ** parse_fraction after format_amount *)

Lemma contains_after (p : ascii -> bool) (c0 : ascii) (r a b : string) :
  Str.all p a = true -> p c0 = false ->
  Str.contains (String c0 r) (a ++ b) = Str.contains (String c0 r) b.
Proof.
  intros Ha Hc0. revert Ha. induction a as [| c a IH]; intros Ha; [reflexivity |].
  cbn [Str.all] in Ha. apply andb_prop in Ha as [Hc Ha].
  cbn [append Str.contains Str.startswith].
  destruct (Ascii.eqb c0 c) eqn:E.
  - apply Ascii.eqb_eq in E. subst c. rewrite Hc in Hc0. discriminate Hc0.
  - cbn [andb orb]. apply (IH Ha).
Qed.

Lemma remove_after (p : ascii -> bool) (c0 : ascii) (r a b : string) :
  Str.all p a = true -> p c0 = false ->
  Str.remove (String c0 r) (a ++ b) = a ++ Str.remove (String c0 r) b.
Proof.
  intros Ha Hc0. revert Ha. unfold Str.remove.
  induction a as [| c a IH]; intros Ha; [reflexivity |].
  cbn [Str.all] in Ha. apply andb_prop in Ha as [Hc Ha].
  cbn [append Str.remove_from Str.startswith].
  destruct (Ascii.eqb c0 c) eqn:E.
  - apply Ascii.eqb_eq in E. subst c. rewrite Hc in Hc0. discriminate Hc0.
  - cbn [andb]. rewrite (IH Ha). reflexivity.
Qed.

Lemma digits_digit_or_space (s : string) :
  Str.all Str.is_digit s = true -> Str.all digit_or_space s = true.
Proof.
  apply all_impl. intros c Hc. unfold digit_or_space. rewrite Hc. reflexivity.
Qed.

(** A text that begins with a digit and whose tail [b] is not changed by
    [rstrip] is not changed by [strip]. *)
Lemma strip_digits_then (ds b : string) :
  ds <> EmptyString -> Str.all Str.is_digit ds = true ->
  b <> EmptyString -> Str.rstrip_with Str.is_space b = b ->
  Str.strip (ds ++ b) = ds ++ b.
Proof.
  intros Hne Hds Hb Hfix. unfold Str.strip, Str.strip_with.
  assert (Hlead : Str.lstrip_with Str.is_space (ds ++ b) = ds ++ b).
  { destruct ds as [| c ds]; [contradiction Hne; reflexivity |].
    cbn [Str.all] in Hds. apply andb_prop in Hds as [Hc _].
    cbn [append Str.lstrip_with]. rewrite (digit_not_space c Hc). reflexivity. }
  rewrite Hlead. clear Hlead Hne Hds.
  induction ds as [| c ds IH]; cbn [append Str.rstrip_with]; [exact Hfix |].
  rewrite IH.
  replace (Str.is_empty (ds ++ b)) with false; [rewrite andb_false_r; reflexivity |].
  destruct ds; [destruct b; [contradiction Hb |] |]; reflexivity.
Qed.

Lemma strip_digits_space (ds : string) :
  ds <> EmptyString -> Str.all Str.is_digit ds = true ->
  Str.strip (ds ++ " ") = ds.
Proof.
  intros Hne Hds. unfold Str.strip, Str.strip_with.
  assert (Hlead : Str.lstrip_with Str.is_space (ds ++ " ") = ds ++ " ").
  { destruct ds as [| c ds]; [contradiction Hne; reflexivity |].
    cbn [Str.all] in Hds. apply andb_prop in Hds as [Hc _].
    cbn [append Str.lstrip_with]. rewrite (digit_not_space c Hc). reflexivity. }
  rewrite Hlead. clear Hlead Hne.
  induction ds as [| c ds IH]; [reflexivity |].
  cbn [Str.all] in Hds. apply andb_prop in Hds as [Hc Hds].
  cbn [append Str.rstrip_with]. rewrite (IH Hds), (digit_not_space c Hc).
  reflexivity.
Qed.

Ltac eval_contains :=
  repeat match goal with
         | |- context [Str.contains ?a (String ?c ?b)] =>
             let v := eval vm_compute in (Str.contains a (String c b)) in
             change (Str.contains a (String c b)) with v
         end.

(** A whole part, a space and a glyph: the first rule of [parse_fraction]. *)
Lemma parse_fraction_whole_glyph (ds : string) (val : Float.float) (symbol : string) :
  ds <> EmptyString -> Str.all Str.is_digit ds = true ->
  In (val, symbol) DISPLAY_FRACTIONS ->
  parse_fraction (ds ++ " " ++ symbol)
  = Ok (Some (Float.add (Float.of_Z (Lit.int_of_digits ds)) val)).
Proof.
  intros Hne Hds Hin.
  pose proof (digits_digit_or_space ds Hds) as Hclass.
  unfold DISPLAY_FRACTIONS in Hin. cbn [In] in Hin.
  repeat (destruct Hin as [Hin | Hin];
          [ injection Hin as <- <-;
            unfold parse_fraction;
            rewrite (strip_digits_then ds _ Hne Hds)
              by (discriminate || (vm_compute; reflexivity));
            unfold UNICODE_FRACTIONS; cbn [glyph_loop];
            rewrite !(contains_after digit_or_space _ _ ds _ Hclass) by reflexivity;
            cbn [append]; eval_contains; cbv iota;
            rewrite (remove_after digit_or_space _ _ ds _ Hclass) by reflexivity;
            match goal with
            | |- context [Str.remove ?a (String ?c ?b)] =>
                let v := eval vm_compute in (Str.remove a (String c b)) in
                change (Str.remove a (String c b)) with v
            end;
            rewrite (strip_digits_space ds Hne Hds), (is_empty_false ds Hne);
            unfold Lit.float_of_str; rewrite (parse_digits ds Hne Hds);
            reflexivity
          | ]).
  contradiction.
Qed.

Lemma render_positive (n : Z) (symbol : string) :
  0 < n -> render n symbol = Str.of_Z n ++ " " ++ symbol.
Proof.
  intros Hn. unfold render.
  destruct (n =? 0) eqn:E; [apply Z.eqb_eq in E; lia | reflexivity].
Qed.

Lemma parse_fraction_bare_glyph (val : Float.float) (symbol : string) :
  In (val, symbol) DISPLAY_FRACTIONS ->
  parse_fraction symbol = Ok (Some (Float.add (Float.of_Z 0) val)).
Proof.
  unfold DISPLAY_FRACTIONS. cbn [In]. intros Hin.
  repeat (destruct Hin as [Hin | Hin];
          [injection Hin as <- <-; vm_compute; reflexivity |]).
  contradiction.
Qed.

(** X1.  Parsing undoes rendering: for every whole part [n >= 0] and each
    of the nine display fractions, [parse_fraction] reads the text
    [f"{n} {symbol}"] (the bare symbol when [n] is 0) back as [n] plus the
    value of the symbol. *)
Theorem parse_fraction_of_render (n : Z) (val : Float.float) (symbol : string) :
  0 <= n -> In (val, symbol) DISPLAY_FRACTIONS ->
  parse_fraction (render n symbol) = Ok (Some (Float.add (Float.of_Z n) val)).
Proof.
  intros Hn Hin.
  destruct (Z.eq_dec n 0) as [-> | Hnz].
  - apply parse_fraction_bare_glyph, Hin.
  - rewrite render_positive by lia.
    destruct (of_Z_digits n Hn) as (Hne & Hds & Hval).
    rewrite (parse_fraction_whole_glyph _ _ _ Hne Hds Hin), Hval. reflexivity.
Qed.

Lemma parse_fraction_of_render_witness :
  parse_fraction (render 12 "⅝")
  = Ok (Some (Float.add (Float.of_Z 12) (Float.of_decimal 625 (-3)))).
Proof.
  apply (parse_fraction_of_render 12 (Float.of_decimal 625 (-3)) "⅝"); [lia |].
  unfold DISPLAY_FRACTIONS. cbn [In]. tauto.
Defined.

Lemma sevenths_display (val : Float.float) (symbol : string) :
  In (val, symbol) sevenths -> In (val, symbol) DISPLAY_FRACTIONS.
Proof.
  unfold sevenths, DISPLAY_FRACTIONS. cbn [In]. intuition.
Qed.

(** X2.  Formatting then parsing gives the number back: for a whole part
    [0 <= n < 512] and each display fraction but three and five eighths,
    [parse_fraction(format_amount(n + val))] is [n + val]. *)
Theorem parse_fraction_of_format_amount (n : Z) (val : Float.float) (symbol : string) :
  0 <= n < 512 -> In (val, symbol) sevenths ->
  (s <- format_amount (Some (Float.add (Float.of_Z n) val)) ;; parse_fraction s)
  = Ok (Some (Float.add (Float.of_Z n) val)).
Proof.
  intros Hn Hin.
  rewrite (format_amount_round_trip n val symbol Hn Hin). cbn [Py.bind].
  apply sevenths_display in Hin.
  destruct (Z.eq_dec n 0) as [-> | Hnz].
  - apply parse_fraction_bare_glyph, Hin.
  - rewrite render_positive by lia.
    destruct (of_Z_digits n ltac:(lia)) as (Hne & Hds & Hval).
    rewrite (parse_fraction_whole_glyph _ _ _ Hne Hds Hin), Hval. reflexivity.
Qed.

Lemma parse_fraction_of_format_amount_witness :
  (s <- format_amount (Some (Float.add (Float.of_Z 3) (Float.div_Z 2 3))) ;;
   parse_fraction s)
  = Ok (Some (Float.add (Float.of_Z 3) (Float.div_Z 2 3))).
Proof.
  apply (parse_fraction_of_format_amount 3 (Float.div_Z 2 3) "⅔"); [lia |].
  unfold sevenths. cbn [In]. tauto.
Defined.

(** ** Units *)

Lemma lower_char_idem (c : ascii) : Str.lower_char (Str.lower_char c) = Str.lower_char c.
Proof. destruct c as [[] [] [] [] [] [] [] []]; reflexivity. Qed.

Lemma lower_idem (s : string) : Str.lower (Str.lower s) = Str.lower s.
Proof.
  induction s as [| c s IH]; cbn [Str.lower]; [reflexivity |].
  rewrite lower_char_idem, IH. reflexivity.
Qed.

Lemma unit_lower_some (w : string) : unit_lower (Some w) = Str.lower w.
Proof. destruct w; reflexivity. Qed.

Lemma normalize_unit_cases (w : string) :
  (In w ["tablespoon"; "tablespoons"] /\ normalize_unit w = "tablespoons")
  \/ (In w ["teaspoon"; "teaspoons"] /\ normalize_unit w = "teaspoons")
  \/ (In w ["cup"; "cups"] /\ normalize_unit w = "cup")
  \/ normalize_unit w = w.
Proof.
  unfold normalize_unit.
  destruct (String.eqb w "tablespoon") eqn:E1;
    [apply String.eqb_eq in E1; left; split; [left; symmetry; exact E1 | reflexivity] |].
  destruct (String.eqb w "tablespoons") eqn:E2;
    [apply String.eqb_eq in E2; left; split; [right; left; symmetry; exact E2 | reflexivity] |].
  destruct (String.eqb w "teaspoon") eqn:E3;
    [apply String.eqb_eq in E3; right; left; split; [left; symmetry; exact E3 | reflexivity] |].
  destruct (String.eqb w "teaspoons") eqn:E4;
    [apply String.eqb_eq in E4; right; left; split; [right; left; symmetry; exact E4 | reflexivity] |].
  destruct (String.eqb w "cup") eqn:E5;
    [apply String.eqb_eq in E5; right; right; left; split; [left; symmetry; exact E5 | reflexivity] |].
  destruct (String.eqb w "cups") eqn:E6;
    [apply String.eqb_eq in E6; right; right; left; split; [right; left; symmetry; exact E6 | reflexivity] |].
  right; right; right. reflexivity.
Qed.

Lemma normalize_unit_factor (w : string) :
  get TO_CUPS (normalize_unit w) = get TO_CUPS w
  /\ Str.lower (normalize_unit (Str.lower w)) = normalize_unit (Str.lower w).
Proof.
  destruct (normalize_unit_cases w) as [[Hin ->] | [[Hin ->] | [[Hin ->] | ->]]];
    (split; [|]);
    try reflexivity;
    try (cbn [In] in Hin; destruct Hin as [<- | [<- | []]]; reflexivity).
  all: destruct (normalize_unit_cases (Str.lower w))
      as [[_ ->] | [[_ ->] | [[_ ->] | ->]]]; try reflexivity; apply lower_idem.
Qed.

(** X3.  The unit that [parse_volume_text] reports converts like the unit
    of the text: [normalize_unit] is idempotent, and [to_weight] and
    [normalize_to_grams_per_cup] return for the normalized, lowercased unit
    what they return for the unit as written. *)
Theorem normalize_unit_converts_alike (w : string)
    (amount density grams : option Float.float) :
  normalize_unit (normalize_unit w) = normalize_unit w
  /\ to_weight amount (Some (normalize_unit (Str.lower w))) density
     = to_weight amount (Some w) density
  /\ normalize_to_grams_per_cup amount (Some (normalize_unit (Str.lower w))) grams
     = normalize_to_grams_per_cup amount (Some w) grams.
Proof.
  split; [| split].
  - destruct (normalize_unit_cases w) as [[_ ->] | [[_ ->] | [[_ ->] | H]]];
      [reflexivity .. | rewrite H; exact H].
  - unfold to_weight. rewrite !unit_lower_some.
    rewrite (proj2 (normalize_unit_factor w)), (proj1 (normalize_unit_factor _)).
    reflexivity.
  - unfold normalize_to_grams_per_cup. rewrite !unit_lower_some.
    rewrite (proj2 (normalize_unit_factor w)), (proj1 (normalize_unit_factor _)).
    reflexivity.
Qed.

Lemma normalize_unit_converts_alike_witness :
  to_weight (Some (Float.of_Z 3)) (Some (normalize_unit (Str.lower "TableSpoon")))
            (Some (Float.of_Z 200))
  = to_weight (Some (Float.of_Z 3)) (Some "TableSpoon") (Some (Float.of_Z 200)).
Proof.
  apply (proj1 (proj2 (normalize_unit_converts_alike
                         "TableSpoon" (Some (Float.of_Z 3))
                         (Some (Float.of_Z 200)) None))).
Defined.

(** ** Fractions written with digits *)

Lemma nonempty_length (s : string) : s <> EmptyString -> (1 <= String.length s)%nat.
Proof.
  destruct s; [intros H; contradiction H; reflexivity | cbn [String.length]; lia].
Qed.

Lemma stops_nonempty_digits (p : ascii -> bool) (s r : string) :
  (forall c, Str.is_digit c = true -> p c = false) ->
  s <> EmptyString -> Str.all Str.is_digit s = true -> stops p (s ++ r).
Proof.
  intros Hp Hne Hs. destruct s as [| c s]; [contradiction Hne; reflexivity |].
  cbn [Str.all] in Hs. apply andb_prop in Hs as [Hc _].
  cbn [append stops]. apply Hp, Hc.
Qed.

Lemma match_mixed_number (w n d : string) :
  w <> EmptyString -> n <> EmptyString -> d <> EmptyString ->
  Str.all Str.is_digit w = true -> Str.all Str.is_digit n = true ->
  Str.all Str.is_digit d = true ->
  exists m,
    Re.match_ rx_mixed (w ++ " " ++ n ++ "/" ++ d) = Some m
    /\ Re.group (w ++ " " ++ n ++ "/" ++ d) m 1 = w
    /\ Re.group (w ++ " " ++ n ++ "/" ++ d) m 2 = n
    /\ Re.group (w ++ " " ++ n ++ "/" ++ d) m 3 = d.
Proof.
  intros Hw Hn Hd Hwd Hnd Hdd.
  set (a := String.length w). set (b := String.length n).
  exists (Re.close_group 3 (S (a + 1 + b) + String.length d)
            (Re.open_group 3 (S (a + 1 + b))
               (Re.close_group 2 (a + 1 + b)
                  (Re.open_group 2 (a + 1)
                     (Re.close_group 1 a (Re.open_group 1 0 Re.no_caps)))))).
  split; [| split; [| split]].
  - unfold Re.match_, rx_mixed. cbn [Re.run Nat.eqb append].
    apply greedy_longest;
      [exact Hwd | reflexivity | apply nonempty_length in Hw; lia |].
    cbn [Re.run Nat.add]. fold a.
    apply (greedy_longest Str.is_space 1 _ " " (n ++ String "/" d));
      [reflexivity | apply stops_nonempty_digits; [exact digit_not_space | exact Hn | exact Hnd]
      | cbn [String.length]; lia |].
    cbn [Re.run String.length].
    apply greedy_longest;
      [exact Hnd | reflexivity | apply nonempty_length in Hn; lia |].
    cbn [Re.run]. change (Re.one "/" "/") with true. cbv iota. fold b.
    rewrite <- (append_empty d) at 1.
    apply greedy_longest;
      [exact Hdd | exact I | apply nonempty_length in Hd; lia |].
    cbn [Re.run Re.at_end]. reflexivity.
  - caps_compute. apply substring_prefix. unfold a. lia.
  - caps_compute. cbn [append].
    replace (a + 1 + b - (a + 1))%nat with b by lia.
    replace (a + 1)%nat with (S a) by lia.
    apply substring_after; reflexivity.
  - caps_compute. cbn [append].
    replace (S (a + 1 + b) + String.length d - S (a + 1 + b))%nat
      with (String.length d) by lia.
    replace (S (a + 1 + b)) with (a + S (S b))%nat by lia.
    unfold a. rewrite substring_app_skip. cbn [String.substring].
    rewrite <- (append_empty d) at 2.
    replace (S b) with (S (String.length n)) by reflexivity.
    apply (substring_after n d EmptyString "/"); reflexivity.
Qed.

Lemma glyph_loop_mixed (s : string) :
  Str.all mixed_class s = true -> glyph_loop UNICODE_FRACTIONS s = None.
Proof.
  intros H. unfold UNICODE_FRACTIONS. cbn [glyph_loop].
  rewrite !(contains_head _ _ s mixed_class) by (reflexivity || exact H).
  reflexivity.
Qed.

Lemma digit_mixed (s : string) :
  Str.all Str.is_digit s = true -> Str.all mixed_class s = true.
Proof.
  apply all_impl. intros c Hc. unfold mixed_class, plain. rewrite Hc. reflexivity.
Qed.

Lemma parse_fraction_simple (n d : string) :
  n <> EmptyString -> d <> EmptyString ->
  Str.all Str.is_digit n = true -> Str.all Str.is_digit d = true ->
  parse_fraction (n ++ "/" ++ d) = (q <- Num.int_truediv (Lit.int_of_digits n) (Lit.int_of_digits d) ;; Ok (Some q)).
Proof.
  intros Hn Hd Hnd Hdd. cbn [append].
  pose proof (plain_fraction n d Hnd Hdd) as Hp.
  destruct (match_simple_fraction n d Hn Hd Hnd Hdd) as (m & Hm & H1 & H2).
  unfold parse_fraction.
  rewrite (strip_plain _ Hp), (glyph_loop_plain _ Hp), (match_mixed_plain _ Hp).
  rewrite Hm, H1, H2. reflexivity.
Qed.

Lemma parse_fraction_mixed (w n d : string) :
  w <> EmptyString -> n <> EmptyString -> d <> EmptyString ->
  Str.all Str.is_digit w = true -> Str.all Str.is_digit n = true ->
  Str.all Str.is_digit d = true ->
  parse_fraction (w ++ " " ++ n ++ "/" ++ d)
  = (q <- Num.int_truediv (Lit.int_of_digits n) (Lit.int_of_digits d) ;;
     whole <- Num.float_of_int (Lit.int_of_digits w) ;;
     Ok (Some (Float.add whole q))).
Proof.
  intros Hw Hn Hd Hwd Hnd Hdd.
  destruct (match_mixed_number w n d Hw Hn Hd Hwd Hnd Hdd) as (m & Hm & H1 & H2 & H3).
  assert (Hclass : Str.all mixed_class (w ++ " " ++ n ++ "/" ++ d) = true).
  { rewrite !all_app. cbn [Str.all append].
    rewrite (digit_mixed w Hwd), (digit_mixed n Hnd), (digit_mixed d Hdd).
    reflexivity. }
  assert (Hstrip : Str.strip (w ++ " " ++ n ++ "/" ++ d) = w ++ " " ++ n ++ "/" ++ d).
  { replace (w ++ " " ++ n ++ "/" ++ d) with (w ++ (" " ++ n ++ "/") ++ d)
      by (cbn [append]; rewrite append_assoc; reflexivity).
    apply strip_between_digits; assumption. }
  unfold parse_fraction.
  rewrite Hstrip, (glyph_loop_mixed _ Hclass), Hm, H1, H2, H3. reflexivity.
Qed.

(** X4.  The digit forms of [parse_fraction]: on [n/d] and on [w n/d],
    with [w], [n] and [d] non-empty runs of digits, the call raises
    [ZeroDivisionError] when [d] writes zero and [OverflowError] when the
    quotient or the whole part is beyond the floats; otherwise it returns
    the correctly rounded quotient, added to the whole part in the mixed
    form. *)
Theorem parse_fraction_digit_forms (w n d : string) :
  w <> EmptyString -> n <> EmptyString -> d <> EmptyString ->
  Str.all Str.is_digit w = true -> Str.all Str.is_digit n = true ->
  Str.all Str.is_digit d = true ->
  (Lit.int_of_digits d = 0 ->
   parse_fraction (n ++ "/" ++ d) = Raise ZeroDivisionError
   /\ parse_fraction (w ++ " " ++ n ++ "/" ++ d) = Raise ZeroDivisionError)
  /\ (Lit.int_of_digits d <> 0 ->
      Float.is_inf (Float.div_Z (Lit.int_of_digits n) (Lit.int_of_digits d)) = true ->
      parse_fraction (n ++ "/" ++ d) = Raise OverflowError
      /\ parse_fraction (w ++ " " ++ n ++ "/" ++ d) = Raise OverflowError)
  /\ (Lit.int_of_digits d <> 0 ->
      Float.is_inf (Float.div_Z (Lit.int_of_digits n) (Lit.int_of_digits d)) = false ->
      parse_fraction (n ++ "/" ++ d)
      = Ok (Some (Float.div_Z (Lit.int_of_digits n) (Lit.int_of_digits d)))
      /\ parse_fraction (w ++ " " ++ n ++ "/" ++ d)
         = if Float.is_inf (Float.of_Z (Lit.int_of_digits w))
           then Raise OverflowError
           else Ok (Some (Float.add
                            (Float.of_Z (Lit.int_of_digits w))
                            (Float.div_Z (Lit.int_of_digits n) (Lit.int_of_digits d))))).
Proof.
  intros Hw Hn Hd Hwd Hnd Hdd.
  rewrite (parse_fraction_simple n d Hn Hd Hnd Hdd),
    (parse_fraction_mixed w n d Hw Hn Hd Hwd Hnd Hdd).
  unfold Num.int_truediv, Num.float_of_int.
  split; [| split].
  - intros ->. split; reflexivity.
  - intros Hz Hinf. apply Z.eqb_neq in Hz. rewrite Hz, Hinf. split; reflexivity.
  - intros Hz Hfin. apply Z.eqb_neq in Hz. rewrite Hz, Hfin. cbn [Py.bind].
    split; [reflexivity |].
    destruct (Float.is_inf (Float.of_Z (Lit.int_of_digits w))); reflexivity.
Qed.

Lemma parse_fraction_digit_forms_witness :
  parse_fraction "3/4" = Ok (Some (Float.div_Z 3 4))
  /\ parse_fraction "2 3/4" = Ok (Some (Float.add (Float.of_Z 2) (Float.div_Z 3 4))).
Proof.
  apply (proj2 (proj2 (parse_fraction_digit_forms "2" "3" "4"
                         ltac:(discriminate) ltac:(discriminate) ltac:(discriminate)
                         eq_refl eq_refl eq_refl)));
    [discriminate | reflexivity].
Defined.

(** ** The standard form of a volume *)

Lemma label_classes (c : ascii) :
  label c = true ->
  Ascii.eqb (ascii_of_N 194) c = false /\ Re.other "(" c = true.
Proof.
  destruct c as [[] [] [] [] [] [] [] []]; intros H; try discriminate H;
    split; reflexivity.
Qed.

Lemma alpha_classes (c : ascii) :
  is_alpha c = true ->
  Str.is_space c = false /\ standard_class c = false /\ Str.is_word c = true.
Proof.
  destruct c as [[] [] [] [] [] [] [] []]; intros H; try discriminate H;
    repeat split; reflexivity.
Qed.

Lemma remove_absent (p : ascii -> bool) (c0 : ascii) (r s : string) :
  Str.all p s = true -> p c0 = false -> Str.remove (String c0 r) s = s.
Proof.
  intros Hs Hc0. rewrite <- (append_empty s) at 1.
  rewrite (remove_after p c0 r s EmptyString Hs Hc0). apply append_empty.
Qed.

Lemma search_paren_none (s : string) :
  Str.all (Re.other "(") s = true -> Re.search rx_paren s = None.
Proof.
  intros H. unfold Re.search. rewrite <- (append_empty s).
  rewrite (search_from_skip s EmptyString 0 H). reflexivity.
Qed.

Lemma rstrip_before (p q : ascii -> bool) (a r : string) :
  (forall c, p c = true -> q c = false) ->
  r <> EmptyString -> Str.all p r = true ->
  Str.rstrip_with q (a ++ r) = a ++ r.
Proof.
  intros Hpq Hr Hrp. induction a as [| c a IH]; cbn [append Str.rstrip_with].
  - apply (rstrip_all_not _ _ r Hpq Hrp).
  - rewrite IH.
    replace (Str.is_empty (a ++ r)) with false; [rewrite andb_false_r; reflexivity |].
    destruct a; [destruct r; [contradiction Hr |]|]; reflexivity.
Qed.

Lemma plain_standard (s : string) :
  Str.all plain s = true -> Str.all standard_class s = true.
Proof.
  apply all_impl. intros c. unfold plain, standard_class.
  destruct (Str.is_digit c), (Re.one "/" c); cbn; try discriminate;
    intros _; rewrite ?orb_true_r; reflexivity.
Qed.

Lemma match_standard (amt u : string) :
  amt <> EmptyString -> u <> EmptyString ->
  Str.all plain amt = true -> Str.all is_alpha u = true ->
  exists m,
    Re.match_ rx_standard (amt ++ " " ++ u) = Some m
    /\ Re.group (amt ++ " " ++ u) m 1 = amt
    /\ Re.group (amt ++ " " ++ u) m 2 = u.
Proof.
  intros Hamt Hu Hap Hua.
  assert (Hstop : forall q, (forall c, is_alpha c = true -> q c = false) -> stops q u).
  { intros q Hq. destruct u as [| c u]; [exact I |].
    cbn [Str.all] in Hua. apply andb_prop in Hua as [Hc _]. apply Hq, Hc. }
  set (n := String.length amt).
  exists (Re.close_group 2 (S n + String.length u)
            (Re.open_group 2 (S n)
               (Re.close_group 1 n (Re.open_group 1 0 Re.no_caps)))).
  split; [| split].
  - unfold Re.match_, rx_standard. cbn [Re.run Nat.eqb append].
    apply greedy_give_back;
      [apply plain_standard, Hap | reflexivity
      | apply Hstop; intros c Hc; apply (alpha_classes c Hc)
      | apply nonempty_length in Hamt; lia | |].
    + cbn [Re.run]. rewrite greedy_stop; [reflexivity |].
      apply Hstop. intros c Hc. apply (alpha_classes c Hc).
    + cbn [Re.run Nat.add].
      apply (greedy_longest Str.is_space 1 _ " " u);
        [reflexivity | apply Hstop; intros c Hc; apply (alpha_classes c Hc)
        | cbn [String.length]; lia |].
      cbn [Re.run String.length]. rewrite <- (append_empty u) at 1.
      apply greedy_longest;
        [apply (all_impl is_alpha); [intros c Hc; apply (alpha_classes c Hc) | exact Hua]
        | exact I | apply nonempty_length in Hu; lia |].
      cbn [Re.run]. fold n. rewrite Nat.add_1_r. reflexivity.
  - caps_compute. apply substring_prefix. unfold n. lia.
  - caps_compute. cbn [append].
    replace (S n + String.length u - S n)%nat with (String.length u) by lia.
    rewrite <- (append_empty u) at 2. apply substring_after; reflexivity.
Qed.

Lemma parse_volume_text_standard (amt u : string) :
  amt <> EmptyString -> u <> EmptyString ->
  Str.all plain amt = true -> Str.all is_alpha u = true ->
  parse_volume_text (amt ++ " " ++ u)
  = (a <- parse_fraction amt ;; Ok (a, Some (normalize_unit (Str.lower u)))).
Proof.
  intros Hamt Hu Hap Hua.
  assert (Hclass : Str.all label (amt ++ " " ++ u) = true).
  { rewrite !all_app. cbn [Str.all append].
    rewrite (all_impl plain label amt), (all_impl is_alpha label u);
      [reflexivity | | exact Hua | | exact Hap];
      intros c Hc; unfold label; rewrite Hc, ?orb_true_r; reflexivity. }
  assert (Hclean : Str.remove soft_hyphen (amt ++ " " ++ u) = amt ++ " " ++ u).
  { apply (remove_absent label); [exact Hclass | reflexivity]. }
  assert (Hstrip : Str.strip (amt ++ " " ++ u) = amt ++ " " ++ u).
  { unfold Str.strip, Str.strip_with.
    assert (Hlead : Str.lstrip_with Str.is_space (amt ++ " " ++ u) = amt ++ " " ++ u).
    { destruct amt as [| c amt]; [contradiction Hamt; reflexivity |].
      cbn [Str.all] in Hap. apply andb_prop in Hap as [Hc _].
      cbn [append Str.lstrip_with]. rewrite (plain_not_space c Hc). reflexivity. }
    rewrite Hlead, <- append_assoc.
    apply (rstrip_before is_alpha); [| exact Hu | exact Hua].
    intros c Hc. apply (alpha_classes c Hc). }
  destruct (match_standard amt u Hamt Hu Hap Hua) as (m & Hm & H1 & H2).
  unfold parse_volume_text. rewrite Hclean, Hstrip.
  rewrite search_paren_none.
  - unfold parse_standard. rewrite Hm, H1, H2. reflexivity.
  - apply (all_impl label); [| exact Hclass].
    intros c Hc. apply (label_classes c Hc).
Qed.

(** X5.  The standard form of [parse_volume_text]: on an amount written in
    digits and slashes, one space and a unit written in letters, the call
    returns what [parse_fraction] makes of the amount, with the unit
    lowercased and normalized; an exception of [parse_fraction] is not
    caught, so a zero denominator ends the call in [ZeroDivisionError]. *)
Theorem parse_volume_text_amount_and_unit (amt u : string) :
  amt <> EmptyString -> u <> EmptyString ->
  Str.all plain amt = true -> Str.all is_alpha u = true ->
  parse_volume_text (amt ++ " " ++ u)
  = (a <- parse_fraction amt ;; Ok (a, Some (normalize_unit (Str.lower u))))
  /\ (Str.all Str.is_digit amt = true ->
      parse_volume_text (amt ++ " " ++ u)
      = Ok (Some (Float.of_Z (Lit.int_of_digits amt)),
            Some (normalize_unit (Str.lower u))))
  /\ parse_volume_text ((amt ++ "/0") ++ " " ++ u)
     = (a <- parse_fraction (amt ++ "/0") ;; Ok (a, Some (normalize_unit (Str.lower u))))
  /\ (Str.all Str.is_digit amt = true ->
      parse_volume_text ((amt ++ "/0") ++ " " ++ u) = Raise ZeroDivisionError).
Proof.
  intros Hamt Hu Hap Hua.
  assert (Hzero : parse_volume_text ((amt ++ "/0") ++ " " ++ u)
                  = (a <- parse_fraction (amt ++ "/0") ;;
                     Ok (a, Some (normalize_unit (Str.lower u))))).
  { apply parse_volume_text_standard; [destruct amt; discriminate | exact Hu | | exact Hua].
    rewrite all_app, Hap. reflexivity. }
  split; [apply parse_volume_text_standard; assumption |].
  split; [| split; [exact Hzero |]].
  - intros Hd. rewrite (parse_volume_text_standard amt u Hamt Hu Hap Hua).
    rewrite (parse_fraction_digits amt Hamt Hd). reflexivity.
  - intros Hd. rewrite Hzero, (parse_fraction_over_zero amt Hamt Hd). reflexivity.
Qed.

Lemma parse_volume_text_amount_and_unit_witness :
  parse_volume_text "12 Tablespoon"
  = Ok (Some (Float.of_Z 12), Some "tablespoons").
Proof.
  apply (proj1 (proj2 (parse_volume_text_amount_and_unit "12" "Tablespoon"
                         ltac:(discriminate) ltac:(discriminate) eq_refl eq_refl))).
  reflexivity.
Defined.

(** ** Weights *)

Lemma round_raises (x : Float.float) :
  Py.raises (Num.round x) = negb (Float.is_finite x).
Proof. destruct x as [s | s | | s m e]; reflexivity. Qed.

Lemma mul_not_finite_r (x g : Float.float) :
  Float.is_finite g = false -> Float.is_finite (Float.mul x g) = false.
Proof.
  destruct x as [sx | sx | | sx mx ex], g as [sg | sg | | sg mg eg];
    intros H; try discriminate H; reflexivity.
Qed.

Lemma mul_not_finite_l (x g : Float.float) :
  Float.is_finite x = false -> Float.is_finite (Float.mul x g) = false.
Proof.
  destruct x as [sx | sx | | sx mx ex], g as [sg | sg | | sg mg eg];
    intros H; try discriminate H; reflexivity.
Qed.

Lemma to_weight_known (a g c : Float.float) (u : option string) :
  get TO_CUPS (unit_lower u) = Some c ->
  to_weight (Some a) u (Some g)
  = (z <- Num.round (Float.mul (Float.mul a c) g) ;; Ok (Some z)).
Proof. intros H. unfold to_weight. rewrite H. reflexivity. Qed.

Lemma raises_bind_ok {A B : Type} (r : result A) (f : A -> B) :
  Py.raises (x <- r ;; Ok (f x)) = Py.raises r.
Proof. destruct r; reflexivity. Qed.

(** X6.  With a unit of the table, [to_weight] raises exactly when the
    product amount x cups per unit x density is not finite; so it raises
    whenever the amount or the density is infinite or NaN. *)
Theorem to_weight_raises_iff_not_finite (a g c : Float.float) (u : option string) :
  get TO_CUPS (unit_lower u) = Some c ->
  Py.raises (to_weight (Some a) u (Some g))
  = negb (Float.is_finite (Float.mul (Float.mul a c) g))
  /\ (Float.is_finite a = false \/ Float.is_finite g = false ->
      Py.raises (to_weight (Some a) u (Some g)) = true).
Proof.
  intros Hc.
  assert (H : Py.raises (to_weight (Some a) u (Some g))
              = negb (Float.is_finite (Float.mul (Float.mul a c) g))).
  { rewrite (to_weight_known a g c u Hc), raises_bind_ok. apply round_raises. }
  split; [exact H |].
  intros [Ha | Hg]; rewrite H.
  - rewrite mul_not_finite_l; [reflexivity | apply mul_not_finite_l, Ha].
  - rewrite mul_not_finite_r; [reflexivity | exact Hg].
Qed.

Lemma to_weight_raises_iff_not_finite_witness :
  Py.raises (to_weight (Some (Float.of_Z 2)) (Some "Tsp") (Some S754_nan)) = true.
Proof.
  apply (proj2 (to_weight_raises_iff_not_finite
                  (Float.of_Z 2) S754_nan (Float.div_Z 1 48) (Some "Tsp") eq_refl)).
  right. reflexivity.
Defined.

Lemma same_factor (u u' : option string) (v g d : option Float.float) :
  get TO_CUPS (unit_lower u) = get TO_CUPS (unit_lower u') ->
  normalize_to_grams_per_cup v u g = normalize_to_grams_per_cup v u' g
  /\ to_weight v u d = to_weight v u' d.
Proof.
  intros H. unfold normalize_to_grams_per_cup, to_weight. rewrite H.
  split; reflexivity.
Qed.

Lemma known_unit_factor (u : option string) :
  cups_per_unit (unit_lower u) <> None ->
  exists u', In u' ["cup"; "tbsp"; "tsp"]
             /\ get TO_CUPS (unit_lower u) = get TO_CUPS (unit_lower (Some u')).
Proof.
  rewrite TO_CUPS_table. unfold cups_per_unit.
  destruct (member (unit_lower u) ["cup"; "cups"]);
    [intros _; exists "cup"; split; [cbn; tauto | reflexivity] |].
  destruct (member (unit_lower u) ["tbsp"; "tablespoon"; "tablespoons"]);
    [intros _; exists "tbsp"; split; [cbn; tauto | reflexivity] |].
  destruct (member (unit_lower u) ["tsp"; "teaspoon"; "teaspoons"]);
    [intros _; exists "tsp"; split; [cbn; tauto | reflexivity] |].
  intros H. contradiction H. reflexivity.
Qed.

Lemma zrange_in (n : nat) (z : Z) : 1 <= z <= Z.of_nat n -> In z (zrange n).
Proof.
  intros H. unfold zrange. apply in_map_iff. exists (Z.to_nat (z - 1)).
  split; [lia | apply in_seq; lia].
Qed.

Lemma density_round_trips_upto :
  forallb (fun u => forallb (fun k => forallb (density_round_trips u k) (zrange 400))
                            (zrange 8))
          ["cup"; "tbsp"; "tsp"] = true.
Proof. vm_compute. reflexivity. Qed.

(** X7.  [to_weight] inverts [normalize_to_grams_per_cup]: for every unit
    of the table, a volume of [k] quarters of it with [1 <= k <= 8] and a
    weight of [g] grams with [1 <= g <= 400], the density computed from
    the measurement converts the same volume back to [g] grams. *)
Theorem to_weight_inverts_normalize (u : option string) (k g : Z) :
  cups_per_unit (unit_lower u) <> None -> 1 <= k <= 8 -> 1 <= g <= 400 ->
  (d <- normalize_to_grams_per_cup (Some (Float.div_Z k 4)) u (Some (Float.of_Z g)) ;;
   to_weight (Some (Float.div_Z k 4)) u d) = Ok (Some g).
Proof.
  intros Hu Hk Hg.
  destruct (known_unit_factor u Hu) as (u' & Hin & Hsame).
  pose proof density_round_trips_upto as H.
  rewrite forallb_forall in H. specialize (H u' Hin).
  rewrite forallb_forall in H. specialize (H k (zrange_in 8 k ltac:(lia))).
  rewrite forallb_forall in H. specialize (H g (zrange_in 400 g ltac:(lia))).
  unfold density_round_trips in H.
  rewrite (proj1 (same_factor u (Some u') _ _ None Hsame)).
  destruct (normalize_to_grams_per_cup _ (Some u') _) as [[d |] | e];
    try discriminate H.
  cbn [Py.bind]. rewrite (proj2 (same_factor u (Some u') _ None _ Hsame)).
  destruct (to_weight _ (Some u') _) as [[z |] | e]; try discriminate H.
  apply Z.eqb_eq in H. subst z. reflexivity.
Qed.

Lemma to_weight_inverts_normalize_witness :
  (d <- normalize_to_grams_per_cup (Some (Float.div_Z 3 4)) (Some "Tablespoons")
                                    (Some (Float.of_Z 11)) ;;
   to_weight (Some (Float.div_Z 3 4)) (Some "Tablespoons") d) = Ok (Some 11).
Proof.
  apply (to_weight_inverts_normalize (Some "Tablespoons") 3 11);
    [discriminate | lia | lia].
Defined.

(** ** Uploaded images (app.py) *)

Lemma rpartition_some (sep : ascii) (s a b : string) :
  Text.rpartition sep s = Some (a, b) ->
  s = a ++ String sep b /\ Str.all (Re.other sep) b = true.
Proof.
  revert a. induction s as [| c s IH]; intros a; cbn [Text.rpartition];
    [discriminate |].
  destruct (Text.rpartition sep s) as [[a' b'] |] eqn:E.
  - intros H. injection H as <- <-. destruct (IH a' eq_refl) as [-> Hb].
    split; [reflexivity | exact Hb].
  - destruct (Ascii.eqb c sep) eqn:Hc; [| discriminate].
    intros H. injection H as <- <-. apply Ascii.eqb_eq in Hc. subst c.
    split; [reflexivity |].
    clear IH. induction s as [| c s IH]; [reflexivity |].
    cbn [Text.rpartition] in E.
    destruct (Text.rpartition sep s) as [[a' b'] |]; [discriminate E |].
    destruct (Ascii.eqb c sep) eqn:Hc; [discriminate E |].
    cbn [Str.all]. unfold Re.other at 1. rewrite Hc. apply IH. reflexivity.
Qed.

Lemma rpartition_absent (sep : ascii) (s : string) :
  Str.all (Re.other sep) s = true -> Text.rpartition sep s = None.
Proof.
  induction s as [| c s IH]; cbn [Str.all Text.rpartition]; [reflexivity |].
  intros H. apply andb_prop in H as [Hc Hs]. rewrite (IH Hs).
  unfold Re.other in Hc. apply negb_true_iff in Hc. rewrite Hc. reflexivity.
Qed.

Lemma rpartition_app (sep : ascii) (a b : string) :
  Str.all (Re.other sep) b = true ->
  Text.rpartition sep (a ++ String sep b) = Some (a, b).
Proof.
  intros Hb. induction a as [| c a IH]; cbn [append Text.rpartition].
  - rewrite (rpartition_absent sep b Hb), Ascii.eqb_refl. reflexivity.
  - rewrite IH. reflexivity.
Qed.

Lemma contains_char (c : ascii) (s : string) :
  Str.contains (String c EmptyString) s = negb (Str.all (Re.other c) s).
Proof.
  induction s as [| a s IH]; [reflexivity |].
  cbn [Str.contains Str.startswith Str.all]. rewrite IH.
  unfold Re.other. rewrite (Ascii.eqb_sym c a).
  destruct (Ascii.eqb a c); reflexivity.
Qed.

Lemma rpartition_present (sep : ascii) (s : string) :
  Str.contains (String sep EmptyString) s = true ->
  exists a b, Text.rpartition sep s = Some (a, b).
Proof.
  intros H. destruct (Text.rpartition sep s) as [[a b] |] eqn:E; [eauto |].
  exfalso. rewrite contains_char in H. apply negb_true_iff in H.
  assert (Hall : Str.all (Re.other sep) s = true); [| congruence].
  clear H. induction s as [| c s IH]; [reflexivity |].
  cbn [Text.rpartition] in E.
  destruct (Text.rpartition sep s) as [[a' b'] |]; [discriminate E |].
  destruct (Ascii.eqb c sep) eqn:Hc; [discriminate E |].
  cbn [Str.all]. unfold Re.other at 1. rewrite Hc. apply IH. reflexivity.
Qed.

Lemma rpartition_item (stem ext : string) :
  Str.all (Re.other ".") ext = true ->
  Ix.item (Text.rsplit1 "." (stem ++ "." ++ ext)) 1 = Ix.Ok ext.
Proof.
  intros H. unfold Text.rsplit1. cbn [append].
  rewrite (rpartition_app "." stem ext H). reflexivity.
Qed.

(** The extension of a file name: what follows its last dot. *)
Lemma extension (filename : string) :
  (Str.contains "." filename = false
   /\ Ix.item (Text.rsplit1 "." filename) 1 = Ix.IndexError)
  \/ (exists stem ext,
         filename = stem ++ "." ++ ext
         /\ Str.all (Re.other ".") ext = true
         /\ Str.contains "." filename = true
         /\ Ix.item (Text.rsplit1 "." filename) 1 = Ix.Ok ext).
Proof.
  destruct (Str.contains "." filename) eqn:Hdot.
  - right. destruct (rpartition_present "." filename Hdot) as (a & b & E).
    destruct (rpartition_some "." filename a b E) as [Hs Hb].
    exists a, b. unfold Text.rsplit1. rewrite E.
    repeat apply conj; [exact Hs | exact Hb | reflexivity | reflexivity].
  - left. split; [reflexivity |].
    rewrite contains_char in Hdot. apply negb_false_iff in Hdot.
    unfold Text.rsplit1. rewrite (rpartition_absent "." filename Hdot). reflexivity.
Qed.

Lemma member_In (e : string) (l : list string) : member e l = true <-> In e l.
Proof.
  unfold member. rewrite existsb_exists. split.
  - intros (x & Hin & Hx). apply String.eqb_eq in Hx. subst x. exact Hin.
  - intros Hin. exists e. split; [exact Hin | apply String.eqb_refl].
Qed.

(** X8.  [_allowed_file] never raises, the test for a dot guarding the
    index; it accepts a name exactly when the text after its last dot,
    lowercased, is one of the five extensions, whatever comes before. *)
Theorem _allowed_file_last_extension (filename : string) :
  (exists b, _allowed_file filename = Ix.Ok b)
  /\ (_allowed_file filename = Ix.Ok true
      <-> exists stem ext,
            filename = stem ++ "." ++ ext
            /\ Str.all (Re.other ".") ext = true
            /\ In (Str.lower ext) ALLOWED_EXTENSIONS).
Proof.
  pose proof (fun e => member_In e ALLOWED_EXTENSIONS) as Hmem.
  unfold _allowed_file.
  destruct (extension filename) as [[Hdot Hitem] | (stem & ext & Hs & Hext & Hdot & Hitem)];
    rewrite Hdot.
  - split; [eauto |]. split; [discriminate |].
    intros (stem & ext & -> & _ & _). exfalso.
    rewrite contains_char, all_app in Hdot. cbn [append Str.all] in Hdot.
    unfold Re.other at 2 in Hdot. rewrite Ascii.eqb_refl, andb_false_r in Hdot.
    discriminate Hdot.
  - rewrite Hitem. cbn [Ix.bind]. split; [eauto |]. split.
    + intros H. injection H as H. apply Hmem in H. exists stem, ext. auto.
    + intros (stem' & ext' & Hs' & Hext' & Hin).
      assert (E : ext' = ext).
      { pose proof (rpartition_app "." stem ext Hext) as E1.
        pose proof (rpartition_app "." stem' ext' Hext') as E2.
        cbn [append] in Hs, Hs'. rewrite <- Hs in E1. rewrite <- Hs' in E2.
        congruence. }
      subst ext'. apply Hmem in Hin. rewrite Hin. reflexivity.
Qed.

Lemma _allowed_file_last_extension_witness :
  _allowed_file "shell.php.JPeG" = Ix.Ok true.
Proof.
  apply (proj2 (_allowed_file_last_extension "shell.php.JPeG")).
  exists "shell.php", "JPeG". repeat apply conj; [reflexivity | reflexivity |].
  unfold ALLOWED_EXTENSIONS. cbn. tauto.
Defined.

Lemma name_class_not_slash (c : ascii) : name_class c = true -> Re.other "/" c = true.
Proof.
  destruct c as [[] [] [] [] [] [] [] []]; intros H; try discriminate H; reflexivity.
Qed.

Lemma of_Z_name_class (z : Z) :
  Str.all name_class (Str.of_Z z) = true /\ Str.of_Z z <> EmptyString.
Proof.
  assert (Hd : forall d, Str.all name_class (NilEmpty.string_of_uint d) = true).
  { intros d. apply (all_impl Str.is_digit); [| apply uint_all_digits].
    intros c Hc. unfold name_class. rewrite Hc. reflexivity. }
  destruct z as [| p | p]; cbn [Str.of_Z Str.all].
  - split; [reflexivity | discriminate].
  - split; [apply Hd |]. apply (of_Z_digits (Zpos p)). lia.
  - split; [rewrite Hd; reflexivity | discriminate].
Qed.

Lemma endswith_char_app (c : ascii) (a b : string) :
  b <> EmptyString -> Text.endswith_char c (a ++ b) = Text.endswith_char c b.
Proof.
  intros Hb. induction a as [| x a IH]; [reflexivity |].
  cbn [append Text.endswith_char]. rewrite IH.
  destruct (a ++ b) eqn:E; [| reflexivity].
  destruct a; [cbn [append] in E; contradiction | discriminate E].
Qed.

Lemma rstrip_keep (q : ascii -> bool) (a r : string) :
  Str.rstrip_with q r <> EmptyString ->
  Str.rstrip_with q (a ++ r) = a ++ Str.rstrip_with q r.
Proof.
  intros Hr. induction a as [| c a IH]; cbn [append Str.rstrip_with]; [reflexivity |].
  rewrite IH.
  replace (Str.is_empty (a ++ Str.rstrip_with q r)) with false;
    [rewrite andb_false_r; reflexivity |].
  destruct a; [destruct (Str.rstrip_with q r); [contradiction Hr |] |]; reflexivity.
Qed.

(** The directory of the images: [static_folder], a slash unless it ends
    with one or is empty, and [images]. *)
Lemma images_directory (static_folder : string) :
  exists pre, Path.join static_folder ["images"] = pre ++ "images".
Proof.
  unfold Path.join. cbn [fold_left]. unfold Path.join_step.
  change (Str.startswith "/" "images") with false. cbv iota.
  destruct (Str.is_empty static_folder || Text.endswith_char "/" static_folder).
  - exists static_folder. reflexivity.
  - exists (static_folder ++ "/"). rewrite append_assoc. reflexivity.
Qed.

Lemma join_images (static_folder name : string) :
  Str.startswith "/" name = false ->
  Path.join static_folder ["images"; name]
  = Path.join static_folder ["images"] ++ "/" ++ name.
Proof.
  intros Hname. destruct (images_directory static_folder) as [pre Hdir].
  unfold Path.join in *. cbn [fold_left] in *. rewrite Hdir.
  unfold Path.join_step at 1. rewrite Hname.
  rewrite (endswith_char_app "/" pre "images") by discriminate.
  replace (Str.is_empty (pre ++ "images")) with false
    by (destruct pre; reflexivity).
  reflexivity.
Qed.

Lemma dirname_images (static_folder name : string) :
  Str.all (Re.other "/") name = true ->
  Path.dirname (Path.join static_folder ["images"] ++ "/" ++ name)
  = Path.join static_folder ["images"].
Proof.
  intros Hname. destruct (images_directory static_folder) as [pre Hdir].
  rewrite Hdir. unfold Path.dirname. cbn [append].
  rewrite (rpartition_app "/" (pre ++ "images") name Hname).
  replace (Str.is_empty ((pre ++ "images") ++ "/")) with false
    by (destruct pre; reflexivity).
  replace (Str.all (Re.one "/") ((pre ++ "images") ++ "/")) with false
    by (rewrite !all_app, andb_false_r; reflexivity).
  cbn [negb andb]. rewrite !append_assoc.
  apply (rstrip_keep (Re.one "/") pre ("images" ++ "/")). discriminate.
Qed.

Lemma startswith_char_app (c : ascii) (a b : string) (p : ascii -> bool) :
  a <> EmptyString -> Str.all p a = true -> p c = false ->
  Str.startswith (String c EmptyString) (a ++ b) = false.
Proof.
  intros Ha Hp Hc. destruct a as [| x a]; [contradiction Ha; reflexivity |].
  cbn [Str.all] in Hp. apply andb_prop in Hp as [Hx _].
  cbn [append Str.startswith].
  destruct (Ascii.eqb c x) eqn:E; [| reflexivity].
  apply Ascii.eqb_eq in E. subst x. congruence.
Qed.

(** X9.  Behind the guard [_allowed_file(file.filename)], [_save_image]
    raises no [IndexError].  All it asks of the file system is to create
    the directory [images] of the static folder and then to save the
    content right inside it, under a name made of the recipe id, the time
    and one of the five extensions: a name without a slash, of which only
    the extension comes from the client.  When both calls go through it
    returns [static/images/] and that name; when one of them raises, its
    exception leaves the function, and a failed [makedirs] is not followed
    by the save.  Without the guard the function raises [IndexError],
    before it touches the file system, exactly on a name without a dot. *)
Theorem _save_image_after_guard (succeeds : list fs_call -> fs_call -> bool)
    (static_folder : string) (now : Z) (file : upload) (recipe_id : Z) :
  (_allowed_file (upload_filename file) = Ix.Ok true ->
   exists ext,
     In ext ALLOWED_EXTENSIONS
     /\ Str.all (Re.other "/")
                (Str.of_Z recipe_id ++ "_" ++ Str.of_Z now ++ "." ++ ext) = true
     /\ _save_image succeeds static_folder now file recipe_id
        = let makedirs := MakeDirs (Path.join static_folder ["images"]) in
          let save :=
            Save (Path.join static_folder ["images"] ++ "/"
                  ++ Str.of_Z recipe_id ++ "_" ++ Str.of_Z now ++ "." ++ ext)
                 (upload_content file) in
          if succeeds [] makedirs then
            if succeeds [makedirs] save
            then Returned [makedirs; save]
                          ("static/images/"
                           ++ Str.of_Z recipe_id ++ "_" ++ Str.of_Z now ++ "." ++ ext)
            else RaisedBy [makedirs] save
          else RaisedBy [] makedirs)
  /\ (_save_image succeeds static_folder now file recipe_id = RaisedIndexError
      <-> Str.contains "." (upload_filename file) = false).
Proof.
  split.
  - intros Hguard.
    unfold _allowed_file in Hguard.
    destruct (extension (upload_filename file))
      as [[Hdot Hitem] | (stem & e & Hs & He & Hdot & Hitem)];
      rewrite Hdot in Hguard; [discriminate Hguard |].
    rewrite Hitem in Hguard. cbn [Ix.bind] in Hguard.
    assert (Hin : member (Str.lower e) ALLOWED_EXTENSIONS = true)
      by (injection Hguard as H; exact H).
    apply member_In in Hin.
    exists (Str.lower e). split; [exact Hin |].
    assert (Hext : Str.all name_class (Str.lower e) = true).
    { unfold ALLOWED_EXTENSIONS in Hin. cbn [In] in Hin.
      destruct Hin as [<- | [<- | [<- | [<- | [<- | []]]]]]; reflexivity. }
    set (name := Str.of_Z recipe_id ++ "_" ++ Str.of_Z now ++ "." ++ Str.lower e).
    assert (Hname : Str.all name_class name = true).
    { unfold name. rewrite !all_app. cbn [Str.all append].
      rewrite (proj1 (of_Z_name_class recipe_id)), (proj1 (of_Z_name_class now)), Hext.
      reflexivity. }
    assert (Hslash : Str.all (Re.other "/") name = true)
      by (apply (all_impl name_class); [exact name_class_not_slash | exact Hname]).
    split; [exact Hslash |].
    unfold _save_image.
    rewrite Hs, (rpartition_item stem e He). fold name.
    rewrite (join_images static_folder name).
    + rewrite (dirname_images static_folder name Hslash). reflexivity.
    + unfold name.
      apply (startswith_char_app "/" _ _ name_class);
        [apply of_Z_name_class | apply of_Z_name_class | reflexivity].
  - unfold _save_image.
    destruct (extension (upload_filename file))
      as [[Hdot Hitem] | (stem & ext & _ & _ & Hdot & Hitem)];
      rewrite Hitem, Hdot; [split; reflexivity |].
    cbv zeta.
    destruct (succeeds [] _); [destruct (succeeds [_] _) |];
      split; intros H; discriminate H.
Qed.

(** A disk on which directories can be made and nothing can be saved. *)
Lemma _save_image_after_guard_witness :
  exists ext,
    In ext ALLOWED_EXTENSIONS
    /\ Str.all (Re.other "/") (Str.of_Z 7 ++ "_" ++ Str.of_Z 1700000000 ++ "." ++ ext)
       = true
    /\ _save_image (fun _ call => match call with MakeDirs _ => true | _ => false end)
                   "/srv/app/static" 1700000000
                   (mkUpload "../../etc/cron.d/x.PNG" "data") 7
       = RaisedBy [MakeDirs (Path.join "/srv/app/static" ["images"])]
                  (Save (Path.join "/srv/app/static" ["images"] ++ "/"
                         ++ Str.of_Z 7 ++ "_" ++ Str.of_Z 1700000000 ++ "." ++ ext)
                        "data").
Proof.
  apply (proj1 (_save_image_after_guard
                  (fun _ call => match call with MakeDirs _ => true | _ => false end)
                  "/srv/app/static" 1700000000
                  (mkUpload "../../etc/cron.d/x.PNG" "data") 7)).
  vm_compute. reflexivity.
Defined.

(** ** The steps of a recipe (app.py) *)

Lemma rstrip_idem (q : ascii -> bool) (s : string) :
  Str.rstrip_with q (Str.rstrip_with q s) = Str.rstrip_with q s.
Proof.
  induction s as [| c s IH]; cbn [Str.rstrip_with]; [reflexivity |].
  destruct (q c && Str.is_empty (Str.rstrip_with q s)) eqn:E; [reflexivity |].
  cbn [Str.rstrip_with]. rewrite IH, E. reflexivity.
Qed.

Lemma lstrip_head (q : ascii -> bool) (s : string) :
  stops q (Str.lstrip_with q s).
Proof.
  induction s as [| c s IH]; cbn [Str.lstrip_with]; [exact I |].
  destruct (q c) eqn:E; [exact IH | exact E].
Qed.

Lemma lstrip_stops (q : ascii -> bool) (s : string) :
  stops q s -> Str.lstrip_with q s = s.
Proof.
  destruct s as [| c s]; cbn [stops Str.lstrip_with]; [reflexivity |].
  intros ->. reflexivity.
Qed.

Lemma rstrip_stops (q : ascii -> bool) (s : string) :
  stops q s -> stops q (Str.rstrip_with q s).
Proof.
  destruct s as [| c s]; cbn [stops Str.rstrip_with]; [trivial |].
  intros H. rewrite H. exact H.
Qed.

Lemma strip_idem (s : string) : Str.strip (Str.strip s) = Str.strip s.
Proof.
  unfold Str.strip, Str.strip_with.
  rewrite (lstrip_stops _ _ (rstrip_stops _ _ (lstrip_head Str.is_space s))).
  apply rstrip_idem.
Qed.

(** A text that [strip] leaves alone begins and ends outside white space. *)
Lemma strip_fixed (s : string) :
  Str.strip s = s ->
  stops Str.is_space s /\ Str.rstrip_with Str.is_space s = s.
Proof.
  intros H. unfold Str.strip, Str.strip_with in H.
  assert (Hstop : stops Str.is_space s).
  { rewrite <- H. apply rstrip_stops, lstrip_head. }
  split; [exact Hstop |].
  rewrite (lstrip_stops _ _ Hstop) in H. exact H.
Qed.

Lemma contains_strip (p s : string) :
  Str.contains p s = false -> Str.contains p (Str.strip s) = false.
Proof.
  intros H. destruct (strip_split s) as (lead & trail & Hs).
  destruct (Str.contains p (Str.strip s)) eqn:E; [| reflexivity].
  rewrite Hs in H.
  rewrite (contains_app_r p lead _ (contains_app_l p _ trail E)) in H.
  discriminate H.
Qed.

(** Replacing one character by a text that lacks it leaves none behind. *)
Lemma replace_char_gone (c : ascii) (new s : string) :
  Str.all (Re.other c) new = true ->
  Str.all (Re.other c) (Text.replace (String c EmptyString) new s) = true.
Proof.
  intros Hnew. unfold Text.replace.
  induction s as [| a s IH]; [reflexivity |].
  cbn [Text.replace_from Str.startswith String.length Nat.pred].
  destruct (Ascii.eqb c a) eqn:E; cbn [andb].
  - rewrite all_app, Hnew. exact IH.
  - cbn [Str.all]. unfold Re.other at 1. rewrite (Ascii.eqb_sym a c), E. exact IH.
Qed.

Lemma replace_absent (p : ascii -> bool) (c0 : ascii) (r new s : string) :
  Str.all p s = true -> p c0 = false ->
  Text.replace (String c0 r) new s = s.
Proof.
  intros Hs Hc0. unfold Text.replace.
  induction s as [| a s IH]; [reflexivity |].
  cbn [Text.replace_from].
  rewrite (startswith_head c0 r (String a s) p Hc0 Hs).
  cbn [Str.all] in Hs. apply andb_prop in Hs as [_ Hs]. rewrite (IH Hs). reflexivity.
Qed.

Lemma all_split_from (p : ascii -> bool) (sep s : string) (skip : nat) :
  Str.all p s = true ->
  Forall (fun piece => Str.all p piece = true) (Text.split_from sep s skip).
Proof.
  revert skip. induction s as [| c s IH]; intros skip Hs.
  - repeat constructor.
  - cbn [Str.all] in Hs. apply andb_prop in Hs as [Hc Hs].
    cbn [Text.split_from]. destruct skip as [| k]; [| apply IH, Hs].
    destruct (Str.startswith sep (String c s)).
    + constructor; [reflexivity | apply IH, Hs].
    + specialize (IH 0%nat Hs).
      destruct (Text.split_from sep s 0) as [| piece rest];
        [repeat constructor; cbn [Str.all]; rewrite Hc; reflexivity |].
      inversion IH as [| ? ? Hpiece Hrest]; subst.
      constructor; [cbn [Str.all]; rewrite Hc; exact Hpiece | exact Hrest].
Qed.

(** No piece of [split] contains the separator. *)
Lemma split_from_free (sep s : string) (skip : nat) :
  sep <> EmptyString ->
  Forall (fun piece => Str.contains sep piece = false) (Text.split_from sep s skip)
  /\ exists h t rest, Text.split_from sep s 0 = h :: t /\ s = h ++ rest.
Proof.
  intros Hsep.
  assert (Hnil : Str.contains sep EmptyString = false)
    by (destruct sep; [contradiction Hsep |]; reflexivity).
  revert skip. induction s as [| c s IH]; intros skip.
  - split; [repeat constructor; exact Hnil |].
    exists EmptyString, [], EmptyString. split; reflexivity.
  - destruct (IH 0%nat) as [Hfree0 (h & t & rest & Hsplit & Hs)].
    assert (Hzero : Forall (fun piece => Str.contains sep piece = false)
                           (Text.split_from sep (String c s) 0)
                    /\ exists h t rest,
                         Text.split_from sep (String c s) 0 = h :: t
                         /\ String c s = h ++ rest).
    { cbn [Text.split_from].
      destruct (Str.startswith sep (String c s)) eqn:Hstart.
      - split; [constructor; [exact Hnil | apply IH] |].
        exists EmptyString, (Text.split_from sep s (Nat.pred (String.length sep))),
          (String c s). split; reflexivity.
      - rewrite Hsplit in *. inversion Hfree0 as [| ? ? Hh Ht]; subst.
        split.
        + constructor; [| exact Ht].
          cbn [Str.contains]. rewrite Hh, orb_false_r.
          destruct (Str.startswith sep (String c h)) eqn:E; [| reflexivity].
          pose proof (startswith_app sep (String c h) rest E) as E'.
          cbn [append] in E'. rewrite Hstart in E'. discriminate E'.
        + exists (String c h), t, rest. split; reflexivity. }
    split; [| apply Hzero].
    destruct skip as [| k]; [apply Hzero |].
    cbn [Text.split_from]. apply IH.
Qed.

Lemma unix_newlines_no_return (s : string) :
  Str.all (Re.other carriage_return) (unix_newlines s) = true.
Proof. unfold unix_newlines. apply replace_char_gone. reflexivity. Qed.

Lemma parse_steps_valid (instructions : option string) :
  Forall valid_step (parse_steps instructions).
Proof.
  unfold parse_steps, nonblank_pieces.
  set (text := unix_newlines _).
  pose proof (all_split_from _ blank_line text 0 (unix_newlines_no_return _)) as Hcr.
  pose proof (proj1 (split_from_free blank_line text 0 ltac:(discriminate))) as Hfree.
  fold (Text.split blank_line text) in Hcr, Hfree.
  rewrite Forall_forall in *. intros s Hin.
  apply in_map_iff in Hin as (piece & <- & Hin).
  apply filter_In in Hin as [Hin Hne].
  repeat apply conj.
  - intros E. rewrite E in Hne. discriminate Hne.
  - apply strip_idem.
  - apply all_strip, Hcr, Hin.
  - apply contains_strip, Hfree, Hin.
Qed.

Lemma rstrip_fixed_tail (q : ascii -> bool) (c : ascii) (s : string) :
  Str.rstrip_with q (String c s) = String c s -> Str.rstrip_with q s = s.
Proof.
  cbn [Str.rstrip_with].
  destruct (q c && Str.is_empty (Str.rstrip_with q s)); [discriminate |].
  intros H. injection H as H. exact H.
Qed.

(** A step followed by a blank line is the first piece of the text. *)
Lemma split_piece (s rest : string) :
  Str.contains blank_line s = false -> Str.rstrip_with Str.is_space s = s ->
  Text.split_from blank_line (s ++ blank_line ++ rest) 0
  = s :: Text.split_from blank_line rest 0.
Proof.
  induction s as [| c s IH]; intros Hfree Hfix; [reflexivity |].
  assert (Hstart : Str.startswith blank_line (String c (s ++ blank_line ++ rest)) = false).
  { unfold blank_line. cbn [Str.startswith].
    destruct (Ascii.eqb (ascii_of_N 10) c) eqn:Ec; [| reflexivity].
    apply Ascii.eqb_eq in Ec. subst c.
    destruct s as [| c2 s]; [discriminate Hfix |].
    cbn [append]. destruct (Ascii.eqb (ascii_of_N 10) c2) eqn:Ec2; [| reflexivity].
    apply Ascii.eqb_eq in Ec2. subst c2. discriminate Hfree. }
  cbn [append Text.split_from]. rewrite Hstart, IH; [reflexivity | |].
  - cbn [Str.contains] in Hfree. apply orb_false_elim in Hfree as [_ H]. exact H.
  - apply (rstrip_fixed_tail _ _ _ Hfix).
Qed.

Lemma split_last (sep s : string) :
  Str.contains sep s = false -> Text.split_from sep s 0 = [s].
Proof.
  induction s as [| c s IH]; intros Hfree; [reflexivity |].
  cbn [Str.contains] in Hfree. apply orb_false_elim in Hfree as [Hstart Hs].
  cbn [Text.split_from]. rewrite Hstart, (IH Hs). reflexivity.
Qed.

Lemma split_join (l : list string) :
  l <> [] -> Forall valid_step l ->
  Text.split blank_line (Text.join blank_line l) = l.
Proof.
  unfold Text.split, Text.join.
  induction l as [| s l IH]; intros Hne Hvalid; [contradiction Hne; reflexivity |].
  inversion Hvalid as [| ? ? (_ & Hstrip & _ & Hfree) Hrest]; subst.
  destruct l as [| s2 l].
  - apply split_last, Hfree.
  - change (String.concat blank_line (s :: s2 :: l))
      with (s ++ blank_line ++ String.concat blank_line (s2 :: l)).
    rewrite (split_piece s _ Hfree (proj2 (strip_fixed s Hstrip))).
    rewrite IH; [reflexivity | discriminate | exact Hrest].
Qed.

Lemma join_nonempty (sep : string) (s : string) (l : list string) :
  s <> EmptyString -> String.concat sep (s :: l) <> EmptyString.
Proof.
  intros Hs. destruct s as [| c s]; [contradiction Hs; reflexivity |].
  destruct l; discriminate.
Qed.

Lemma join_all (p : ascii -> bool) (sep : string) (l : list string) :
  Str.all p sep = true -> Forall (fun s => Str.all p s = true) l ->
  Str.all p (Text.join sep l) = true.
Proof.
  intros Hsep. unfold Text.join.
  induction l as [| s l IH]; intros H; [reflexivity |].
  inversion H as [| ? ? Hs Hl]; subst.
  destruct l as [| s2 l]; [exact Hs |].
  change (String.concat sep (s :: s2 :: l))
    with (s ++ sep ++ String.concat sep (s2 :: l)).
  rewrite !all_app, Hs, Hsep. apply IH, Hl.
Qed.

Lemma join_strip (l : list string) :
  Forall valid_step l ->
  Str.strip (Text.join blank_line l) = Text.join blank_line l.
Proof.
  intros Hvalid. unfold Text.join.
  destruct l as [| s l]; [reflexivity |].
  unfold Str.strip, Str.strip_with.
  assert (Hlead : stops Str.is_space (String.concat blank_line (s :: l))).
  { inversion Hvalid as [| ? ? (Hne & Hstrip & _) _]; subst.
    destruct s as [| c s]; [contradiction Hne; reflexivity |].
    apply strip_fixed in Hstrip as [Hstop _].
    destruct l; exact Hstop. }
  rewrite (lstrip_stops _ _ Hlead). clear Hlead.
  revert s Hvalid. induction l as [| s2 l IH]; intros s Hvalid;
    inversion Hvalid as [| ? ? (Hne & Hstrip & _) Hrest]; subst.
  - apply (strip_fixed s Hstrip).
  - change (String.concat blank_line (s :: s2 :: l))
      with (s ++ blank_line ++ String.concat blank_line (s2 :: l)).
    rewrite <- append_assoc, rstrip_keep; rewrite (IH s2 Hrest); [reflexivity |].
    apply join_nonempty. inversion Hrest as [| ? ? (Hne2 & _) _]. exact Hne2.
Qed.

Lemma nonblank_valid (l : list string) :
  Forall valid_step l ->
  map Str.strip (filter (fun s => negb (Str.is_empty (Str.strip s))) l) = l.
Proof.
  induction l as [| s l IH]; intros H; [reflexivity |].
  inversion H as [| ? ? (Hne & Hstrip & _) Hl]; subst.
  cbn [filter]. rewrite Hstrip, (is_empty_false s Hne). cbn [negb map].
  rewrite Hstrip, (IH Hl). reflexivity.
Qed.

Lemma parse_steps_join (l : list string) :
  Forall valid_step l -> parse_steps (Some (steps_text l)) = l.
Proof.
  intros Hvalid. destruct l as [| s l]; [reflexivity |].
  unfold parse_steps, steps_text, or_empty. rewrite (join_strip _ Hvalid).
  assert (Hcr : Str.all (Re.other carriage_return)
                        (Text.join blank_line (s :: l)) = true).
  { apply join_all; [reflexivity |].
    apply (Forall_impl _ (fun s H => proj1 (proj2 (proj2 H))) Hvalid). }
  unfold unix_newlines.
  rewrite !(replace_absent (Re.other carriage_return) carriage_return _ _ _ Hcr)
    by reflexivity.
  unfold nonblank_pieces.
  rewrite (split_join (s :: l) ltac:(discriminate) Hvalid).
  apply nonblank_valid, Hvalid.
Qed.

(** ** The recipe form (app.py) *)

Lemma float_of_str_value_error (s : string) (e : exn) :
  Lit.float_of_str s = Raise e -> e = ValueError.
Proof.
  unfold Lit.float_of_str. destruct (Lit.parse s); [discriminate |].
  intros H. injection H as <-. reflexivity.
Qed.

Lemma int_of_str_value_error (s : string) (e : exn) :
  Text.int_of_str s = Raise e -> e = ValueError.
Proof.
  unfold Text.int_of_str.
  destruct (Lit.underscores_ok None _); [| intros H; injection H as <-; reflexivity].
  destruct (Lit.sign _) as [neg body].
  destruct (negb (Str.is_empty body) && Str.all Str.is_digit body);
    [discriminate | intros H; injection H as <-; reflexivity].
Qed.

Lemma ingredient_loop_total (rows : list (string * (string * string))) :
  exists l,
    ingredient_loop rows = Ok l
    /\ Forall valid_ingredient l
    /\ (List.length l <= List.length rows)%nat.
Proof.
  induction rows as [| [name [amount unit]] rows (l & Hl & Hvalid & Hlen)].
  - exists []. repeat split; [constructor | reflexivity].
  - cbn [ingredient_loop List.length].
    destruct (Str.is_empty (Str.strip name)) eqn:Hname.
    + exists l. repeat split; [exact Hl | exact Hvalid | lia].
    + assert (Hamt : exists a,
                 (if Str.is_empty amount then Ok (Int 0)
                  else match Lit.float_of_str amount with
                       | Ok x => Ok (Flt x)
                       | Raise ValueError => Ok (Int 0)
                       | Raise e => Raise e
                       end) = Ok a
                 /\ (a = Int 0 \/ exists x, a = Flt x)).
      { destruct (Str.is_empty amount); [eauto |].
        destruct (Lit.float_of_str amount) as [x | e] eqn:E; [eauto |].
        rewrite (float_of_str_value_error _ _ E). eauto. }
      destruct Hamt as (a & -> & Ha). cbn [Py.bind]. rewrite Hl. cbn [Py.bind].
      exists (mkIngredient (Str.strip name) a unit :: l).
      repeat split; [| cbn [List.length]; lia].
      constructor; [| exact Hvalid].
      repeat split; cbn [ing_name ing_amount];
        [intros E; rewrite E in Hname; discriminate Hname | apply strip_idem | exact Ha].
Qed.

Lemma _parse_recipe_form_outcome (form : recipe_form) :
  match servings_of form with
  | Ok n =>
      exists fields,
        _parse_recipe_form form = Ok fields
        /\ servings fields = n
        /\ title fields = Str.strip (or_empty (form_title form))
        /\ steps fields = parse_steps (form_instructions form)
        /\ Forall valid_ingredient (ingredients fields)
        /\ (List.length (ingredients fields) <= List.length (form_ing_names form))%nat
        /\ source_url fields <> Some EmptyString
  | Raise e => e = ValueError /\ _parse_recipe_form form = Raise ValueError
  end.
Proof.
  unfold _parse_recipe_form. fold (servings_of form).
  destruct (servings_of form) as [n | e] eqn:Hs.
  - cbn [Py.bind].
    destruct (ingredient_loop_total
                (combine (form_ing_names form)
                         (combine (form_ing_amounts form) (form_ing_units form))))
      as (l & -> & Hvalid & Hlen).
    cbn [Py.bind]. eexists. split; [reflexivity |].
    cbn [servings title steps ingredients source_url].
    repeat split; [exact Hvalid | |].
    + rewrite length_combine in Hlen. lia.
    + destruct (Str.is_empty (Str.strip (or_empty (form_source_url form)))) eqn:E;
        [discriminate |].
      intros H. injection H as H. rewrite H in E. discriminate E.
  - assert (He : e = ValueError).
    { unfold servings_of in Hs. destruct (form_servings form) as [s |]; [| discriminate].
      destruct (Str.is_empty s); [discriminate |].
      apply (int_of_str_value_error _ _ Hs). }
    subst e. split; reflexivity.
Qed.

Lemma int_of_str_digits (s : string) :
  s <> EmptyString -> Str.all Str.is_digit s = true ->
  Text.int_of_str s = Ok (Lit.int_of_digits s)
  /\ Text.int_of_str (String "-" s) = Ok (- Lit.int_of_digits s).
Proof.
  intros Hne Hs.
  assert (Hsp : forall c, Str.is_digit c = true -> Str.is_c_space c = false)
    by (intros c Hc; apply (digit_classes c Hc)).
  assert (Hus : forall c, Str.is_digit c = true -> Ascii.eqb "_" c = false)
    by (intros c Hc; apply (digit_classes c Hc)).
  pose proof (remove_from_all_not _ _ s Hus Hs) as Hrem.
  pose proof (rstrip_all_not _ _ s Hsp Hs) as Hrs.
  split.
  - unfold Text.int_of_str, Str.strip_with.
    rewrite (lstrip_all_not _ _ s Hsp Hs), Hrs.
    rewrite (underscores_ok_digits s None) by (discriminate || exact Hs).
    unfold Str.remove. rewrite Hrem.
    destruct s as [| c s]; [contradiction Hne; reflexivity |].
    pose proof Hs as Hs'. cbn [Str.all] in Hs'. apply andb_prop in Hs' as [Hc _].
    rewrite (sign_digit c s Hc), Hs. reflexivity.
  - unfold Text.int_of_str, Str.strip_with.
    change (Str.lstrip_with Str.is_c_space (String "-" s)) with (String "-" s).
    cbn [Str.rstrip_with]. rewrite Hrs.
    change (Str.is_c_space "-") with false. cbn [andb].
    change (Lit.underscores_ok None (String "-" s))
      with (Lit.underscores_ok (Some "-"%char) s).
    rewrite (underscores_ok_digits s (Some "-"%char)) by (discriminate || exact Hs).
    unfold Str.remove. cbn [Str.remove_from Str.startswith].
    change (Ascii.eqb "_" "-") with false. cbn [andb].
    rewrite Hrem. cbn [Lit.sign].
    rewrite Hs, (is_empty_false s Hne). reflexivity.
Qed.

(** [int(str(n)) = n] *)
Lemma int_of_str_of_Z (n : Z) : Text.int_of_str (Str.of_Z n) = Ok n.
Proof.
  destruct n as [| p | p]; [reflexivity | |].
  - destruct (of_Z_digits (Zpos p) ltac:(lia)) as (Hne & Hs & Hval).
    rewrite (proj1 (int_of_str_digits _ Hne Hs)), Hval. reflexivity.
  - destruct (of_Z_digits (Zpos p) ltac:(lia)) as (Hne & Hs & Hval).
    change (Str.of_Z (Zneg p)) with (String "-" (Str.of_Z (Zpos p))).
    rewrite (proj2 (int_of_str_digits _ Hne Hs)), Hval. reflexivity.
Qed.

(** X10.  On the fields read from the form, with a field [servings] that
    is missing or an ASCII text within the interpreter's limit on the
    digits of an integer, [_parse_recipe_form] raises only [ValueError],
    and exactly when the field is present, not empty and no integer
    literal: the [float] of an amount is guarded, the [int] of the
    servings is not.  A missing or empty field counts as 4 servings, and
    the decimal text of an integer, negative ones included, is taken as it
    stands. *)
Theorem _parse_recipe_form_servings (form : recipe_form) :
  plain_servings form = true ->
  (forall e, _parse_recipe_form form = Raise e ->
             e = ValueError
             /\ exists s, form_servings form = Some s /\ s <> EmptyString
                          /\ Text.int_of_str s = Raise ValueError)
  /\ (forall s, form_servings form = Some s -> s <> EmptyString ->
                Text.int_of_str s = Raise ValueError ->
                _parse_recipe_form form = Raise ValueError)
  /\ (form_servings form = None \/ form_servings form = Some EmptyString ->
      exists fields, _parse_recipe_form form = Ok fields /\ servings fields = 4)
  /\ (forall n, form_servings form = Some (Str.of_Z n) ->
                exists fields, _parse_recipe_form form = Ok fields
                               /\ servings fields = n).
Proof.
  intros _.
  pose proof (_parse_recipe_form_outcome form) as H.
  unfold servings_of in H.
  split; [| split; [| split]].
  - intros e He. destruct (form_servings form) as [s |] eqn:Hs.
    + destruct (Str.is_empty s) eqn:Hempty.
      * destruct H as (fields & Hf & _). congruence.
      * destruct (Text.int_of_str s) as [n | e'] eqn:Hint.
        -- destruct H as (fields & Hf & _). congruence.
        -- destruct H as [-> H]. split; [congruence |].
           exists s. split; [reflexivity | split; [| exact Hint]].
           intros E. subst s. discriminate Hempty.
    + destruct H as (fields & Hf & _). congruence.
  - intros s Hs Hne Hint. rewrite Hs, (is_empty_false s Hne), Hint in H. apply H.
  - intros [Hs | Hs]; rewrite Hs in H; cbn [Str.is_empty] in H;
      destruct H as (fields & Hf & Hn & _); eauto.
  - intros n Hs. rewrite Hs in H.
    replace (Str.is_empty (Str.of_Z n)) with false in H.
    + rewrite int_of_str_of_Z in H. destruct H as (fields & Hf & Hn & _). eauto.
    + symmetry. apply is_empty_false.
      destruct n as [| p | p]; [discriminate | | discriminate].
      apply (of_Z_digits (Zpos p)). lia.
Qed.

Lemma _parse_recipe_form_servings_witness :
  _parse_recipe_form (mkForm (Some "Bread") (Some "2.5") None None None [] [] [])
  = Raise ValueError.
Proof.
  apply (proj1 (proj2 (_parse_recipe_form_servings
                         (mkForm (Some "Bread") (Some "2.5") None None None [] [] [])
                         eq_refl))
               "2.5");
    [reflexivity | discriminate | vm_compute; reflexivity].
Defined.

(** X11.  What [_parse_recipe_form] returns is clean: every step is
    non-empty, trimmed, free of carriage returns and of blank lines; every
    ingredient has a non-empty, trimmed name and an amount that is a float
    or the integer 0; there are no more ingredients than names sent; the
    title is trimmed and the source URL is never the empty text. *)
Theorem _parse_recipe_form_fields (form : recipe_form) (fields : recipe_fields) :
  _parse_recipe_form form = Ok fields ->
  Forall valid_step (steps fields)
  /\ Forall valid_ingredient (ingredients fields)
  /\ (List.length (ingredients fields) <= List.length (form_ing_names form))%nat
  /\ Str.strip (title fields) = title fields
  /\ source_url fields <> Some EmptyString.
Proof.
  intros Hf. pose proof (_parse_recipe_form_outcome form) as H.
  destruct (servings_of form) as [n | e].
  - destruct H as (fields' & Hf' & _ & Ht & Hsteps & Hing & Hlen & Hurl).
    assert (fields' = fields) by congruence. subst fields'.
    rewrite Hsteps, Ht.
    repeat apply conj;
      [apply parse_steps_valid | exact Hing | exact Hlen | apply strip_idem | exact Hurl].
  - destruct H as [_ H]. congruence.
Qed.

Lemma _parse_recipe_form_fields_witness :
  Forall valid_step ["Mix flour and water."; "Bake."]
  /\ Forall valid_ingredient [mkIngredient "flour" (Flt (Float.of_Z 2)) "cup";
                              mkIngredient "salt" (Int 0) "tsp"].
Proof.
  destruct (_parse_recipe_form_fields
              (mkForm (Some " Bread ") (Some "8") None (Some "  ")
                      (Some (String (ascii_of_N 10)
                               ("Mix flour and water. "
                                ++ String (ascii_of_N 13) (String (ascii_of_N 10)
                                     (String (ascii_of_N 13) (String (ascii_of_N 10)
                                        (String (ascii_of_N 10) "Bake.")))))))
                      [" flour"; "  "; "salt "] ["2"; "1"; "a pinch"]
                      ["cup"; "cup"; "tsp"])
              (mkFields "Bread" 8 EmptyString None ["Mix flour and water."; "Bake."]
                        [mkIngredient "flour" (Flt (Float.of_Z 2)) "cup";
                         mkIngredient "salt" (Int 0) "tsp"]))
    as (Hsteps & Hing & _); [vm_compute; reflexivity |].
  split; [exact Hsteps | exact Hing].
Defined.

(** X12.  The edit form round-trips the steps: steps in ASCII that are
    non-empty, trimmed, free of carriage returns and of blank lines,
    joined by blank lines as [recipe_edit] shows them, are parsed back
    unchanged; and parsing the text shown for parsed steps gives the same
    steps again. *)
Theorem parse_steps_round_trip (l : list string) (instructions : option string) :
  (Forall (fun s => Str.all is_ascii s = true) l ->
   Forall valid_step l -> parse_steps (Some (steps_text l)) = l)
  /\ parse_steps (Some (steps_text (parse_steps instructions)))
     = parse_steps instructions.
Proof.
  split; [intros _; apply parse_steps_join |].
  apply parse_steps_join, parse_steps_valid.
Qed.

Lemma parse_steps_round_trip_witness :
  parse_steps (Some (steps_text ["Mix flour and water."; "Bake."]))
  = ["Mix flour and water."; "Bake."].
Proof.
  apply (proj1 (parse_steps_round_trip ["Mix flour and water."; "Bake."] None)).
  - repeat constructor.
  - repeat constructor; try discriminate; vm_compute; reflexivity.
Defined.

(** ** The density of an ingredient (app.py, seed_king_arthur.py) *)

Lemma _parse_float_total (val : option string) :
  exists r, _parse_float val = Ok r.
Proof.
  unfold _parse_float. destruct val as [s |]; [| eauto].
  destruct (Str.is_empty s); [eauto |].
  destruct (Lit.float_of_str s) as [x | e] eqn:E; [eauto |].
  rewrite (float_of_str_value_error _ _ E). eauto.
Qed.

Lemma normalize_known (a b : Float.float) (u : option string) :
  normalize_to_grams_per_cup (Some a) u (Some b)
  = match cups_per_unit (unit_lower u) with
    | Some c =>
        if Float.is_zero (Float.mul a c) then Ok None
        else Ok (Some (Float.round1 (Float.div b (Float.mul a c))))
    | None => Ok None
    end.
Proof.
  unfold normalize_to_grams_per_cup. rewrite TO_CUPS_table.
  destruct (cups_per_unit (unit_lower u)) as [c |]; [| reflexivity].
  rewrite eqb_Z_zero.
  destruct (Float.is_zero (Float.mul a c)) eqn:Hz; [reflexivity |].
  rewrite (float_truediv_nonzero _ _ Hz). reflexivity.
Qed.

Lemma normalize_total (v : option Float.float) (u : option string)
    (g : option Float.float) :
  exists r, normalize_to_grams_per_cup v u g = Ok r.
Proof.
  destruct v as [a |], g as [b |]; try (eexists; reflexivity).
  rewrite normalize_known.
  destruct (cups_per_unit (unit_lower u)) as [c |]; [| eauto].
  destruct (Float.is_zero (Float.mul a c)); eauto.
Qed.

(** X13.  The density that the ingredient forms store: computing it never
    raises, and it is defined only when the volume and the grams both
    parse to a non-zero float and the unit, [cup] when the field is
    missing, is in the table; it is then grams / (volume x cups per unit)
    rounded to one decimal.  Zero grams give no density, and the text
    [inf] is accepted, leaving a density on which [to_weight] raises. *)
Theorem form_grams_per_cup_guard (volume_amount volume_unit grams : option string) :
  (exists r, form_grams_per_cup volume_amount volume_unit grams = Ok r)
  /\ (forall d,
        form_grams_per_cup volume_amount volume_unit grams = Ok (Some d) ->
        exists a b c,
          _parse_float volume_amount = Ok (Some a) /\ Float.is_zero a = false
          /\ _parse_float grams = Ok (Some b) /\ Float.is_zero b = false
          /\ cups_per_unit
               (Str.lower (match volume_unit with Some u => u | None => "cup" end))
             = Some c
          /\ d = Float.round1 (Float.div b (Float.mul a c)))
  /\ form_grams_per_cup (Some "2") (Some "tablespoons") (Some "14")
     = Ok (Some (Float.of_Z 112))
  /\ form_grams_per_cup (Some "1") None (Some "0") = Ok None
  /\ form_grams_per_cup (Some "1") None (Some "inf") = Ok (Some (S754_infinity false))
  /\ to_weight (Some (Float.of_Z 1)) (Some "cup") (Some (S754_infinity false))
     = Raise OverflowError.
Proof.
  split; [| split; [| repeat apply conj; vm_compute; reflexivity]].
  - unfold form_grams_per_cup.
    destruct (_parse_float_total volume_amount) as [a ->].
    destruct (_parse_float_total grams) as [b ->]. cbn [Py.bind].
    destruct (truthy a && _ && truthy b); [apply normalize_total | eauto].
  - intros d. unfold form_grams_per_cup.
    destruct (_parse_float_total volume_amount) as [a ->].
    destruct (_parse_float_total grams) as [b ->]. cbn [Py.bind].
    set (u := match volume_unit with Some u => u | None => "cup" end).
    destruct a as [a |]; [| discriminate].
    destruct b as [b |];
      [| cbn [truthy]; rewrite andb_false_r; discriminate].
    cbn [truthy].
    destruct (Float.is_zero a) eqn:Ha; [discriminate |].
    destruct (Str.is_empty u) eqn:Hu; [discriminate |].
    destruct (Float.is_zero b) eqn:Hb; [discriminate |].
    cbn [negb andb]. rewrite normalize_known, unit_lower_some.
    destruct (cups_per_unit (Str.lower u)) as [c |] eqn:Hc; [| discriminate].
    destruct (Float.is_zero (Float.mul a c)); [discriminate |].
    intros H. injection H as <-. exists a, b, c.
    repeat apply conj; reflexivity || assumption.
Qed.

Lemma form_grams_per_cup_guard_witness :
  exists a b c,
    _parse_float (Some "0.5") = Ok (Some a) /\ Float.is_zero a = false
    /\ _parse_float (Some "57") = Ok (Some b) /\ Float.is_zero b = false
    /\ cups_per_unit (Str.lower "cup") = Some c
    /\ Float.of_Z 114 = Float.round1 (Float.div b (Float.mul a c)).
Proof.
  apply (proj1 (proj2 (form_grams_per_cup_guard (Some "0.5") None (Some "57")))).
  vm_compute. reflexivity.
Defined.

Lemma digit_not_t (c : ascii) : Str.is_digit c = true -> Re.one "t" c = false.
Proof.
  destruct c as [[] [] [] [] [] [] [] []]; intros H; try discriminate H; reflexivity.
Qed.

(** No [to], so no range. *)
Lemma match_range_digits (s : string) :
  Str.all Str.is_digit s = true -> Re.match_ rx_range s = None.
Proof.
  intros H. unfold Re.match_, rx_range. cbn [Re.run Nat.eqb].
  apply greedy_none. intros w s' Hs Hw. cbn [Re.run].
  apply greedy_none. intros w2 s2 Hs2 Hw2. cbn [Re.run].
  subst s s'. rewrite !all_app in H.
  apply andb_prop in H as [_ H]. apply andb_prop in H as [_ H].
  destruct s2 as [| c s2]; [reflexivity |].
  cbn [Str.all] in H. apply andb_prop in H as [Hc _].
  rewrite (digit_not_t c Hc). reflexivity.
Qed.

Lemma parse_range_digits (s : string) :
  s <> EmptyString -> Str.all Str.is_digit s = true ->
  parse_range s = Ok (Some (Float.of_Z (Lit.int_of_digits s))).
Proof.
  intros Hne Hs. unfold parse_range.
  rewrite (strip_plain s (digit_plain s Hs)), (match_range_digits s Hs).
  apply (parse_fraction_digits s Hne Hs).
Qed.

Lemma normalize_unit_nonempty (w : string) :
  w <> EmptyString -> normalize_unit w <> EmptyString.
Proof.
  intros Hw.
  destruct (normalize_unit_cases w) as [[_ ->] | [[_ ->] | [[_ ->] | ->]]];
    [discriminate .. | exact Hw].
Qed.

Lemma label_text (amt u : string) :
  Str.all plain amt = true -> Str.all is_alpha u = true ->
  Str.all label (amt ++ " " ++ u) = true.
Proof.
  intros Hap Hua. rewrite !all_app. cbn [Str.all append].
  rewrite (all_impl plain label amt), (all_impl is_alpha label u);
    [reflexivity | | exact Hua | | exact Hap];
    intros c Hc; unfold label; rewrite Hc, ?orb_true_r; reflexivity.
Qed.

Lemma remove_soft_hyphen (amt u : string) :
  Str.all plain amt = true -> Str.all is_alpha u = true ->
  Str.remove soft_hyphen (amt ++ " " ++ u) = amt ++ " " ++ u.
Proof.
  intros Hap Hua.
  apply (remove_absent label); [apply label_text; assumption | reflexivity].
Qed.

(** X14.  A row of the chart whose volume cell is a whole number, a space
    and a unit in letters, and whose grams cell is a whole number: the row
    carries the number, the normalized unit, the grams, and as density
    grams / (volume x cups per unit) rounded to one decimal, or none when
    the volume or the grams are zero or the unit is not in the table.  A
    volume cell with a zero denominator ends the row, and with it the
    generator, in [ZeroDivisionError]. *)
Theorem parse_row_standard (name n u ounces_text g : string)
    (ounces : option Float.float) :
  n <> EmptyString -> u <> EmptyString -> g <> EmptyString ->
  Str.all Str.is_digit n = true -> Str.all is_alpha u = true ->
  Str.all Str.is_digit g = true ->
  parse_range ounces_text = Ok ounces ->
  parse_row name (n ++ " " ++ u) ounces_text g
  = Ok (mkRow (Str.remove soft_hyphen name)
              (Some (Float.of_Z (Lit.int_of_digits n)))
              (Some (normalize_unit (Str.lower u)))
              ounces
              (Some (Float.of_Z (Lit.int_of_digits g)))
              (if Float.is_zero (Float.of_Z (Lit.int_of_digits n))
                  || Float.is_zero (Float.of_Z (Lit.int_of_digits g))
               then None
               else
                 match cups_per_unit (Str.lower u) with
                 | Some c =>
                     if Float.is_zero (Float.mul (Float.of_Z (Lit.int_of_digits n)) c)
                     then None
                     else Some (Float.round1
                                  (Float.div (Float.of_Z (Lit.int_of_digits g))
                                             (Float.mul (Float.of_Z (Lit.int_of_digits n)) c)))
                 | None => None
                 end))
  /\ parse_row name ((n ++ "/0") ++ " " ++ u) ounces_text g = Raise ZeroDivisionError.
Proof.
  intros Hn Hu Hg Hnd Hua Hgd Hoz.
  pose proof (digit_plain n Hnd) as Hnp.
  split.
  - unfold parse_row.
    rewrite (remove_soft_hyphen n u Hnp Hua).
    rewrite (parse_volume_text_standard n u Hn Hu Hnp Hua).
    rewrite (parse_fraction_digits n Hn Hnd). cbn [Py.bind].
    rewrite Hoz, (parse_range_digits g Hg Hgd). cbn [Py.bind truthy].
    assert (Hunit : Str.is_empty (normalize_unit (Str.lower u)) = false).
    { apply is_empty_false, normalize_unit_nonempty.
      destruct u; [contradiction Hu; reflexivity | discriminate]. }
    rewrite Hunit. cbn [negb].
    rewrite andb_true_r, <- negb_orb.
    destruct (Float.is_zero _ || Float.is_zero _); cbn [negb]; [reflexivity |].
    rewrite normalize_known, unit_lower_some, (proj2 (normalize_unit_factor u)).
    rewrite <- !TO_CUPS_table, (proj1 (normalize_unit_factor _)), TO_CUPS_table.
    destruct (cups_per_unit (Str.lower u)) as [c |]; [| reflexivity].
    destruct (Float.is_zero (Float.mul _ c)); reflexivity.
  - assert (Hp : Str.all plain (n ++ "/0") = true) by (apply plain_fraction; auto).
    assert (Hne : n ++ "/0" <> EmptyString) by (destruct n; discriminate).
    unfold parse_row.
    rewrite (remove_soft_hyphen _ u Hp Hua).
    rewrite (parse_volume_text_standard _ u Hne Hu Hp Hua).
    rewrite (parse_fraction_over_zero n Hn Hnd). reflexivity.
Qed.

Lemma parse_row_standard_witness :
  parse_row "Butter" "8 tablespoons" "4" "113"
  = Ok (mkRow "Butter" (Some (Float.of_Z 8)) (Some "tablespoons")
              (Some (Float.of_Z 4)) (Some (Float.of_Z 113))
              (Some (Float.of_Z 226))).
Proof.
  apply (proj1 (parse_row_standard "Butter" "8" "tablespoons" "4" "113"
                  (Some (Float.of_Z 4))
                  ltac:(discriminate) ltac:(discriminate) ltac:(discriminate)
                  eq_refl eq_refl eq_refl ltac:(vm_compute; reflexivity))).
Defined.

(** ** Ranges and whole numbers *)

Lemma match_range_no_t (s : string) :
  Str.all (Re.other "t") s = true -> Re.match_ rx_range s = None.
Proof.
  intros H. unfold Re.match_, rx_range. cbn [Re.run Nat.eqb].
  apply greedy_none. intros w s' Hs Hw. cbn [Re.run].
  apply greedy_none. intros w2 s2 Hs2 Hw2. cbn [Re.run].
  subst s s'. rewrite !all_app in H.
  apply andb_prop in H as [_ H]. apply andb_prop in H as [_ H].
  destruct s2 as [| c s2]; [reflexivity |].
  cbn [Str.all] in H. apply andb_prop in H as [Hc _].
  unfold Re.other in Hc. apply negb_true_iff in Hc.
  unfold Re.one. rewrite Hc. reflexivity.
Qed.

Lemma parse_fraction_strip (text : string) :
  parse_fraction (Str.strip text) = parse_fraction text.
Proof. unfold parse_fraction. rewrite strip_idem. reflexivity. Qed.

(** X15.  A text without the letter [t] is no range: [parse_range] returns
    on it what [parse_fraction] returns.  The pattern is case sensitive,
    so ["1 TO 2"] is no range either and is undefined.  Both functions
    ignore white space around the text. *)
Theorem parse_range_without_to (text : string) :
  (Str.all (Re.other "t") text = true -> parse_range text = parse_fraction text)
  /\ parse_fraction (Str.strip text) = parse_fraction text
  /\ parse_range (Str.strip text) = parse_range text
  /\ parse_range "1 TO 2" = Ok None.
Proof.
  split; [| split; [apply parse_fraction_strip | split; [| vm_compute; reflexivity]]].
  - intros H. unfold parse_range.
    rewrite (match_range_no_t _ (all_strip _ _ H)). apply parse_fraction_strip.
  - unfold parse_range. rewrite strip_idem. reflexivity.
Qed.

Lemma parse_range_without_to_witness :
  parse_range " 1 1/2 " = parse_fraction " 1 1/2 ".
Proof.
  apply (proj1 (parse_range_without_to " 1 1/2 ")). reflexivity.
Defined.

Lemma whole_upto :
  forallb (fun n => whole_rendered (Z.of_nat n) && whole_rendered (- Z.of_nat n))
          (seq 0 4097) = true.
Proof. vm_compute. reflexivity. Qed.

(** X16.  Whole numbers are rendered without a decimal point: for an
    integer [n] of up to 4096 in absolute value, [format_amount] renders
    the float of [n] as [str(n)], which [parse_fraction] reads back as that
    float when [n >= 0]. *)
Theorem format_amount_whole (n : Z) :
  -4096 <= n <= 4096 ->
  format_amount (Some (Float.of_Z n)) = Ok (Str.of_Z n)
  /\ (0 <= n ->
      (s <- format_amount (Some (Float.of_Z n)) ;; parse_fraction s)
      = Ok (Some (Float.of_Z n))).
Proof.
  intros Hn.
  assert (H : format_amount (Some (Float.of_Z n)) = Ok (Str.of_Z n)).
  { pose proof whole_upto as H. rewrite forallb_forall in H.
    specialize (H (Z.to_nat (Z.abs n)) ltac:(apply in_seq; lia)).
    apply andb_prop in H as [Hpos Hneg].
    rewrite Z2Nat.id in Hpos, Hneg by lia.
    assert (Hw : whole_rendered n = true)
      by (destruct (Z.abs_spec n) as [[_ E] | [_ E]]; rewrite E in *;
          [exact Hpos | rewrite Z.opp_involutive in Hneg; exact Hneg]).
    unfold whole_rendered in Hw.
    destruct (format_amount _) as [s | e]; [| discriminate Hw].
    apply String.eqb_eq in Hw. subst s. reflexivity. }
  split; [exact H |].
  intros Hpos. rewrite H. cbn [Py.bind].
  destruct (of_Z_digits n Hpos) as (Hne & Hs & Hval).
  rewrite (parse_fraction_digits _ Hne Hs), Hval. reflexivity.
Qed.

Lemma format_amount_whole_witness :
  format_amount (Some (Float.of_Z (-12))) = Ok "-12".
Proof.
  apply (proj1 (format_amount_whole (-12) ltac:(lia))).
Defined.

(** ** The shopping list (app.py) *)





























Lemma merge_plan_positive (db : Z -> list recipe_ingredient) (plan : list (string * Z))
    (merged : list (string * merged_item)) :
  merge_plan db (filter (fun entry => 0 <? snd entry) plan) merged
  = merge_plan db plan merged.
Proof.
  revert merged. induction plan as [| [id_str qty] plan IH]; intros merged;
    [reflexivity |].
  cbn [filter snd merge_plan].
  destruct (qty <=? 0) eqn:E.
  - apply Z.leb_le in E. replace (0 <? qty) with false by (symmetry; apply Z.ltb_ge; lia).
    apply IH.
  - apply Z.leb_gt in E. replace (0 <? qty) with true by (symmetry; apply Z.ltb_lt; lia).
    cbn [merge_plan]. replace (qty <=? 0) with false by (symmetry; apply Z.leb_gt; lia).
    destruct (Text.int_of_str id_str) as [id | e]; [| reflexivity]. cbn [Py.bind].
    destruct (merge_rows qty (db id) merged) as [m1 | e]; [| reflexivity].
    cbn [Py.bind]. apply IH.
Qed.

(** X19.  Recipes planned with a quantity of zero or less do not count:
    the shopping list is what it is for the plan without them, their
    identifiers are not even read, and a plan of such recipes only gives
    the empty list. *)
Theorem api_shopping_list_positive (db : Z -> list recipe_ingredient)
    (plan : list (string * Z)) (unit_mode : string) :
  api_shopping_list db (filter (fun entry => 0 <? snd entry) plan) unit_mode
  = api_shopping_list db plan unit_mode
  /\ (Forall (fun entry => snd entry <= 0) plan ->
      api_shopping_list db plan unit_mode = Ok []).
Proof.
  split.
  - unfold api_shopping_list. rewrite merge_plan_positive. reflexivity.
  - intros Hall. unfold api_shopping_list.
    assert (H : merge_plan db plan [] = Ok []).
    { induction Hall as [| [id_str qty] plan Hq _ IH]; [reflexivity |].
      cbn [merge_plan]. cbn [snd] in Hq.
      replace (qty <=? 0) with true by (symmetry; apply Z.leb_le; exact Hq).
      exact IH. }
    rewrite H. reflexivity.
Qed.

Lemma api_shopping_list_positive_witness :
  api_shopping_list two_recipes [("not a number", 0); ("2", -1)] "volume" = Ok [].
Proof.
  apply (proj2 (api_shopping_list_positive
                  two_recipes [("not a number", 0); ("2", -1)] "volume")).
  repeat constructor; cbn [snd]; lia.
Defined.
